(** * Adaptive performance controller and scroll-driven glass state

  A shallow embedding of the two algorithmic cores of the portfolio page:

  - the scroll-driven shader parameter logic ([getGlassModeForProgress],
    [computeExposureForScroll], [updateSaturationForScroll]) together with
    the uniform writers of [src/effects/OverlayEffects.js];
  - the closed-loop performance controller ([attemptDegrade],
    [attemptUpgrade], [enforcePixelBudget], [perfAdaptiveUpdate],
    [_triggerResumeGuard] and the [window.__perfDebug] overrides).

  The page exists in two near-identical entry variants.  [Part001] is the
  variant with the resume guard (three DPR buckets); [Part000] is the older
  one (five DPR buckets, no guard).  Code that is textually shared by both
  is embedded once.

  Further modules cover the head-look helpers, the scroll input of the
  page, more of the uniform writers and the snap-scrolling [ScrollSystem].

  Numbers.  JavaScript numbers are modelled by rationals, extended with
  [NaN] and the two infinities where the code can produce or receive them
  ([num]).  Arithmetic is exact, except in the head-look helpers
  ([HeadLook]), whose results depend on rounding: there every arithmetic
  result passes through a rounding function with the properties of
  rounding to binary64.  The sign of zero is not modelled. *)

From Stdlib Require Import QArith Qminmax Qround Qabs ZArith String List Bool.
From Stdlib Require Import Lia Lqa.
Import ListNotations.
Open Scope Q_scope.

(* ================================================================== *)
(** ** Rational helpers *)

Definition Qlt_bool (x y : Q) : bool := negb (Qle_bool y x).

(* ================================================================== *)
(** ** JavaScript numbers *)

Module JsNum.

Inductive num : Type :=
| NaN
| NegInf
| PosInf
| Fin (q : Q).

(** [n =Q= q]: the number [n] is finite and has the rational value [q]. *)
Definition num_is (n : num) (q : Q) : Prop :=
  match n with
  | Fin x => x == q
  | _ => False
  end.

(** [a <= b] *)
Definition nle (a b : num) : bool :=
  match a, b with
  | NaN, _ => false
  | _, NaN => false
  | NegInf, _ => true
  | _, PosInf => true
  | PosInf, _ => false
  | Fin _, NegInf => false
  | Fin x, Fin y => Qle_bool x y
  end.

(** [a < b] *)
Definition nlt (a b : num) : bool :=
  match a, b with
  | NaN, _ => false
  | _, NaN => false
  | PosInf, _ => false
  | _, NegInf => false
  | NegInf, _ => true
  | Fin _, PosInf => true
  | Fin x, Fin y => Qlt_bool x y
  end.

(** [a >= b] and [a > b] *)
Definition nge (a b : num) : bool := nle b a.
Definition ngt (a b : num) : bool := nlt b a.

Definition nneg (a : num) : num :=
  match a with
  | NaN => NaN
  | NegInf => PosInf
  | PosInf => NegInf
  | Fin x => Fin (- x)
  end.

Definition nadd (a b : num) : num :=
  match a, b with
  | NaN, _ => NaN
  | _, NaN => NaN
  | PosInf, NegInf => NaN
  | NegInf, PosInf => NaN
  | PosInf, _ => PosInf
  | _, PosInf => PosInf
  | NegInf, _ => NegInf
  | _, NegInf => NegInf
  | Fin x, Fin y => Fin (x + y)
  end.

Definition nsub (a b : num) : num :=
  match a, b with
  | Fin x, Fin y => Fin (x - y)
  | _, _ => nadd a (nneg b)
  end.

Definition nsign (a : num) : option comparison :=
  match a with
  | NaN => None
  | NegInf => Some Lt
  | PosInf => Some Gt
  | Fin x => Some (x ?= 0)
  end.

Definition nmul (a b : num) : num :=
  match a, b with
  | Fin x, Fin y => Fin (x * y)
  | _, _ =>
      match nsign a, nsign b with
      | Some Lt, Some Lt => PosInf
      | Some Gt, Some Gt => PosInf
      | Some Lt, Some Gt => NegInf
      | Some Gt, Some Lt => NegInf
      | _, _ => NaN (* a NaN operand, or infinity times zero *)
      end
  end.

Definition ndiv (a b : num) : num :=
  match a, b with
  | NaN, _ => NaN
  | _, NaN => NaN
  | Fin x, Fin y =>
      if Qeq_bool y 0 then
        match x ?= 0 with
        | Eq => NaN
        | Gt => PosInf
        | Lt => NegInf
        end
      else Fin (x / y)
  | Fin _, _ => Fin 0
  | inf, Fin y =>
      match y ?= 0 with
      | Lt => nneg inf
      | _ => inf
      end
  | _, _ => NaN
  end.

(** [Math.min(a, b)] and [Math.max(a, b)] *)
Definition nmin (a b : num) : num :=
  match a, b with
  | NaN, _ => NaN
  | _, NaN => NaN
  | Fin x, Fin y => Fin (Qmin x y)
  | _, _ => if nle a b then a else b
  end.

Definition nmax (a b : num) : num :=
  match a, b with
  | NaN, _ => NaN
  | _, NaN => NaN
  | Fin x, Fin y => Fin (Qmax x y)
  | _, _ => if nle a b then b else a
  end.

(** [THREE.MathUtils.clamp(value, min, max)], which three.js implements as
    [Math.max(min, Math.min(max, value))]. *)
Definition clamp (value lo hi : num) : num := nmax lo (nmin hi value).

End JsNum.

Import JsNum.
Notation "n =Q= q" := (num_is n q) (at level 70, no associativity).

(* ================================================================== *)
(** ** Scroll progress model (shared by both entry variants) *)

Module ScrollModel.

Record GlassMode : Type := mkGlassMode {
  splitScreen : bool;
  boundary : num;
  effectProgress : num;      (* left-side coverage *)
  rightSideProgress : num    (* right-side coverage *)
}.

(** [getGlassModeForProgress(scrollProgress)] *)
Definition getGlassModeForProgress (scrollProgress : num) : GlassMode :=
  if nle scrollProgress (Fin 0.5) then
    let localProgress := nmul scrollProgress (Fin 2.0) in
    {| splitScreen := true;
       boundary := Fin 0.5;
       effectProgress := localProgress;
       rightSideProgress := Fin 0.0 |}
  else
    let localProgress := nmul (nsub scrollProgress (Fin 0.5)) (Fin 2.0) in
    {| splitScreen := true;
       boundary := Fin 0.5;
       effectProgress := Fin 1.0;
       rightSideProgress := localProgress |}.

(** [Math.min(scrollY / (sectionHeight * (totalSections - 1)), 1.0)] with
    [totalSections = 3], as computed by [handleScroll]. *)
Definition scrollProgressOf (scrollY sectionHeight : num) : num :=
  nmin (ndiv scrollY (nmul sectionHeight (nsub (Fin 3) (Fin 1)))) (Fin 1.0).

(** Module-level tunables of the scroll code. *)
Definition baseExposure : Q := 1.0.
Definition baseSaturation : Q := -0.25.

(** [updateSaturationForScroll(scrollProgress)]: the value assigned to
    [hueSatEffect.saturation]. *)
Definition updateSaturationForScroll (scrollProgress : num) : num :=
  let targetSaturation :=
    nsub (Fin baseSaturation) (nmul scrollProgress (Fin 0.0)) in
  targetSaturation.

(** [computeExposureForScroll(scrollProgress)] of part_001. *)
Definition computeExposureForScroll (scrollProgress : num) : num :=
  let start := Fin 0.5 in
  let end_ := Fin 1.0 in
  let t := clamp (ndiv (nsub scrollProgress start) (nsub end_ start))
                 (Fin 0) (Fin 1) in
  let eased := nmul (nmul t t) (nsub (Fin 3) (nmul (Fin 2) t)) in
  let finalFactor := Fin 0.7 in
  nmul (Fin baseExposure)
       (nsub (Fin 1) (nmul eased (nsub (Fin 1) finalFactor))).

(** The clamped parameter [t] of [computeExposureForScroll] at a finite
    progress. *)
Definition exposureT (p : Q) : Q :=
  Qmax 0 (Qmin 1 ((p - 0.5) / (1.0 - 0.5))).

(** part_000 has no [computeExposureForScroll]; its [handleScroll] tweens
    the renderer exposure towards this target. *)
Definition legacyTargetExposure (scrollProgress : num) : num :=
  if ngt scrollProgress (Fin 0.5)
  then nmul (Fin baseExposure) (Fin 0.7)
  else Fin baseExposure.

(** The smoothstep polynomial, and a smoothstep-eased interpolation over
    the back half of the range, as the specification words it: [from] on
    [0, 0.5], easing to [to] on (0.5, 1]. *)
Definition smoothstep (t : Q) : Q := t * t * (3 - 2 * t).

Definition backHalfEase (from to p : Q) : Q :=
  if Qle_bool p 0.5 then from
  else from + smoothstep ((p - 0.5) / 0.5) * (to - from).

End ScrollModel.


(* ================================================================== *)
(** ** Uniform writers of [src/effects/OverlayEffects.js] *)

Module OverlayEffects.

(** The JavaScript values whose coercions matter to the uniform writers.
    Strings and objects, which coerce through [StringToNumber] and
    [ToPrimitive], and BigInts are left out. *)
Inductive jsval : Type :=
| JUndefined
| JNull
| JBool (b : bool)
| JNumber (n : num)
| JSymbol.

(** A call either completes normally or throws a [TypeError]. *)
Inductive Completion (A : Type) : Type :=
| Normal (a : A)
| ThrowTypeError.
Arguments Normal {A} a.
Arguments ThrowTypeError {A}.

Definition bindC {A B : Type} (c : Completion A) (k : A -> Completion B)
  : Completion B :=
  match c with
  | Normal a => k a
  | ThrowTypeError => ThrowTypeError
  end.

Notation "x <- c ;; k" := (bindC c (fun x => k))
  (at level 61, c at next level, right associativity).

(** ECMAScript [ToBoolean]. *)
Definition ToBoolean (v : jsval) : bool :=
  match v with
  | JUndefined => false
  | JNull => false
  | JBool b => b
  | JNumber NaN => false
  | JNumber (Fin q) => negb (Qeq_bool q 0)
  | JNumber _ => true
  | JSymbol => true
  end.

(** ECMAScript [ToNumber]; a Symbol cannot be converted. *)
Definition ToNumber (v : jsval) : Completion num :=
  match v with
  | JUndefined => Normal NaN
  | JNull => Normal (Fin 0)
  | JBool true => Normal (Fin 1)
  | JBool false => Normal (Fin 0)
  | JNumber n => Normal n
  | JSymbol => ThrowTypeError
  end.

(** [a || b] *)
Definition js_or (a b : jsval) : jsval := if ToBoolean a then a else b.

(** [Math.min(a, b)] and [Math.max(a, b)]: both arguments are coerced, left
    to right, before they are compared. *)
Definition Math_min (a b : jsval) : Completion num :=
  x <- ToNumber a ;; y <- ToNumber b ;; Normal (nmin x y).

Definition Math_max (a b : jsval) : Completion num :=
  x <- ToNumber a ;; y <- ToNumber b ;; Normal (nmax x y).

(** The [uniforms] of an effect: a [Map] from uniform name to the numeric
    [value] of its [THREE.Uniform], in insertion order. *)
Definition Uniforms : Type := list (string * num).

Fixpoint has (U : Uniforms) (k : string) : bool :=
  match U with
  | [] => false
  | (k', _) :: U' => if String.eqb k' k then true else has U' k
  end.

Fixpoint get (U : Uniforms) (k : string) : option num :=
  match U with
  | [] => None
  | (k', v) :: U' => if String.eqb k' k then Some v else get U' k
  end.

(** [U.get(k).value = v] for a key that is present. *)
Fixpoint set_value (U : Uniforms) (k : string) (v : num) : Uniforms :=
  match U with
  | [] => []
  | (k', v') :: U' =>
      if String.eqb k' k then (k', v) :: U' else (k', v') :: set_value U' k v
  end.

Record Effect : Type := mkEffect { uniforms : Uniforms }.

(** An absent handle ([null] or [undefined]) is [None]. *)
Definition Handle : Type := option Effect.

(** [setReededScrollProgress(effect, scrollProgress)]; the result is the
    handle after the call. *)
Definition setReededScrollProgress (effect : Handle) (scrollProgress : jsval)
  : Completion Handle :=
  match effect with
  | None => Normal None
  | Some e =>
      let U := uniforms e in
      if has U "scrollProgress" then
        m <- Math_min (JNumber (Fin 1)) (js_or scrollProgress (JNumber (Fin 0))) ;;
        v <- Math_max (JNumber (Fin 0)) (JNumber m) ;;
        Normal (Some {| uniforms := set_value U "scrollProgress" v |})
      else Normal (Some e)
  end.

(** A default parameter value applies when the argument is [undefined]. *)
Definition defaultTo (d : jsval) (v : jsval) : jsval :=
  match v with
  | JUndefined => d
  | _ => v
  end.

(** [setReededSplitScreenMode(effect, enabled, boundary = 0.5,
    rightSideProgress = 0.0)] *)
Definition setReededSplitScreenMode (effect : Handle)
    (enabled boundary rightSideProgress : jsval) : Completion Handle :=
  let boundary := defaultTo (JNumber (Fin 0.5)) boundary in
  let rightSideProgress := defaultTo (JNumber (Fin 0.0)) rightSideProgress in
  match effect with
  | None => Normal None
  | Some e =>
      let U := uniforms e in
      let U1 :=
        if has U "splitScreenMode"
        then set_value U "splitScreenMode"
                       (if ToBoolean enabled then Fin 1.0 else Fin 0.0)
        else U in
      U2 <- (if has U1 "splitScreenBoundary" then
               m <- Math_min (JNumber (Fin 1)) boundary ;;
               v <- Math_max (JNumber (Fin 0)) (JNumber m) ;;
               Normal (set_value U1 "splitScreenBoundary" v)
             else Normal U1) ;;
      U3 <- (if has U2 "rightSideProgress" then
               m <- Math_min (JNumber (Fin 1)) rightSideProgress ;;
               v <- Math_max (JNumber (Fin 0)) (JNumber m) ;;
               Normal (set_value U2 "rightSideProgress" v)
             else Normal U2) ;;
      Normal (Some {| uniforms := U3 |})
  end.

(** The scroll-related uniforms with which [createReededPass] builds the
    effect. *)
Definition reededScrollUniforms : Uniforms :=
  [ ("scrollProgress", Fin 0.0);
    ("scrollRefractionMultiplier", Fin 3.0);
    ("splitScreenMode", Fin 0.0);
    ("splitScreenBoundary", Fin 0.5);
    ("rightSideProgress", Fin 0.0) ]%string.

(** What the specification asks the written progress to be: the input
    clamped to [0, 1], a missing or not-a-number input counting as 0. *)
Definition clampedProgress (v : jsval) : Q :=
  match v with
  | JNumber (Fin q) => Qmax 0 (Qmin 1 q)
  | JNumber PosInf => 1
  | _ => 0
  end.

(** The inputs the callers pass: a number (NaN and the infinities
    included), or nothing. *)
Definition numericOrMissing (v : jsval) : Prop :=
  match v with
  | JNumber _ => True
  | JUndefined => True
  | JNull => True
  | _ => False
  end.

End OverlayEffects.


(* ================================================================== *)
(** ** The adaptive performance controller *)

Module Controller.

Inductive Category : Type := phone | tablet | fanless | desktop.

Definition Category_eqb (a b : Category) : bool :=
  match a, b with
  | phone, phone => true
  | tablet, tablet => true
  | fanless, fanless => true
  | desktop, desktop => true
  | _, _ => false
  end.

Record DeviceProfile : Type := mkDeviceProfile {
  category : Category;
  baseCapInitial : Q;
  baseCapMax : Q;
  baseCapCurrent : Q;
  largeDisplay : bool
}.

Definition with_baseCapCurrent (v : Q) (p : DeviceProfile) : DeviceProfile :=
  mkDeviceProfile (category p) (baseCapInitial p) (baseCapMax p) v
    (largeDisplay p).

Record Tier : Type := mkTier {
  name : string;
  bloomScale : Q;
  reededScale : Q
}.

(** Identical in both entry variants. *)
Definition EFFECT_QUALITY_LEVELS : list Tier :=
  [ mkTier "ultra" 1.0 1.0;
    mkTier "high" 0.82 0.9;
    mkTier "med" 0.68 0.8;
    mkTier "low" 0.55 0.7 ].

Definition MAX_EFFECTIVE_DPR : Q := 1.75.
Definition PIXEL_BUDGET : Q := 9000000.
Definition PERF_CHANGE_DEBOUNCE : Q := 1300.
Definition EMA_WINDOW_SECONDS : Q := 1.0.

(** The module-level variables of the controller, followed by what it last
    pushed outwards: the pixel ratio handed to [renderer.setPixelRatio] and
    the size handed to [setReededResolution] ([None] before the first push).
    The resume-guard variables and [_lastEmaFPS] exist in part_001 only; the
    part_000 functions neither read nor write them.  Times are milliseconds
    of [performance.now()]. *)
Record State : Type := mkState {
  __deviceProfile : DeviceProfile;
  _dprBucketIndex : nat;
  _effectQualityLevel : nat;
  _emaFrameTime : Q;
  _lastPerfChangeTime : Q;
  _lowPerfAccum : Q;
  _highPerfAccum : Q;
  _lastEmaFPS : num;
  _lastCSSW : Q;
  _lastCSSH : Q;
  _resumeGuardUntil : Q;
  _resumeIgnoreFrames : nat;
  _postResumeDebounceUntil : Q;
  rendererPixelRatio : Q;
  reededResolution : option (Z * Z)
}.

Definition with_deviceProfile (v : DeviceProfile) (s : State) : State :=
  mkState v (_dprBucketIndex s) (_effectQualityLevel s) (_emaFrameTime s)
    (_lastPerfChangeTime s) (_lowPerfAccum s) (_highPerfAccum s)
    (_lastEmaFPS s) (_lastCSSW s) (_lastCSSH s) (_resumeGuardUntil s)
    (_resumeIgnoreFrames s) (_postResumeDebounceUntil s)
    (rendererPixelRatio s) (reededResolution s).

Definition with_dprBucketIndex (v : nat) (s : State) : State :=
  mkState (__deviceProfile s) v (_effectQualityLevel s) (_emaFrameTime s)
    (_lastPerfChangeTime s) (_lowPerfAccum s) (_highPerfAccum s)
    (_lastEmaFPS s) (_lastCSSW s) (_lastCSSH s) (_resumeGuardUntil s)
    (_resumeIgnoreFrames s) (_postResumeDebounceUntil s)
    (rendererPixelRatio s) (reededResolution s).

Definition with_effectQualityLevel (v : nat) (s : State) : State :=
  mkState (__deviceProfile s) (_dprBucketIndex s) v (_emaFrameTime s)
    (_lastPerfChangeTime s) (_lowPerfAccum s) (_highPerfAccum s)
    (_lastEmaFPS s) (_lastCSSW s) (_lastCSSH s) (_resumeGuardUntil s)
    (_resumeIgnoreFrames s) (_postResumeDebounceUntil s)
    (rendererPixelRatio s) (reededResolution s).

Definition with_emaFrameTime (v : Q) (s : State) : State :=
  mkState (__deviceProfile s) (_dprBucketIndex s) (_effectQualityLevel s) v
    (_lastPerfChangeTime s) (_lowPerfAccum s) (_highPerfAccum s)
    (_lastEmaFPS s) (_lastCSSW s) (_lastCSSH s) (_resumeGuardUntil s)
    (_resumeIgnoreFrames s) (_postResumeDebounceUntil s)
    (rendererPixelRatio s) (reededResolution s).

Definition with_lastPerfChangeTime (v : Q) (s : State) : State :=
  mkState (__deviceProfile s) (_dprBucketIndex s) (_effectQualityLevel s)
    (_emaFrameTime s) v (_lowPerfAccum s) (_highPerfAccum s) (_lastEmaFPS s)
    (_lastCSSW s) (_lastCSSH s) (_resumeGuardUntil s)
    (_resumeIgnoreFrames s) (_postResumeDebounceUntil s)
    (rendererPixelRatio s) (reededResolution s).

Definition with_lowPerfAccum (v : Q) (s : State) : State :=
  mkState (__deviceProfile s) (_dprBucketIndex s) (_effectQualityLevel s)
    (_emaFrameTime s) (_lastPerfChangeTime s) v (_highPerfAccum s)
    (_lastEmaFPS s) (_lastCSSW s) (_lastCSSH s) (_resumeGuardUntil s)
    (_resumeIgnoreFrames s) (_postResumeDebounceUntil s)
    (rendererPixelRatio s) (reededResolution s).

Definition with_highPerfAccum (v : Q) (s : State) : State :=
  mkState (__deviceProfile s) (_dprBucketIndex s) (_effectQualityLevel s)
    (_emaFrameTime s) (_lastPerfChangeTime s) (_lowPerfAccum s) v
    (_lastEmaFPS s) (_lastCSSW s) (_lastCSSH s) (_resumeGuardUntil s)
    (_resumeIgnoreFrames s) (_postResumeDebounceUntil s)
    (rendererPixelRatio s) (reededResolution s).

Definition with_lastEmaFPS (v : num) (s : State) : State :=
  mkState (__deviceProfile s) (_dprBucketIndex s) (_effectQualityLevel s)
    (_emaFrameTime s) (_lastPerfChangeTime s) (_lowPerfAccum s)
    (_highPerfAccum s) v (_lastCSSW s) (_lastCSSH s) (_resumeGuardUntil s)
    (_resumeIgnoreFrames s) (_postResumeDebounceUntil s)
    (rendererPixelRatio s) (reededResolution s).

Definition with_lastCSSW (v : Q) (s : State) : State :=
  mkState (__deviceProfile s) (_dprBucketIndex s) (_effectQualityLevel s)
    (_emaFrameTime s) (_lastPerfChangeTime s) (_lowPerfAccum s)
    (_highPerfAccum s) (_lastEmaFPS s) v (_lastCSSH s) (_resumeGuardUntil s)
    (_resumeIgnoreFrames s) (_postResumeDebounceUntil s)
    (rendererPixelRatio s) (reededResolution s).

Definition with_lastCSSH (v : Q) (s : State) : State :=
  mkState (__deviceProfile s) (_dprBucketIndex s) (_effectQualityLevel s)
    (_emaFrameTime s) (_lastPerfChangeTime s) (_lowPerfAccum s)
    (_highPerfAccum s) (_lastEmaFPS s) (_lastCSSW s) v (_resumeGuardUntil s)
    (_resumeIgnoreFrames s) (_postResumeDebounceUntil s)
    (rendererPixelRatio s) (reededResolution s).

Definition with_resumeGuardUntil (v : Q) (s : State) : State :=
  mkState (__deviceProfile s) (_dprBucketIndex s) (_effectQualityLevel s)
    (_emaFrameTime s) (_lastPerfChangeTime s) (_lowPerfAccum s)
    (_highPerfAccum s) (_lastEmaFPS s) (_lastCSSW s) (_lastCSSH s) v
    (_resumeIgnoreFrames s) (_postResumeDebounceUntil s)
    (rendererPixelRatio s) (reededResolution s).

Definition with_resumeIgnoreFrames (v : nat) (s : State) : State :=
  mkState (__deviceProfile s) (_dprBucketIndex s) (_effectQualityLevel s)
    (_emaFrameTime s) (_lastPerfChangeTime s) (_lowPerfAccum s)
    (_highPerfAccum s) (_lastEmaFPS s) (_lastCSSW s) (_lastCSSH s)
    (_resumeGuardUntil s) v (_postResumeDebounceUntil s)
    (rendererPixelRatio s) (reededResolution s).

Definition with_postResumeDebounceUntil (v : Q) (s : State) : State :=
  mkState (__deviceProfile s) (_dprBucketIndex s) (_effectQualityLevel s)
    (_emaFrameTime s) (_lastPerfChangeTime s) (_lowPerfAccum s)
    (_highPerfAccum s) (_lastEmaFPS s) (_lastCSSW s) (_lastCSSH s)
    (_resumeGuardUntil s) (_resumeIgnoreFrames s) v (rendererPixelRatio s)
    (reededResolution s).

Definition with_rendererPixelRatio (v : Q) (s : State) : State :=
  mkState (__deviceProfile s) (_dprBucketIndex s) (_effectQualityLevel s)
    (_emaFrameTime s) (_lastPerfChangeTime s) (_lowPerfAccum s)
    (_highPerfAccum s) (_lastEmaFPS s) (_lastCSSW s) (_lastCSSH s)
    (_resumeGuardUntil s) (_resumeIgnoreFrames s)
    (_postResumeDebounceUntil s) v (reededResolution s).

Definition with_reededResolution (v : option (Z * Z)) (s : State) : State :=
  mkState (__deviceProfile s) (_dprBucketIndex s) (_effectQualityLevel s)
    (_emaFrameTime s) (_lastPerfChangeTime s) (_lowPerfAccum s)
    (_highPerfAccum s) (_lastEmaFPS s) (_lastCSSW s) (_lastCSSH s)
    (_resumeGuardUntil s) (_resumeIgnoreFrames s)
    (_postResumeDebounceUntil s) (rendererPixelRatio s) v.

(** [sameAmbient s s']: [s'] differs from [s] at most in the two ladder
    indices, the time of the last change and the pushed outputs.
    [sameControl s s'] also fixes the tier and the time of the last
    change, leaving the bucket index and the outputs free. *)
Definition sameAmbient (s s' : State) : Prop :=
  __deviceProfile s' = __deviceProfile s /\
  _emaFrameTime s' = _emaFrameTime s /\
  _lowPerfAccum s' = _lowPerfAccum s /\
  _highPerfAccum s' = _highPerfAccum s /\
  _lastEmaFPS s' = _lastEmaFPS s /\
  _lastCSSW s' = _lastCSSW s /\
  _lastCSSH s' = _lastCSSH s /\
  _resumeGuardUntil s' = _resumeGuardUntil s /\
  _resumeIgnoreFrames s' = _resumeIgnoreFrames s /\
  _postResumeDebounceUntil s' = _postResumeDebounceUntil s.

Definition sameControl (s s' : State) : Prop :=
  sameAmbient s s' /\
  _effectQualityLevel s' = _effectQualityLevel s /\
  _lastPerfChangeTime s' = _lastPerfChangeTime s.

(** What the controller reads from its surroundings at each call:
    [window.devicePixelRatio] (0 stands for a missing value) and whether the
    reeded-glass effect [_reedEffect] has been created yet. *)
Record Env : Type := mkEnv {
  devicePixelRatio : Q;
  reedEffectPresent : bool
}.

(** [window.devicePixelRatio || 1] *)
Definition nativePixelRatio (env : Env) : Q :=
  if Qeq_bool (devicePixelRatio env) 0 then 1 else devicePixelRatio env.

(** [Math.min(Math.max(0, i), length - 1)] for an integer [i], as an index. *)
Definition clampIndex (i : Z) (len : nat) : nat :=
  Z.to_nat (Z.min (Z.max 0 i) (Z.of_nat len - 1)).

(** The depth of the mutual calls between [_applyRendererPixelRatio] and
    [enforcePixelBudget] allowed to the embedding; two levels are always
    enough (lemma [enforcePixelBudget_total]). *)
Definition callDepth : nat := 2.

(** *** The quality ladder, for a given bucket table *)

Section Ladder.

Variable DPR_BUCKETS : list Q.

(** [DPR_BUCKETS[_dprBucketIndex] || 1.0] *)
Definition bucketMultiplier (i : nat) : Q :=
  match nth_error DPR_BUCKETS i with
  | Some m => if Qeq_bool m 0 then 1.0 else m
  | None => 1.0
  end.

Definition currentTargetPixelRatio (env : Env) (s : State) : Q :=
  let base := baseCapCurrent (__deviceProfile s) in
  let bucketMul := bucketMultiplier (_dprBucketIndex s) in
  Qmin (Qmin (base * bucketMul) MAX_EFFECTIVE_DPR) (nativePixelRatio env).

(** [applyEffectQuality()]: the reeded-glass effect is resized to the scale
    of the current tier. *)
Definition applyEffectQuality (env : Env) (s : State) : State :=
  match nth_error EFFECT_QUALITY_LEVELS (_effectQualityLevel s) with
  | None => s
  | Some tier =>
      if reedEffectPresent env then
        with_reededResolution
          (Some (Qfloor (_lastCSSW s * reededScale tier),
                 Qfloor (_lastCSSH s * reededScale tier))) s
      else s
  end.

(** [_applyRendererPixelRatio()] up to its closing pixel-budget check: the
    pixel ratio is pushed to the renderer and [applyEffectQuality()] runs.
    (The composer size and the vignette resolution it also sets are not
    part of the state.) *)
Definition pushPixelRatio (env : Env) (s : State) : State :=
  applyEffectQuality env
    (with_rendererPixelRatio (currentTargetPixelRatio env s) s).

Definition internalPixels (env : Env) (s : State) : Q :=
  let pr := currentTargetPixelRatio env s in
  _lastCSSW s * _lastCSSH s * pr * pr.

(** The condition of the [while] loop of [enforcePixelBudget]. *)
Definition overBudget (env : Env) (s : State) : bool :=
  Qlt_bool PIXEL_BUDGET (internalPixels env s)
  && (_dprBucketIndex s <? length DPR_BUCKETS - 1)%nat.

(** The [while] loop of [enforcePixelBudget]; [changed] is the flag. *)
Fixpoint budgetLoop (fuel : nat) (env : Env) (s : State) (changed : bool)
  : option (State * bool) :=
  if overBudget env s then
    match fuel with
    | O => None
    | S fuel' =>
        budgetLoop fuel' env (with_dprBucketIndex (S (_dprBucketIndex s)) s)
                   true
    end
  else Some (s, changed).

(** [enforcePixelBudget()].  When the loop changed the bucket it calls
    [_applyRendererPixelRatio()], which pushes the new ratio and calls
    [enforcePixelBudget()] again. *)
Fixpoint enforcePixelBudget (depth : nat) (env : Env) (s : State)
  : option State :=
  match depth with
  | O => None
  | S depth' =>
      match budgetLoop (length DPR_BUCKETS) env s false with
      | None => None
      | Some (s1, true) => enforcePixelBudget depth' env (pushPixelRatio env s1)
      | Some (s1, false) => Some s1
      end
  end.

Definition _applyRendererPixelRatio (env : Env) (s : State) : option State :=
  enforcePixelBudget callDepth env (pushPixelRatio env s).

(** [resizeRendererAndComposer(renderer, composer, w, h)] *)
Definition resizeRendererAndComposer (env : Env) (w h : Q) (s : State)
  : option State :=
  match _applyRendererPixelRatio env (with_lastCSSH h (with_lastCSSW w s)) with
  | Some s1 => enforcePixelBudget callDepth env s1
  | None => None
  end.

(** The body of [attemptDegrade] after its guards, the same text in both
    variants up to logging. *)
Definition degradeOneStep (env : Env) (now : Q) (s : State) : option State :=
  if (_effectQualityLevel s <? length EFFECT_QUALITY_LEVELS - 1)%nat then
    let s := with_effectQualityLevel (S (_effectQualityLevel s)) s in
    let s := applyEffectQuality env s in
    Some (with_lastPerfChangeTime now s)
  else if (_dprBucketIndex s <? length DPR_BUCKETS - 1)%nat then
    let s := with_dprBucketIndex (S (_dprBucketIndex s)) s in
    match _applyRendererPixelRatio env s with
    | Some s => Some (with_lastPerfChangeTime now s)
    | None => None
    end
  else Some s.

(** The body of [attemptUpgrade] after its guard. *)
Definition upgradeOneStep (env : Env) (now : Q) (s : State) : option State :=
  if (0 <? _dprBucketIndex s)%nat then
    let s := with_dprBucketIndex (pred (_dprBucketIndex s)) s in
    match _applyRendererPixelRatio env s with
    | Some s => Some (with_lastPerfChangeTime now s)
    | None => None
    end
  else if (0 <? _effectQualityLevel s)%nat then
    let s := with_effectQualityLevel (pred (_effectQualityLevel s)) s in
    let s := applyEffectQuality env s in
    Some (with_lastPerfChangeTime now s)
  else
    let p := __deviceProfile s in
    if Category_eqb (category p) desktop
       && Qlt_bool (baseCapCurrent p) (baseCapMax p) then
      let p := with_baseCapCurrent
                 (Qmin (baseCapMax p) (baseCapCurrent p + 0.1)) p in
      let s := with_deviceProfile p s in
      match _applyRendererPixelRatio env s with
      | Some s => Some (with_lastPerfChangeTime now s)
      | None => None
      end
    else Some s.

(** [window.__perfDebug.forceBucket(i)], [forceTier(i)] and [setBaseCap(v)]
    for an integer [i] and a finite number [v].  The overrides do not
    validate their argument; what their clamps make of other numbers is
    stated with [OverrideArguments.clampedIndexValue] and
    [OverrideArguments.clampedCapValue]. *)
Definition forceBucket (env : Env) (i : Z) (s : State) : option State :=
  _applyRendererPixelRatio env
    (with_dprBucketIndex (clampIndex i (length DPR_BUCKETS)) s).

Definition forceTier (env : Env) (i : Z) (s : State) : State :=
  applyEffectQuality env
    (with_effectQualityLevel (clampIndex i (length EFFECT_QUALITY_LEVELS)) s).

Definition setBaseCap (env : Env) (v : Q) (s : State) : option State :=
  let p := __deviceProfile s in
  _applyRendererPixelRatio env
    (with_deviceProfile
       (with_baseCapCurrent (Qmin (Qmax 0.5 v) (baseCapMax p)) p) s).

End Ladder.

End Controller.

(* ================================================================== *)
(** ** Entry variant part_001: controller with resume guard *)

Module Part001.

Import Controller.

Definition DPR_BUCKETS : list Q := [1.0; 0.9; 0.8].

Definition PERF_FPS_DROP_THRESHOLD : Q := 55.
Definition PERF_FPS_RAISE_THRESHOLD : Q := 65.
Definition PERF_DEGRADE_MIN_DURATION : Q := 4000.
Definition PERF_UPGRADE_MIN_DURATION : Q := 6000.

(** What [detectDeviceProfile] probes from the browser, already reduced to
    the booleans its classification branches on. *)
Record DeviceProbe : Type := mkDeviceProbe {
  isMobile : bool;
  isHighEndPhone : bool;
  isTablet : bool;
  isM1AirLike : bool;
  probeLargeDisplay : bool;
  probePixelRatio : Q           (* window.devicePixelRatio || 1 *)
}.

Definition detectDeviceProfile (d : DeviceProbe) : DeviceProfile :=
  let '(cat, capInitial, capMax) :=
    if isMobile d then
      if isHighEndPhone d then (phone, 1.6, 1.7) else (phone, 1.35, 1.5)
    else if isTablet d then (tablet, 1.25, 1.3)
    else if isM1AirLike d then (fanless, 1.25, 1.35)
    else if probeLargeDisplay d then (desktop, 1.18, 1.55)
    else (desktop, 1.55, 1.75) in
  let capInitial := Qmin capInitial (probePixelRatio d) in
  let capMax := Qmin capMax (probePixelRatio d) in
  {| category := cat;
     baseCapInitial := capInitial;
     baseCapMax := capMax;
     baseCapCurrent := capInitial;
     largeDisplay := probeLargeDisplay d |}.

(** The initial values of the module-level variables; [pr0] is the pixel
    ratio the renderer was created with. *)
Definition initialState (profile : DeviceProfile)
    (innerWidth innerHeight now pr0 : Q) : State :=
  {| __deviceProfile := profile;
     _dprBucketIndex := 0;
     _effectQualityLevel := 0;
     _emaFrameTime := 1 / 60;
     _lastPerfChangeTime := now;
     _lowPerfAccum := 0;
     _highPerfAccum := 0;
     _lastEmaFPS := Fin 60;
     _lastCSSW := innerWidth;
     _lastCSSH := innerHeight;
     _resumeGuardUntil := 0;
     _resumeIgnoreFrames := 0;
     _postResumeDebounceUntil := 0;
     rendererPixelRatio := pr0;
     reededResolution := None |}.

(** [_triggerResumeGuard()], run on [visibilitychange] to visible, [focus]
    and [pageshow]; [now] is [performance.now()]. *)
Definition _triggerResumeGuard (now : Q) (s : State) : State :=
  let s := with_resumeGuardUntil (now + 4500) s in
  let s := with_resumeIgnoreFrames 60 s in
  let s := with_postResumeDebounceUntil (now + 7000) s in
  let s := with_emaFrameTime (1 / 60) s in
  let s := with_lowPerfAccum 0 s in
  let s := with_highPerfAccum 0 s in
  with_lastPerfChangeTime now s.

Definition _effectiveDebounceMs (now : Q) (s : State) : Q :=
  PERF_CHANGE_DEBOUNCE
  + (if Qlt_bool now (_postResumeDebounceUntil s) then 700 else 0).

Definition attemptDegrade (env : Env) (now : Q) (s : State) : option State :=
  if Qlt_bool now (_resumeGuardUntil s) then Some s
  else if Qlt_bool (now - _lastPerfChangeTime s) (_effectiveDebounceMs now s)
  then Some s
  else degradeOneStep DPR_BUCKETS env now s.

Definition attemptUpgrade (env : Env) (now : Q) (s : State) : option State :=
  if Qlt_bool (now - _lastPerfChangeTime s) (_effectiveDebounceMs now s)
  then Some s
  else upgradeOneStep DPR_BUCKETS env now s.

Definition enforcePixelBudget (env : Env) (s : State) : option State :=
  Controller.enforcePixelBudget DPR_BUCKETS callDepth env s.

Section Frame.

(** [Math.exp], which the embedding takes as given. *)
Variable Math_exp : Q -> Q.

(** The smoothed frame time after a frame of [delta] seconds. *)
Definition nextEma (delta : Q) (s : State) : Q :=
  let alpha := 1 - Math_exp (- delta / EMA_WINDOW_SECONDS) in
  let frameTime := delta in
  _emaFrameTime s + alpha * (frameTime - _emaFrameTime s).

(** [perfAdaptiveUpdate(delta)]; [now] is [performance.now()].  The debug
    hook and the HUD only read the state. *)
Definition perfAdaptiveUpdate (env : Env) (now delta : Q) (s : State)
  : option State :=
  if (0 <? _resumeIgnoreFrames s)%nat then
    Some (with_resumeIgnoreFrames (pred (_resumeIgnoreFrames s)) s)
  else
    let s := with_emaFrameTime (nextEma delta s) s in
    let emaFPS := ndiv (Fin 1) (Fin (_emaFrameTime s)) in
    let s := with_lastEmaFPS emaFPS s in
    if nlt emaFPS (Fin PERF_FPS_DROP_THRESHOLD) then
      let s := with_lowPerfAccum (_lowPerfAccum s + delta * 1000) s in
      let s := with_highPerfAccum 0 s in
      if Qle_bool PERF_DEGRADE_MIN_DURATION (_lowPerfAccum s) then
        match attemptDegrade env now s with
        | Some s => Some (with_lowPerfAccum 0 s)
        | None => None
        end
      else Some s
    else if nge emaFPS (Fin PERF_FPS_RAISE_THRESHOLD) then
      let s := with_highPerfAccum (_highPerfAccum s + delta * 1000) s in
      let s := with_lowPerfAccum 0 s in
      if Qle_bool PERF_UPGRADE_MIN_DURATION (_highPerfAccum s) then
        match attemptUpgrade env now s with
        | Some s => Some (with_highPerfAccum 0 s)
        | None => None
        end
      else Some s
    else
      let s := with_lowPerfAccum (Qmax 0 (_lowPerfAccum s - delta * 400)) s in
      Some (with_highPerfAccum (Qmax 0 (_highPerfAccum s - delta * 400)) s).

(** The operations that act on the controller state during a session. *)
Inductive Operation : Type :=
| OpFrame (now delta : Q)        (* animate(): perfAdaptiveUpdate(delta) *)
| OpDegrade (now : Q)            (* attemptDegrade(now) *)
| OpUpgrade (now : Q)            (* attemptUpgrade(now) *)
| OpEnforceBudget                (* enforcePixelBudget() *)
| OpResume (now : Q)             (* _triggerResumeGuard() *)
| OpResize (w h : Q)             (* resizeRendererAndComposer(.., w, h) *)
| OpForceBucket (i : Z)          (* __perfDebug.forceBucket(i) *)
| OpForceTier (i : Z)            (* __perfDebug.forceTier(i) *)
| OpSetBaseCap (v : Q).          (* __perfDebug.setBaseCap(v) *)

Definition perform (env : Env) (op : Operation) (s : State) : option State :=
  match op with
  | OpFrame now delta => perfAdaptiveUpdate env now delta s
  | OpDegrade now => attemptDegrade env now s
  | OpUpgrade now => attemptUpgrade env now s
  | OpEnforceBudget => enforcePixelBudget env s
  | OpResume now => Some (_triggerResumeGuard now s)
  | OpResize w h => resizeRendererAndComposer DPR_BUCKETS env w h s
  | OpForceBucket i => forceBucket DPR_BUCKETS env i s
  | OpForceTier i => Some (forceTier env i s)
  | OpSetBaseCap v => setBaseCap DPR_BUCKETS env v s
  end.

(** A session: operations in order, each under the environment of its
    moment. *)
Fixpoint run (ops : list (Env * Operation)) (s : State) : option State :=
  match ops with
  | [] => Some s
  | (env, op) :: ops' =>
      match perform env op s with
      | Some s' => run ops' s'
      | None => None
      end
  end.

(** The frame falls in the degrading band: the smoothed rate is below
    [PERF_FPS_DROP_THRESHOLD]. *)
Definition inDegradingBand (delta : Q) (s : State) : bool :=
  nlt (ndiv (Fin 1) (Fin (nextEma delta s))) (Fin PERF_FPS_DROP_THRESHOLD).

(** The frame falls in the upgrading band: the smoothed rate is at or
    above [PERF_FPS_RAISE_THRESHOLD]. *)
Definition inUpgradingBand (delta : Q) (s : State) : bool :=
  nge (ndiv (Fin 1) (Fin (nextEma delta s))) (Fin PERF_FPS_RAISE_THRESHOLD).

(** At least one of the two duration accumulators is zero. *)
Definition accumulatorsExclusive (s : State) : Prop :=
  _lowPerfAccum s == 0 \/ _highPerfAccum s == 0.

(** Frame deltas are elapsed seconds of [THREE.Clock.getDelta()]. *)
Definition elapsedTimeOk (op : Operation) : Prop :=
  match op with
  | OpFrame _ delta => 0 <= delta
  | _ => True
  end.

End Frame.

(** A session used in the examples: a desktop with a large display at
    device pixel ratio 2 whose canvas covers 3840 x 2160 CSS pixels. *)
Definition exampleProfile : DeviceProfile :=
  detectDeviceProfile
    {| isMobile := false;
       isHighEndPhone := false;
       isTablet := false;
       isM1AirLike := false;
       probeLargeDisplay := true;
       probePixelRatio := 2 |}.

Definition exampleStart : State := initialState exampleProfile 3840 2160 0 1.

Definition exampleEnv : Env :=
  {| devicePixelRatio := 2; reedEffectPresent := true |}.

(** A rational stand-in for [Math.exp] on non-positive arguments, for the
    examples only. *)
Definition exampleExp (x : Q) : Q := 1 / (1 - x).

Definition exampleSession : list (Env * Operation) :=
  [ (exampleEnv, OpResize 3840 2160);
    (exampleEnv, OpFrame 16 (1 # 60));
    (exampleEnv, OpResume 20);
    (exampleEnv, OpFrame 40 (1 # 2)) ].

(** The same desktop on a 1920 x 1080 canvas, one bucket down. *)
Definition exampleSmall : State :=
  with_dprBucketIndex 1 (initialState exampleProfile 1920 1080 0 1).

(** The example state after three seconds of fast frames: the high
    accumulator stands at 3000 ms. *)
Definition exampleWarm : State := with_highPerfAccum 3000 exampleStart.

(** Two frames of half a second each. *)
Definition slowSession : list (Env * Operation) :=
  [ (exampleEnv, OpFrame 500 (1 # 2));
    (exampleEnv, OpFrame 1000 (1 # 2)) ].

End Part001.

(* ================================================================== *)
(** ** Entry variant part_000: controller without resume guard *)

Module Part000.

Import Controller.

Definition DPR_BUCKETS : list Q := [1.0; 0.9; 0.8; 0.7; 0.6].

Definition attemptDegrade (env : Env) (now : Q) (s : State) : option State :=
  if Qlt_bool (now - _lastPerfChangeTime s) PERF_CHANGE_DEBOUNCE then Some s
  else degradeOneStep DPR_BUCKETS env now s.

Definition attemptUpgrade (env : Env) (now : Q) (s : State) : option State :=
  if Qlt_bool (now - _lastPerfChangeTime s) PERF_CHANGE_DEBOUNCE then Some s
  else upgradeOneStep DPR_BUCKETS env now s.

Definition enforcePixelBudget (env : Env) (s : State) : option State :=
  Controller.enforcePixelBudget DPR_BUCKETS callDepth env s.

End Part000.

(* ================================================================== *)
(** ** Entry variant part_000: the per-frame update *)

Module Part000Frame.

Import Controller.

Definition PERF_FPS_DROP_THRESHOLD : Q := 58.
Definition PERF_FPS_RAISE_THRESHOLD : Q := 60.
Definition PERF_DEGRADE_MIN_DURATION : Q := 1000.
Definition PERF_UPGRADE_MIN_DURATION : Q := 5000.

Section Frame.

(** [Math.exp], which the embedding takes as given. *)
Variable Math_exp : Q -> Q.

(** [perfAdaptiveUpdate(delta)] of part_000.  [now] is [performance.now()];
    [inactive] is [(Date.now() - lastMouseMoveTime) > 2000], the
    low-interaction gate for upgrades. *)
Definition perfAdaptiveUpdate (env : Env) (now delta : Q) (inactive : bool)
    (s : State) : option State :=
  let alpha := 1 - Math_exp (- delta / EMA_WINDOW_SECONDS) in
  let frameTime := delta in
  let s :=
    with_emaFrameTime
      (_emaFrameTime s + alpha * (frameTime - _emaFrameTime s)) s in
  let emaFPS := ndiv (Fin 1) (Fin (_emaFrameTime s)) in
  if nlt emaFPS (Fin PERF_FPS_DROP_THRESHOLD) then
    let s := with_lowPerfAccum (_lowPerfAccum s + delta * 1000) s in
    let s := with_highPerfAccum 0 s in
    if Qle_bool PERF_DEGRADE_MIN_DURATION (_lowPerfAccum s) then
      match Part000.attemptDegrade env now s with
      | Some s => Some (with_lowPerfAccum 0 s)
      | None => None
      end
    else Some s
  else if nge emaFPS (Fin PERF_FPS_RAISE_THRESHOLD) then
    let s := with_highPerfAccum (_highPerfAccum s + delta * 1000) s in
    let s := with_lowPerfAccum 0 s in
    if Qle_bool PERF_UPGRADE_MIN_DURATION (_highPerfAccum s) && inactive then
      match Part000.attemptUpgrade env now s with
      | Some s => Some (with_highPerfAccum 0 s)
      | None => None
      end
    else Some s
  else
    let s := with_lowPerfAccum (Qmax 0 (_lowPerfAccum s - delta * 400)) s in
    Some (with_highPerfAccum (Qmax 0 (_highPerfAccum s - delta * 400)) s).

(** A run of frames, each with its environment, time, delta and
    interaction gate. *)
Fixpoint frames (fs : list (Env * (Q * Q * bool))) (s : State)
  : option State :=
  match fs with
  | [] => Some s
  | (env, (now, delta, inactive)) :: fs' =>
      match perfAdaptiveUpdate env now delta inactive s with
      | Some s' => frames fs' s'
      | None => None
      end
  end.

End Frame.

End Part000Frame.

(* ================================================================== *)
(** ** Well-formed controller states *)

Module SessionModel.

Import Controller.

(** The table bounds and the cap ceiling, as one invariant. *)
Definition wellFormed (B : list Q) (s : State) : Prop :=
  (_effectQualityLevel s <= length EFFECT_QUALITY_LEVELS - 1)%nat /\
  (_dprBucketIndex s <= length B - 1)%nat /\
  baseCapCurrent (__deviceProfile s) <= baseCapMax (__deviceProfile s).

(** What no step of the ladder changes in the profile. *)
Definition sameDevice (s s' : State) : Prop :=
  category (__deviceProfile s') = category (__deviceProfile s) /\
  baseCapInitial (__deviceProfile s') = baseCapInitial (__deviceProfile s) /\
  baseCapMax (__deviceProfile s') = baseCapMax (__deviceProfile s).

End SessionModel.

(* ================================================================== *)
(** ** The arguments of the debug overrides *)

Module OverrideArguments.

(** [Math.min(Math.max(0, i), length - 1)] of [forceTier(i)] and
    [forceBucket(i)] on whatever number is passed, NaN standing for a
    missing argument too: the value the override stores.  Nothing in it
    rounds; [Controller.clampIndex] is this clamp on the integers. *)
Definition clampedIndexValue (i : num) (len : nat) : num :=
  nmin (nmax (Fin 0) i) (Fin (inject_Z (Z.of_nat len) - 1)).

(** [Math.min(Math.max(0.5, v), baseCapMax)] of [setBaseCap(v)] on whatever
    number is passed. *)
Definition clampedCapValue (v : num) (capMax : Q) : num :=
  nmin (nmax (Fin 0.5) v) (Fin capMax).

End OverrideArguments.

(* ================================================================== *)
(** ** Head-look helpers (the same text in both entry variants) *)

Module HeadLook.

(** The head-look arithmetic multiplies and divides numbers that are not
    small integers, so its results are rounded.  Each arithmetic result
    passes through a rounding function [rnd]; what is assumed of it is what
    rounding to the nearest binary64 number has (overflow aside): it agrees
    on equal rationals, never reverses an order, leaves a rounded number as
    it is, commutes with negation, and is exact on the integers up to 100
    and on one half. *)
Definition rounding (rnd : Q -> Q) : Prop :=
  (forall x y, x == y -> rnd x == rnd y) /\
  (forall x y, x <= y -> rnd x <= rnd y) /\
  (forall x, rnd (rnd x) == rnd x) /\
  (forall x, rnd (- x) == - rnd x) /\
  (forall z : Z, (Z.abs z <= 100)%Z -> rnd (inject_Z z) == inject_Z z) /\
  rnd (1 # 2) == 1 # 2.

(** A coarse rounding of this kind, for the examples: truncation towards
    zero to a multiple of 1/1024. *)
Definition chop (x : Q) : Q :=
  if Qle_bool 0 x then inject_Z (Qfloor (x * 1024)) / 1024
  else - (inject_Z (Qfloor (- x * 1024)) / 1024).


Section Rounded.

Variable rnd : Q -> Q.

(** The rounded result of an operation; infinities and NaN are kept. *)
Definition fl (n : num) : num :=
  match n with
  | Fin q => Fin (rnd q)
  | _ => n
  end.

Definition fadd (a b : num) : num := fl (nadd a b).
Definition fsub (a b : num) : num := fl (nsub a b).
Definition fmul (a b : num) : num := fl (nmul a b).
Definition fdiv (a b : num) : num := fl (ndiv a b).

(** [_clamp01(v)]; [Math.max] and [Math.min] return one of their
    arguments, unrounded. *)
Definition _clamp01 (v : num) : num := nmax (Fin 0) (nmin (Fin 1) v).

(** [_easeInOutQuad(t)]; [Math.pow(x, 2)] is taken as the rounded square
    of [x]. *)
Definition _easeInOutQuad (t : num) : num :=
  let t := _clamp01 t in
  if nlt t (Fin 0.5) then fmul (fmul (Fin 2) t) t
  else
    let x := fadd (fmul (Fin (-2)) t) (Fin 2) in
    fsub (Fin 1) (fdiv (fmul x x) (Fin 2)).



End Rounded.

End HeadLook.

(* ================================================================== *)
(** ** Scroll input of the page (the same text in both entry variants) *)

Module ScrollInput.

(** [Math.round(x)]: the nearest integer, halves rounding up. *)
Definition Math_round (x : num) : num :=
  match x with
  | Fin q => Fin (inject_Z (Qfloor (q + (1 # 2))))
  | _ => x
  end.

(** The section [handleScroll] snaps to once scrolling stops:
    [Math.max(0, Math.min(2, Math.round(scrollY / sectionHeight)))]. *)
Definition targetSectionOf (scrollY sectionHeight : num) : num :=
  let newSection := Math_round (ndiv scrollY sectionHeight) in
  nmax (Fin 0) (nmin (Fin 2) newSection).

(** The progress [snapToSection(sectionIndex)] animates to:
    [sectionIndex / (totalSections - 1)] with [totalSections = 3]. *)
Definition snapTargetProgress (sectionIndex : num) : num :=
  ndiv sectionIndex (nsub (Fin 3) (Fin 1)).

(** The module-level variables the wheel handler works on. *)
Record WheelState : Type := mkWheelState {
  currentSection : Z;
  isScrolling : bool
}.

(** [handleWheel(e)] with [delta = e.deltaY]: the state after the call and
    the section handed to [snapToSection], if any. *)
Definition handleWheel (delta : Q) (w : WheelState)
  : WheelState * option Z :=
  if isScrolling w then (w, None)
  else
    let targetSection := currentSection w in
    let targetSection :=
      if Qlt_bool 0 delta && (currentSection w <? 2)%Z
      then (currentSection w + 1)%Z
      else if Qlt_bool delta 0 && (0 <? currentSection w)%Z
      then (currentSection w - 1)%Z
      else targetSection in
    if negb (targetSection =? currentSection w)%Z then
      ({| currentSection := targetSection; isScrolling := true |},
       Some targetSection)
    else (w, None).

(** The [setTimeout] callback that re-opens the wheel after 1000 ms. *)
Definition wheelUnlock (w : WheelState) : WheelState :=
  {| currentSection := currentSection w; isScrolling := false |}.

Inductive WheelEvent : Type :=
| Wheel (delta : Q)
| Unlock.

Definition wheelStep (e : WheelEvent) (w : WheelState) : WheelState :=
  match e with
  | Wheel delta => fst (handleWheel delta w)
  | Unlock => wheelUnlock w
  end.

Definition wheelRun (es : list WheelEvent) (w : WheelState) : WheelState :=
  fold_left (fun w e => wheelStep e w) es w.

End ScrollInput.

(* ================================================================== *)
(** ** More of [src/effects/OverlayEffects.js] *)

Module OverlayMore.

Import OverlayEffects.

(** The inputs the statements about the multiplier range over:
    [undefined], [null], a boolean or a number, NaN and the infinities
    included. *)
Definition plainValue (v : jsval) : Prop :=
  match v with
  | JUndefined => True
  | JNull => True
  | JBool _ => True
  | JNumber _ => True
  | JSymbol => False
  end.

(** [setReededScrollRefractionMultiplier(effect, multiplier)] *)
Definition setReededScrollRefractionMultiplier (effect : Handle)
    (multiplier : jsval) : Completion Handle :=
  match effect with
  | None => Normal None
  | Some e =>
      let U := uniforms e in
      if has U "scrollRefractionMultiplier" then
        v <- Math_max (JNumber (Fin 1))
                      (js_or multiplier (JNumber (Fin 3.0))) ;;
        Normal (Some {| uniforms :=
                          set_value U "scrollRefractionMultiplier" v |})
      else Normal (Some e)
  end.

(** What [handleScroll], [initializeScrollEffectsFromCurrentPosition] and
    the [onUpdate] of [snapToSection] do to the reeded-glass effect for a
    scroll progress: the glass configuration is computed and pushed through
    the three writers.  [_reedEffect] is the handle;
    [scrollRefractionMultiplier] the module-level tunable. *)
Definition pushGlassMode (_reedEffect : Handle)
    (scrollRefractionMultiplier scrollProgress : num) : Completion Handle :=
  let glassModeConfig := ScrollModel.getGlassModeForProgress scrollProgress in
  match _reedEffect with
  | None => Normal None
  | Some _ =>
      e1 <- setReededScrollProgress _reedEffect
              (JNumber (ScrollModel.effectProgress glassModeConfig)) ;;
      e2 <- setReededScrollRefractionMultiplier e1
              (JNumber scrollRefractionMultiplier) ;;
      setReededSplitScreenMode e2
        (JBool (ScrollModel.splitScreen glassModeConfig))
        (JNumber (ScrollModel.boundary glassModeConfig))
        (JNumber (ScrollModel.rightSideProgress glassModeConfig))
  end.

(** The flute-width fields of [reededParams]; [None] is a field that is
    [undefined] or [null]. *)
Record FluteParams : Type := mkFluteParams {
  fluteWidthUnit : option string;
  fluteWidthDesktop : option num;
  fluteWidthTablet : option num;
  fluteWidthMobile : option num
}.

(** [a ?? b] *)
Definition nullish {A : Type} (a b : option A) : option A :=
  match a with
  | Some _ => a
  | None => b
  end.

(** [n || d] for a number [n]: zero and NaN give way to [d]. *)
Definition falsyOr (n d : num) : num :=
  match n with
  | Fin q => if Qeq_bool q 0 then d else n
  | NaN => d
  | _ => n
  end.

(** [Number(v) || d] for a field value: [Number] of a missing field is NaN
    or 0, both of which give way to [d]. *)
Definition numberOr (v : option num) (d : num) : num :=
  match v with
  | Some n => falsyOr n d
  | None => d
  end.

Definition lower_ascii (c : Ascii.ascii) : Ascii.ascii :=
  let n := Ascii.nat_of_ascii c in
  if ((65 <=? n) && (n <=? 90))%nat then Ascii.ascii_of_nat (n + 32) else c.

(** [toLowerCase()] on the characters of ASCII. *)
Fixpoint toLowerCase (s : string) : string :=
  match s with
  | EmptyString => EmptyString
  | String c s' => String (lower_ascii c) (toLowerCase s')
  end.

(** [(params.fluteWidthUnit || 'vw').toLowerCase()] *)
Definition unitOf (params : FluteParams) : string :=
  toLowerCase
    match fluteWidthUnit params with
    | Some EmptyString => "vw"
    | Some u => u
    | None => "vw"
    end.

(** [computeFluteWidthPx(params, canvasWidthPx)] *)
Definition computeFluteWidthPx (params : FluteParams) (canvasWidthPx : num)
  : num :=
  let w := nmax (falsyOr canvasWidthPx (Fin 0)) (Fin 1) in
  let v :=
    if nle w (Fin 480) then
      nullish (fluteWidthMobile params)
              (nullish (fluteWidthTablet params) (fluteWidthDesktop params))
    else if nle w (Fin 900) then
      nullish (fluteWidthTablet params) (fluteWidthDesktop params)
    else fluteWidthDesktop params in
  let unit := unitOf params in
  if String.eqb unit "px" then nmax (Fin 1) (numberOr v (Fin 1))
  else
    let flutePx :=
      nmax (Fin 1) (ndiv (nmul w (numberOr v (Fin 0))) (Fin 100)) in
    let flutePx := nmax (Fin 10) (nmin (Fin 22) flutePx) in
    flutePx.

(** The flute-width fields of the exported [reededParams]. *)
Definition reededParams : FluteParams :=
  {| fluteWidthUnit := Some "vw"%string;
     fluteWidthDesktop := Some (Fin 0.7);
     fluteWidthTablet := Some (Fin 1.6);
     fluteWidthMobile := Some (Fin 3.2) |}.

End OverlayMore.

(* ================================================================== *)
(** ** The snap-scrolling system of part_002 *)

Module SnapScroll.

Definition mouseThreshold : Q := 120.
Definition trackpadThreshold : Q := 90.
Definition skipThreshold : Q := 600.

(** The fields of a [ScrollSystem] that its handlers read and write,
    followed by the running snap animation, [(startSection,
    targetSection)] of the tween started by [navigateToSection], and by what
    was last pushed outwards: the section handed to [updatePosition] (the
    container is translated by minus that many viewport heights) and the
    value handed to [onProgress]. *)
Record ScrollSystem : Type := mkScrollSystem {
  currentSection : Z;
  totalSections : Z;
  wheelAccumulator : Q;
  isAnimating : bool;
  inputLocked : bool;
  prefersReducedMotion : bool;
  tween : option (Z * Z);
  position : Q;
  glassProgress : option Q
}.

Definition with_wheelAccumulator (v : Q) (s : ScrollSystem) : ScrollSystem :=
  mkScrollSystem (currentSection s) (totalSections s) v (isAnimating s)
    (inputLocked s) (prefersReducedMotion s) (tween s) (position s)
    (glassProgress s).

Definition with_inputLocked (v : bool) (s : ScrollSystem) : ScrollSystem :=
  mkScrollSystem (currentSection s) (totalSections s) (wheelAccumulator s)
    (isAnimating s) v (prefersReducedMotion s) (tween s) (position s)
    (glassProgress s).

(** [updatePosition(section)] *)
Definition updatePosition (section : Q) (s : ScrollSystem) : ScrollSystem :=
  mkScrollSystem (currentSection s) (totalSections s) (wheelAccumulator s)
    (isAnimating s) (inputLocked s) (prefersReducedMotion s) (tween s)
    section (glassProgress s).

(** The state the constructor leaves: [init()] positions the container at
    the hero section unless reduced motion is preferred, in which case the
    container has no transform at all. *)
Definition construct (panels : nat) (reducedMotion : bool) : ScrollSystem :=
  mkScrollSystem 0 (Z.of_nat panels) 0 false false reducedMotion None 0 None.

(** [navigateToSection(targetSection)] up to the start of its tween. *)
Definition navigateToSection (targetSection : Z) (s : ScrollSystem)
  : ScrollSystem :=
  let targetSection :=
    Z.max 0 (Z.min targetSection (totalSections s - 1)) in
  if (targetSection =? currentSection s)%Z then s
  else
    let startSection := currentSection s in
    mkScrollSystem targetSection (totalSections s) (wheelAccumulator s)
      true (inputLocked s) (prefersReducedMotion s)
      (Some (startSection, targetSection)) (position s) (glassProgress s).

Definition blocked (s : ScrollSystem) : bool :=
  isAnimating s || inputLocked s || prefersReducedMotion s.

(** [goToSection(section)] of the public API: [navigateToSection] with no
    test of [isAnimating] or [inputLocked] before it. *)
Definition goToSection (section : Z) (s : ScrollSystem) : ScrollSystem :=
  navigateToSection section s.

(** [handleWheel(e)] with [deltaY = e.deltaY]. *)
Definition handleWheel (deltaY : Q) (s : ScrollSystem) : ScrollSystem :=
  if blocked s then s
  else
    let isDeltaLarge := Qlt_bool 40 (Qabs deltaY) in
    let threshold :=
      if isDeltaLarge then mouseThreshold else trackpadThreshold in
    let s := with_wheelAccumulator (wheelAccumulator s + deltaY) s in
    let absAccum := Qabs (wheelAccumulator s) in
    if Qle_bool threshold absAccum then
      let direction := if Qlt_bool 0 (wheelAccumulator s) then 1%Z else (-1)%Z in
      let sectionsToMove :=
        if Qle_bool skipThreshold absAccum then 2%Z else 1%Z in
      let s :=
        navigateToSection (currentSection s + direction * sectionsToMove) s in
      with_wheelAccumulator 0 s
    else s.

(** [handleKeyboard(e)] with [key = e.key]. *)
Definition handleKeyboard (key : string) (s : ScrollSystem) : ScrollSystem :=
  if blocked s then s
  else if (String.eqb key "PageDown" || String.eqb key "ArrowDown"
           || String.eqb key " ")%bool
  then navigateToSection (currentSection s + 1) s
  else if (String.eqb key "PageUp" || String.eqb key "ArrowUp")%bool
  then navigateToSection (currentSection s - 1) s
  else if String.eqb key "Home" then navigateToSection 0 s
  else if String.eqb key "End"
  then navigateToSection (totalSections s - 1) s
  else s.

(** The [touchend] listener; [deltaY = startY - endY] and
    [deltaTime = endTime - startTime]. *)
Definition handleTouchEnd (deltaY deltaTime : Q) (s : ScrollSystem)
  : ScrollSystem :=
  if blocked s then s
  else if Qlt_bool deltaTime 300 && Qlt_bool 50 (Qabs deltaY) then
    let direction := if Qlt_bool 0 deltaY then 1%Z else (-1)%Z in
    navigateToSection (currentSection s + direction) s
  else s.

(** The value [onUpdate] hands to [onProgress] when the tween from
    [startSection] to [targetSection] stands at [progress]. *)
Definition glassProgressAt (startSection targetSection : Z) (progress : Q)
  : Q :=
  let currentPos :=
    inject_Z startSection
    + (inject_Z targetSection - inject_Z startSection) * progress in
  let glassProgress := 0 in
  let glassProgress :=
    if (targetSection =? 1)%Z then Qmax 0 currentPos
    else if (startSection =? 1)%Z then Qmax 0 currentPos
    else glassProgress in
  Qmin 1 (Qmax 0 glassProgress).

(** [onUpdate] of the running tween at [progress]. *)
Definition animUpdate (progress : Q) (s : ScrollSystem) : ScrollSystem :=
  match tween s with
  | None => s
  | Some (startSection, targetSection) =>
      let currentPos :=
        inject_Z startSection
        + (inject_Z targetSection - inject_Z startSection) * progress in
      let s := updatePosition currentPos s in
      mkScrollSystem (currentSection s) (totalSections s)
        (wheelAccumulator s) (isAnimating s) (inputLocked s)
        (prefersReducedMotion s) (tween s) (position s)
        (Some (glassProgressAt startSection targetSection progress))
  end.

(** [onComplete] of the running tween. *)
Definition animComplete (s : ScrollSystem) : ScrollSystem :=
  match tween s with
  | None => s
  | Some (_, targetSection) =>
      mkScrollSystem (currentSection s) (totalSections s)
        (wheelAccumulator s) false true (prefersReducedMotion s) None
        (inject_Z targetSection) (glassProgress s)
  end.

(** What happens to a [ScrollSystem] by itself once it is constructed
    without reduced motion: the listeners of [setupEventListeners], the two
    timeouts and the callbacks of the tween.  A call of the public
    [goToSection] by the embedding page is not among them: it can start a
    second tween while one is running, and the record holds one. *)
Inductive Event : Type :=
| Wheel (deltaY : Q)
| WheelTimeout                     (* the accumulator timeout fires *)
| Key (key : string)
| TouchEnd (deltaY deltaTime : Q)
| AnimUpdate (progress : Q)
| AnimComplete
| LockTimeout                      (* the input lock timeout fires *)
| Resize.

Definition step (e : Event) (s : ScrollSystem) : ScrollSystem :=
  match e with
  | Wheel deltaY => handleWheel deltaY s
  | WheelTimeout => with_wheelAccumulator 0 s
  | Key key => handleKeyboard key s
  | TouchEnd deltaY deltaTime => handleTouchEnd deltaY deltaTime s
  | AnimUpdate progress => animUpdate progress s
  | AnimComplete => animComplete s
  | LockTimeout => with_inputLocked false s
  | Resize => updatePosition (inject_Z (currentSection s)) s
  end.

Definition run (es : list Event) (s : ScrollSystem) : ScrollSystem :=
  fold_left (fun s e => step e s) es s.

(** The events that come from the user. *)
Definition isInput (e : Event) : bool :=
  match e with
  | Wheel _ => true
  | Key _ => true
  | TouchEnd _ _ => true
  | _ => false
  end.

(** The state is consistent: the current section is a valid index, the
    tween that runs, if any, ends at the current section, the container
    rests on the current section when nothing runs, and what was handed to
    [onProgress] lies in [0, 1]. *)
Definition consistent (s : ScrollSystem) : Prop :=
  (0 <= currentSection s <= Z.max 0 (totalSections s - 1))%Z /\
  (if isAnimating s
   then exists startSection,
       tween s = Some (startSection, currentSection s)
   else tween s = None /\ position s == inject_Z (currentSection s)) /\
  match glassProgress s with
  | Some g => 0 <= g <= 1
  | None => True
  end.

End SnapScroll.

(* ================================================================== *)
(** * Properties *)

(** ** Rational comparisons *)

Lemma Qlt_bool_iff (x y : Q) : Qlt_bool x y = true <-> x < y.
Proof.
  unfold Qlt_bool. rewrite negb_true_iff. split; intros H.
  - apply Qnot_le_lt. intros Hle. apply Qle_bool_iff in Hle. congruence.
  - destruct (Qle_bool y x) eqn:E; [|reflexivity].
    apply Qle_bool_iff in E. lra.
Qed.

Lemma Qlt_bool_false_iff (x y : Q) : Qlt_bool x y = false <-> y <= x.
Proof.
  unfold Qlt_bool. rewrite negb_false_iff. apply Qle_bool_iff.
Qed.

Lemma Qle_bool_false_iff (x y : Q) : Qle_bool x y = false <-> y < x.
Proof.
  split; intros H.
  - apply Qnot_le_lt. intros Hle. apply Qle_bool_iff in Hle. congruence.
  - destruct (Qle_bool x y) eqn:E; [|reflexivity].
    apply Qle_bool_iff in E. lra.
Qed.

Lemma Qle_bool_true (x y : Q) : x <= y -> Qle_bool x y = true.
Proof. intros H. now apply Qle_bool_iff. Qed.

(* ------------------------------------------------------------------ *)
(** ** Scroll progress model *)

Module ScrollFacts.

Import ScrollModel.

Lemma glass_front_half (p : Q) :
  p <= 0.5 ->
  getGlassModeForProgress (Fin p)
  = mkGlassMode true (Fin 0.5) (Fin (p * 2.0)) (Fin 0.0).
Proof.
  intros H. unfold getGlassModeForProgress. cbn [nle nmul].
  now rewrite (Qle_bool_true _ _ H).
Qed.

Lemma glass_back_half (p : Q) :
  0.5 < p ->
  getGlassModeForProgress (Fin p)
  = mkGlassMode true (Fin 0.5) (Fin 1.0) (Fin ((p - 0.5) * 2.0)).
Proof.
  intros H. unfold getGlassModeForProgress. cbn [nle nmul nsub].
  apply Qle_bool_false_iff in H. now rewrite H.
Qed.

(** C3.  On the front half of the scroll range, [0, 0.5], the right side has
    coverage 0 and the left side coverage [2p]; on the back half, (0.5, 1],
    the left side is pinned at 1 and the right side has coverage
    [2 (p - 0.5)]. *)
Theorem glass_coverage_two_phase (p : Q) :
  (0 <= p <= 0.5 ->
     rightSideProgress (getGlassModeForProgress (Fin p)) =Q= 0 /\
     effectProgress (getGlassModeForProgress (Fin p)) =Q= 2 * p) /\
  (0.5 < p <= 1 ->
     effectProgress (getGlassModeForProgress (Fin p)) =Q= 1 /\
     rightSideProgress (getGlassModeForProgress (Fin p)) =Q= 2 * (p - 0.5)).
Proof.
  split; intros [Hlo Hhi].
  - rewrite glass_front_half by exact Hhi. cbn. split; [reflexivity | ring].
  - rewrite glass_back_half by exact Hlo. cbn. split; [reflexivity | ring].
Qed.

Lemma glass_coverage_two_phase_witness :
  (rightSideProgress (getGlassModeForProgress (Fin 0.25)) =Q= 0 /\
   effectProgress (getGlassModeForProgress (Fin 0.25)) =Q= 2 * 0.25) /\
  (effectProgress (getGlassModeForProgress (Fin 0.75)) =Q= 1 /\
   rightSideProgress (getGlassModeForProgress (Fin 0.75)) =Q= 2 * (0.75 - 0.5)).
Proof.
  split.
  - apply (proj1 (glass_coverage_two_phase 0.25)). split; discriminate.
  - apply (proj2 (glass_coverage_two_phase 0.75)). split; [reflexivity | discriminate].
Defined.

(** The scenario of a scroll offset of one and a half section heights:
    progress 0.75, left side fully covered, right side half covered. *)
Example glass_at_one_and_a_half_sections :
  scrollProgressOf (Fin 1200) (Fin 800) =Q= 0.75 /\
  effectProgress
    (getGlassModeForProgress (scrollProgressOf (Fin 1200) (Fin 800))) =Q= 1 /\
  rightSideProgress
    (getGlassModeForProgress (scrollProgressOf (Fin 1200) (Fin 800)))
  =Q= 0.5.
Proof. repeat split. Qed.

(** C10.  Whatever the scroll progress, a number inside or outside [0, 1],
    an infinity or NaN, the glass configuration has split-screen mode on and
    its boundary at 0.5. *)
Theorem glass_split_screen_always_on (scrollProgress : num) :
  splitScreen (getGlassModeForProgress scrollProgress) = true /\
  boundary (getGlassModeForProgress scrollProgress) = Fin 0.5.
Proof.
  unfold getGlassModeForProgress.
  destruct (nle scrollProgress (Fin 0.5)); split; reflexivity.
Qed.

Lemma exposure_value (p : Q) :
  computeExposureForScroll (Fin p)
  = Fin (baseExposure
         * (1 - exposureT p * exposureT p * (3 - 2 * exposureT p) * (1 - 0.7))).
Proof. reflexivity. Qed.

Lemma exposureT_front (p : Q) : p <= 0.5 -> exposureT p == 0.
Proof.
  intros H. unfold exposureT.
  assert (Hx : (p - 0.5) / (1.0 - 0.5) <= 0).
  { setoid_replace ((p - 0.5) / (1.0 - 0.5)) with (2 * (p - 0.5)) by field.
    lra. }
  rewrite Q.max_l; [reflexivity|].
  apply Q.min_le_iff. now right.
Qed.

Lemma exposureT_back (p : Q) :
  0.5 < p <= 1 -> exposureT p == (p - 0.5) / 0.5.
Proof.
  intros H. unfold exposureT.
  setoid_replace ((p - 0.5) / (1.0 - 0.5)) with (2 * (p - 0.5)) by field.
  setoid_replace ((p - 0.5) / 0.5) with (2 * (p - 0.5)) by field.
  rewrite Q.min_r by lra. rewrite Q.max_r by lra. reflexivity.
Qed.

Lemma exposure_front (p : Q) :
  p <= 0.5 -> computeExposureForScroll (Fin p) =Q= baseExposure.
Proof.
  intros H. rewrite exposure_value. cbn [num_is].
  rewrite (exposureT_front p H). ring.
Qed.

Lemma exposure_back (p : Q) :
  0.5 < p <= 1 ->
  computeExposureForScroll (Fin p)
  =Q= backHalfEase baseExposure (0.7 * baseExposure) p.
Proof.
  intros [H1 H2]. rewrite exposure_value. cbn [num_is].
  unfold backHalfEase.
  rewrite (proj2 (Qle_bool_false_iff p 0.5) H1).
  rewrite (exposureT_back p (conj H1 H2)). unfold smoothstep. ring.
Qed.

Lemma legacy_exposure_front (p : Q) :
  p <= 0.5 -> legacyTargetExposure (Fin p) =Q= baseExposure.
Proof.
  intros H. unfold legacyTargetExposure. cbn [ngt nlt].
  rewrite (proj2 (Qlt_bool_false_iff 0.5 p) H). cbn. reflexivity.
Qed.

Lemma legacy_exposure_back (p : Q) :
  0.5 < p -> legacyTargetExposure (Fin p) =Q= 0.7 * baseExposure.
Proof.
  intros H. unfold legacyTargetExposure. cbn [ngt nlt].
  rewrite (proj2 (Qlt_bool_iff 0.5 p) H). cbn [nmul num_is]. ring.
Qed.

(** The saturation the code writes is the base value at every progress:
    the factor on the line is 0.0, where its comment speaks of a reduction
    by 0.30 at full scroll. *)
Lemma saturation_value (p : Q) :
  updateSaturationForScroll (Fin p) =Q= baseSaturation.
Proof. cbn. ring. Qed.

(** C7, as the code has it.  Exposure keeps its base value on the front half
    [0, 0.5] in both entry variants; on the back half (0.5, 1] part_001
    eases it by smoothstep from the base value to 0.7 times the base value,
    while part_000 aims its tween at the constant 0.7 times the base
    value. *)
Theorem exposure_eased_over_back_half (p : Q) :
  (0 <= p <= 0.5 ->
     computeExposureForScroll (Fin p) =Q= baseExposure /\
     legacyTargetExposure (Fin p) =Q= baseExposure) /\
  (0.5 < p <= 1 ->
     computeExposureForScroll (Fin p)
     =Q= backHalfEase baseExposure (0.7 * baseExposure) p /\
     legacyTargetExposure (Fin p) =Q= 0.7 * baseExposure).
Proof.
  split; intros [Hlo Hhi].
  - split.
    + now apply exposure_front.
    + now apply legacy_exposure_front.
  - split.
    + now apply exposure_back.
    + now apply legacy_exposure_back.
Qed.

Lemma exposure_eased_over_back_half_witness :
  (computeExposureForScroll (Fin 0.25) =Q= baseExposure /\
   legacyTargetExposure (Fin 0.25) =Q= baseExposure) /\
  (computeExposureForScroll (Fin 0.75)
   =Q= backHalfEase baseExposure (0.7 * baseExposure) 0.75 /\
   legacyTargetExposure (Fin 0.75) =Q= 0.7 * baseExposure).
Proof.
  split.
  - apply (proj1 (exposure_eased_over_back_half 0.25)). split; discriminate.
  - apply (proj2 (exposure_eased_over_back_half 0.75)).
    split; [reflexivity | discriminate].
Defined.

(** C7 as stated fails for the exposure of part_000, whose [handleScroll]
    steps the exposure target instead of easing it.  Three quarters of the
    way down the target is already 0.7 times the base value, the value it
    has at full scroll, while a smoothstep from the base value is only half
    way there (0.85 for the end value 0.7): no end value makes the targets
    at [p = 0.75] and at [p = 1] two points of one back-half smoothstep. *)
Lemma legacy_exposure_steps_counterexample :
  legacyTargetExposure (Fin 0.75) =Q= 0.7 * baseExposure /\
  legacyTargetExposure (Fin 1) =Q= 0.7 * baseExposure /\
  backHalfEase baseExposure (0.7 * baseExposure) 0.75 == 0.85 /\
  ~ (exists target : Q,
       legacyTargetExposure (Fin 0.75)
       =Q= backHalfEase baseExposure target 0.75 /\
       legacyTargetExposure (Fin 1)
       =Q= backHalfEase baseExposure target 1).
Proof.
  split; [reflexivity|]. split; [reflexivity|]. split; [reflexivity|].
  intros [target [H1 H2]].
  unfold legacyTargetExposure in H1, H2. cbn [ngt nlt] in H1, H2.
  replace (Qlt_bool 0.5 0.75) with true in H1 by reflexivity.
  replace (Qlt_bool 0.5 1) with true in H2 by reflexivity.
  cbn [nmul num_is] in H1, H2.
  unfold backHalfEase in H1, H2.
  replace (Qle_bool 0.75 0.5) with false in H1 by reflexivity.
  replace (Qle_bool 1 0.5) with false in H2 by reflexivity.
  unfold smoothstep, baseExposure in H1, H2.
  setoid_replace ((0.75 - 0.5) / 0.5) with (1 # 2) in H1 by reflexivity.
  setoid_replace ((1 - 0.5) / 0.5) with 1 in H2 by reflexivity.
  lra.
Qed.

End ScrollFacts.

(* ------------------------------------------------------------------ *)
(** ** Uniform writers *)

Module OverlayFacts.

Import OverlayEffects.

Lemma get_set_value_same (U : Uniforms) (k : string) (v : num) :
  has U k = true -> get (set_value U k v) k = Some v.
Proof.
  induction U as [|[k' v'] U IH]; cbn; [discriminate|].
  destruct (String.eqb k' k) eqn:E; cbn; rewrite E; auto.
Qed.

Lemma get_set_value_other (U : Uniforms) (k k' : string) (v : num) :
  k' <> k -> get (set_value U k v) k' = get U k'.
Proof.
  intros Hne. induction U as [|[k0 v0] U IH]; cbn; [reflexivity|].
  destruct (String.eqb k0 k) eqn:E; cbn.
  - apply String.eqb_eq in E. subst k0.
    destruct (String.eqb k k') eqn:E'; [|reflexivity].
    apply String.eqb_eq in E'. congruence.
  - now rewrite IH.
Qed.

(** The value [Math.max(0, Math.min(1, scrollProgress || 0))] for an input
    that is a number or missing. *)
Lemma written_progress (v : jsval) :
  numericOrMissing v ->
  exists m w,
    Math_min (JNumber (Fin 1)) (js_or v (JNumber (Fin 0))) = Normal m /\
    Math_max (JNumber (Fin 0)) (JNumber m) = Normal w /\
    w =Q= clampedProgress v.
Proof.
  intros Hv. destruct v as [| | b | n |]; try contradiction.
  - eexists _, _. repeat split.
  - eexists _, _. repeat split.
  - destruct n as [| | | q].
    + eexists _, _. repeat split.
    + eexists _, _. repeat split.
    + eexists _, _. repeat split.
    + unfold js_or. cbn [ToBoolean].
      destruct (Qeq_bool q 0) eqn:E; cbn [negb].
      * eexists _, _. split; [reflexivity|]. split; [reflexivity|].
        apply Qeq_bool_eq in E.
        cbn [num_is clampedProgress nmax nmin].
        rewrite Q.max_l by discriminate.
        rewrite Q.max_l; [reflexivity|].
        apply Q.min_le_iff. right. lra.
      * eexists _, _. split; [reflexivity|]. split; [reflexivity|].
        cbn [num_is clampedProgress nmax nmin]. reflexivity.
Qed.

Lemma ToNumber_numericOrMissing (v : jsval) :
  numericOrMissing v -> exists n, ToNumber v = Normal n.
Proof.
  destruct v as [| | b | n |]; cbn; try contradiction; eauto.
Qed.

Lemma numericOrMissing_defaultTo (d v : jsval) :
  numericOrMissing d -> numericOrMissing v -> numericOrMissing (defaultTo d v).
Proof. destruct v; cbn; auto. Qed.

Lemma clamp_write_total (U : Uniforms) (k : string) (v : jsval) :
  numericOrMissing v ->
  exists U',
    (m <- Math_min (JNumber (Fin 1)) v ;;
     w <- Math_max (JNumber (Fin 0)) (JNumber m) ;;
     Normal (set_value U k w)) = Normal U'.
Proof.
  intros Hv. destruct (ToNumber_numericOrMissing v Hv) as [n Hn].
  unfold Math_min, Math_max. cbn [ToNumber bindC]. rewrite Hn. cbn [bindC].
  eauto.
Qed.

(** C8, as the code has it.  For an input that is a number (NaN and the
    infinities included), [undefined] or [null], writing the scroll progress
    never throws.  With an absent handle the call does nothing.  Otherwise,
    when the effect has a [scrollProgress] uniform, the value written is the
    input clamped to [0, 1], NaN and missing inputs counting as 0, and no
    other uniform changes; an effect without that uniform is left as it is.
    [setReededSplitScreenMode] does not throw on such inputs either and does
    nothing on an absent handle. *)
Theorem setReededScrollProgress_clamps (effect : Handle) (v : jsval) :
  numericOrMissing v ->
  (exists effect',
     setReededScrollProgress effect v = Normal effect' /\
     match effect with
     | None => effect' = None
     | Some e =>
         exists e', effect' = Some e' /\
           if has (uniforms e) "scrollProgress" then
             (exists w, get (uniforms e') "scrollProgress" = Some w /\
                        w =Q= clampedProgress v) /\
             (forall k, k <> "scrollProgress"%string ->
                        get (uniforms e') k = get (uniforms e) k)
           else e' = e
     end) /\
  (forall enabled boundary rightSide,
     numericOrMissing boundary -> numericOrMissing rightSide ->
     exists effect',
       setReededSplitScreenMode effect enabled boundary rightSide
       = Normal effect' /\
       (effect = None -> effect' = None)).
Proof.
  intros Hv. split.
  - destruct effect as [e|]; cbn [setReededScrollProgress].
    + destruct (has (uniforms e) "scrollProgress") eqn:Hhas.
      * destruct (written_progress v Hv) as (m & w & Hm & Hw & Hcl).
        rewrite Hm. cbn [bindC]. rewrite Hw. cbn [bindC].
        eexists. split; [reflexivity|].
        eexists. split; [reflexivity|]. cbn [uniforms]. split.
        -- exists w. split; [|exact Hcl].
           now apply get_set_value_same.
        -- intros k Hk. now apply get_set_value_other.
      * eexists. split; [reflexivity|]. eexists. split; reflexivity.
    + eexists. split; reflexivity.
  - intros enabled boundary rightSide Hb Hr.
    destruct effect as [e|]; cbn [setReededSplitScreenMode].
    + set (U1 := if has (uniforms e) "splitScreenMode" then _ else _).
      assert (Hb' : numericOrMissing (defaultTo (JNumber (Fin 0.5)) boundary))
        by (apply numericOrMissing_defaultTo; [exact I | exact Hb]).
      assert (Hr' : numericOrMissing (defaultTo (JNumber (Fin 0.0)) rightSide))
        by (apply numericOrMissing_defaultTo; [exact I | exact Hr]).
      assert (H2 : exists U2,
                 (if has U1 "splitScreenBoundary" then
                    m <- Math_min (JNumber (Fin 1))
                                  (defaultTo (JNumber (Fin 0.5)) boundary) ;;
                    w <- Math_max (JNumber (Fin 0)) (JNumber m) ;;
                    Normal (set_value U1 "splitScreenBoundary" w)
                  else Normal U1) = Normal U2).
      { destruct (has U1 "splitScreenBoundary");
          [now apply clamp_write_total | eauto]. }
      destruct H2 as [U2 H2]. rewrite H2. cbn [bindC].
      assert (H3 : exists U3,
                 (if has U2 "rightSideProgress" then
                    m <- Math_min (JNumber (Fin 1))
                                  (defaultTo (JNumber (Fin 0.0)) rightSide) ;;
                    w <- Math_max (JNumber (Fin 0)) (JNumber m) ;;
                    Normal (set_value U2 "rightSideProgress" w)
                  else Normal U2) = Normal U3).
      { destruct (has U2 "rightSideProgress");
          [now apply clamp_write_total | eauto]. }
      destruct H3 as [U3 H3]. rewrite H3. cbn [bindC].
      eexists. split; [reflexivity | discriminate].
    + eexists. split; reflexivity.
Qed.

Lemma setReededScrollProgress_clamps_witness :
  numericOrMissing (JNumber (Fin 1.5)) /\
  exists e',
    setReededScrollProgress (Some (mkEffect reededScrollUniforms))
                            (JNumber (Fin 1.5)) = Normal (Some e') /\
    exists w, get (uniforms e') "scrollProgress" = Some w /\ w =Q= 1.
Proof.
  split; [exact I|].
  destruct (proj1 (setReededScrollProgress_clamps
                     (Some (mkEffect reededScrollUniforms))
                     (JNumber (Fin 1.5)) I))
    as (effect' & Hrun & e' & He' & Hw & _).
  exists e'. split.
  - rewrite Hrun, He'. reflexivity.
  - destruct Hw as (w & Hget & Hcl). exists w. split; [exact Hget|].
    destruct w; try contradiction. cbn in *. rewrite Hcl. reflexivity.
Defined.

(** C8 as stated fails outside the numbers.  A Symbol makes the call throw a
    TypeError, and the non-numeric input [true] is written as 1, not as
    0. *)
Lemma setReededScrollProgress_counterexample :
  setReededScrollProgress (Some (mkEffect reededScrollUniforms)) JSymbol
  = ThrowTypeError /\
  (exists e',
     setReededScrollProgress (Some (mkEffect reededScrollUniforms))
                             (JBool true) = Normal (Some e') /\
     get (uniforms e') "scrollProgress" = Some (Fin 1)) /\
  clampedProgress (JBool true) == 0 /\
  ~ 1 == 0.
Proof.
  split; [reflexivity|]. split.
  - eexists. split; reflexivity.
  - split; [reflexivity | discriminate].
Qed.

End OverlayFacts.

(* ------------------------------------------------------------------ *)
(** ** The quality ladder *)

Module LadderFacts.

Import Controller.

Lemma sameAmbient_refl (s : State) : sameAmbient s s.
Proof. unfold sameAmbient. repeat split. Qed.

Lemma sameAmbient_trans (s1 s2 s3 : State) :
  sameAmbient s1 s2 -> sameAmbient s2 s3 -> sameAmbient s1 s3.
Proof. unfold sameAmbient. intuition congruence. Qed.

Lemma sameControl_refl (s : State) : sameControl s s.
Proof. unfold sameControl, sameAmbient. repeat split. Qed.

Lemma sameControl_trans (s1 s2 s3 : State) :
  sameControl s1 s2 -> sameControl s2 s3 -> sameControl s1 s3.
Proof. unfold sameControl, sameAmbient. intuition congruence. Qed.

Lemma with_dprBucketIndex_same (s : State) :
  with_dprBucketIndex (_dprBucketIndex s) s = s.
Proof. destruct s; reflexivity. Qed.

Lemma with_dprBucketIndex_frame (b : nat) (s : State) :
  sameControl s (with_dprBucketIndex b s).
Proof. unfold sameControl, sameAmbient. repeat split. Qed.

Lemma applyEffectQuality_frame (env : Env) (s : State) :
  sameControl s (applyEffectQuality env s) /\
  _dprBucketIndex (applyEffectQuality env s) = _dprBucketIndex s.
Proof.
  unfold applyEffectQuality.
  destruct (nth_error _ _); [destruct (reedEffectPresent env)|];
    (split; [unfold sameControl, sameAmbient; repeat split | reflexivity]).
Qed.

Section Table.

Variable B : list Q.

Lemma pushPixelRatio_frame (env : Env) (s : State) :
  sameControl s (pushPixelRatio B env s) /\
  _dprBucketIndex (pushPixelRatio B env s) = _dprBucketIndex s.
Proof.
  unfold pushPixelRatio.
  destruct (applyEffectQuality_frame env
              (with_rendererPixelRatio (currentTargetPixelRatio B env s) s))
    as (Hc & Hb).
  split.
  - eapply sameControl_trans; [|exact Hc].
    unfold sameControl, sameAmbient. repeat split.
  - rewrite Hb. reflexivity.
Qed.

(** The loop condition reads the profile, the CSS size and the bucket. *)
Lemma overBudget_ext (env : Env) (s s' : State) :
  sameAmbient s s' -> _dprBucketIndex s' = _dprBucketIndex s ->
  overBudget B env s' = overBudget B env s.
Proof.
  intros (Hp & _ & _ & _ & _ & Hw & Hh & _) Hb.
  unfold overBudget, internalPixels, currentTargetPixelRatio.
  now rewrite Hp, Hw, Hh, Hb.
Qed.

Lemma overBudget_push (env : Env) (s : State) :
  overBudget B env (pushPixelRatio B env s) = overBudget B env s.
Proof.
  destruct (pushPixelRatio_frame env s) as [[Hc _] Hb].
  now apply overBudget_ext.
Qed.

Lemma overBudget_bucket (env : Env) (s : State) :
  overBudget B env s = true -> (_dprBucketIndex s < length B - 1)%nat.
Proof.
  unfold overBudget. intros E. apply andb_prop in E.
  destruct E as [_ E]. now apply Nat.ltb_lt in E.
Qed.

Lemma budgetLoop_done (fuel : nat) (env : Env) (s : State) (ch : bool) :
  overBudget B env s = false -> budgetLoop B fuel env s ch = Some (s, ch).
Proof. intros H. destruct fuel; cbn; now rewrite H. Qed.

(** With fuel for the buckets that remain, the loop leaves by its
    condition. *)
Lemma budgetLoop_spec (fuel : nat) : forall env s ch,
  (length B - 1 - _dprBucketIndex s <= fuel)%nat ->
  exists b' ch',
    budgetLoop B fuel env s ch = Some (with_dprBucketIndex b' s, ch') /\
    (_dprBucketIndex s <= b')%nat /\
    (b' <= Nat.max (_dprBucketIndex s) (length B - 1))%nat /\
    overBudget B env (with_dprBucketIndex b' s) = false.
Proof.
  induction fuel as [|fuel IH]; intros env s ch Hfuel.
  - destruct (overBudget B env s) eqn:E.
    + apply overBudget_bucket in E. lia.
    + exists (_dprBucketIndex s), ch. rewrite with_dprBucketIndex_same.
      repeat split; [now apply budgetLoop_done | lia | lia | exact E].
  - destruct (overBudget B env s) eqn:E.
    + cbn [budgetLoop]. rewrite E. apply overBudget_bucket in E.
      destruct (IH env (with_dprBucketIndex (S (_dprBucketIndex s)) s) true)
        as (b' & ch' & Hrun & Hle & Hub & Hob).
      { cbn [_dprBucketIndex with_dprBucketIndex]. lia. }
      exists b', ch'. cbn [_dprBucketIndex with_dprBucketIndex] in Hle, Hub.
      repeat split; [exact Hrun | lia | lia | exact Hob].
    + exists (_dprBucketIndex s), ch. rewrite with_dprBucketIndex_same.
      repeat split; [now apply budgetLoop_done | lia | lia | exact E].
Qed.

Lemma enforcePixelBudget_noop (depth : nat) (env : Env) (s : State) :
  overBudget B env s = false ->
  enforcePixelBudget B (S depth) env s = Some s.
Proof.
  intros H. cbn [enforcePixelBudget]. now rewrite budgetLoop_done.
Qed.

(** Two levels of calls are enough: [enforcePixelBudget] returns, within
    budget or at the worst bucket, having moved the bucket only
    downwards in quality. *)
Lemma enforcePixelBudget_total (depth : nat) (env : Env) (s : State) :
  exists s',
    enforcePixelBudget B (S (S depth)) env s = Some s' /\
    overBudget B env s' = false /\
    (_dprBucketIndex s <= _dprBucketIndex s')%nat /\
    (_dprBucketIndex s' <= Nat.max (_dprBucketIndex s) (length B - 1))%nat /\
    sameControl s s'.
Proof.
  destruct (budgetLoop_spec (length B) env s false)
    as (b' & ch' & Hrun & Hle & Hub & Hob); [lia|].
  cbn [enforcePixelBudget]. rewrite Hrun. destruct ch'.
  - rewrite budgetLoop_done by (now rewrite overBudget_push).
    eexists. split; [reflexivity|].
    destruct (pushPixelRatio_frame env (with_dprBucketIndex b' s)) as [Hc Hb].
    split; [now rewrite overBudget_push|]. rewrite Hb.
    split; [exact Hle|]. split; [exact Hub|].
    eapply sameControl_trans; [apply with_dprBucketIndex_frame | exact Hc].
  - eexists. split; [reflexivity|]. split; [exact Hob|].
    split; [exact Hle|]. split; [exact Hub|].
    apply with_dprBucketIndex_frame.
Qed.

Lemma applyRendererPixelRatio_total (env : Env) (s : State) :
  exists s',
    _applyRendererPixelRatio B env s = Some s' /\
    overBudget B env s' = false /\
    (_dprBucketIndex s <= _dprBucketIndex s')%nat /\
    (_dprBucketIndex s' <= Nat.max (_dprBucketIndex s) (length B - 1))%nat /\
    sameControl s s' /\
    (overBudget B env s = false -> s' = pushPixelRatio B env s).
Proof.
  unfold _applyRendererPixelRatio, callDepth.
  destruct (enforcePixelBudget_total 0 env (pushPixelRatio B env s))
    as (s' & Hrun & Hob & Hle & Hub & Hc).
  destruct (pushPixelRatio_frame env s) as [Hc0 Hb0].
  exists s'. split; [exact Hrun|]. split; [exact Hob|].
  rewrite Hb0 in Hle, Hub.
  split; [exact Hle|]. split; [exact Hub|]. split.
  - eapply sameControl_trans; eassumption.
  - intros H.
    rewrite enforcePixelBudget_noop in Hrun by (now rewrite overBudget_push).
    congruence.
Qed.

(** Idempotence of the budget clamp. *)
Lemma enforcePixelBudget_idempotent (env : Env) (s : State) :
  exists s1,
    enforcePixelBudget B callDepth env s = Some s1 /\
    enforcePixelBudget B callDepth env s1 = Some s1.
Proof.
  unfold callDepth.
  destruct (enforcePixelBudget_total 0 env s) as (s1 & Hrun & Hob & _).
  exists s1. split; [exact Hrun | now apply enforcePixelBudget_noop].
Qed.

Lemma resize_total (env : Env) (w h : Q) (s : State) :
  exists s',
    resizeRendererAndComposer B env w h s = Some s' /\
    sameControl (with_lastCSSH h (with_lastCSSW w s)) s'.
Proof.
  unfold resizeRendererAndComposer.
  destruct (applyRendererPixelRatio_total env
              (with_lastCSSH h (with_lastCSSW w s)))
    as (s1 & Hrun & Hob & _ & _ & Hc & _).
  rewrite Hrun. unfold callDepth.
  rewrite enforcePixelBudget_noop by exact Hob.
  exists s1. split; [reflexivity | exact Hc].
Qed.

Lemma nativePixelRatio_nonneg (env : Env) :
  0 <= devicePixelRatio env -> 0 <= nativePixelRatio env.
Proof.
  intros H. unfold nativePixelRatio.
  destruct (Qeq_bool (devicePixelRatio env) 0); [discriminate | exact H].
Qed.

(** Advancing to a bucket with a smaller multiplier cannot raise the pixel
    count: a state within budget stays within budget. *)
Lemma overBudget_advance (env : Env) (s : State) :
  bucketMultiplier B (S (_dprBucketIndex s))
  <= bucketMultiplier B (_dprBucketIndex s) ->
  0 <= bucketMultiplier B (S (_dprBucketIndex s)) ->
  0 <= baseCapCurrent (__deviceProfile s) ->
  0 <= devicePixelRatio env ->
  0 <= _lastCSSW s * _lastCSSH s ->
  overBudget B env s = false ->
  overBudget B env (with_dprBucketIndex (S (_dprBucketIndex s)) s) = false.
Proof.
  intros Hmul Hm0 Hbase Hdpr Hcss Hob.
  unfold overBudget in *.
  apply andb_false_iff in Hob. destruct Hob as [Hob | Hob].
  - apply andb_false_iff. left.
    apply Qlt_bool_false_iff in Hob. apply Qlt_bool_false_iff.
    eapply Qle_trans; [|exact Hob].
    unfold internalPixels, currentTargetPixelRatio.
    cbn [__deviceProfile _dprBucketIndex _lastCSSW _lastCSSH
         with_dprBucketIndex].
    pose proof (nativePixelRatio_nonneg env Hdpr) as Hn.
    set (n := nativePixelRatio env) in *.
    set (base := baseCapCurrent (__deviceProfile s)) in *.
    set (m1 := bucketMultiplier B (S (_dprBucketIndex s))) in *.
    set (m0 := bucketMultiplier B (_dprBucketIndex s)) in *.
    set (a := _lastCSSW s * _lastCSSH s) in *.
    assert (H1 : base * m1 <= base * m0) by nra.
    assert (H0 : 0 <= base * m1) by nra.
    set (x1 := base * m1) in *. set (x0 := base * m0) in *.
    assert (Hp1 : 0 <= Qmin (Qmin x1 MAX_EFFECTIVE_DPR) n).
    { apply Q.min_glb; [apply Q.min_glb; [exact H0 | discriminate] | exact Hn]. }
    assert (Hle : Qmin (Qmin x1 MAX_EFFECTIVE_DPR) n
                  <= Qmin (Qmin x0 MAX_EFFECTIVE_DPR) n).
    { apply Q.min_le_compat_r. apply Q.min_le_compat_r. exact H1. }
    set (p1 := Qmin (Qmin x1 MAX_EFFECTIVE_DPR) n) in *.
    set (p0 := Qmin (Qmin x0 MAX_EFFECTIVE_DPR) n) in *.
    assert (Hsq : p1 * p1 <= p0 * p0) by nra.
    setoid_replace (a * p1 * p1) with (a * (p1 * p1)) by ring.
    setoid_replace (a * p0 * p0) with (a * (p0 * p0)) by ring.
    nra.
  - apply andb_false_iff. right.
    apply Nat.ltb_ge in Hob. apply Nat.ltb_ge.
    cbn [_dprBucketIndex with_dprBucketIndex]. lia.
Qed.

(** One degrade step: tier first, then bucket, then nothing. *)
Lemma degradeOneStep_total (env : Env) (now : Q) (s : State) :
  exists s',
    degradeOneStep B env now s = Some s' /\
    sameAmbient s s' /\
    ((_effectQualityLevel s < length EFFECT_QUALITY_LEVELS - 1)%nat ->
       _effectQualityLevel s' = S (_effectQualityLevel s) /\
       _dprBucketIndex s' = _dprBucketIndex s) /\
    (~ (_effectQualityLevel s < length EFFECT_QUALITY_LEVELS - 1)%nat ->
     (_dprBucketIndex s < length B - 1)%nat ->
       _effectQualityLevel s' = _effectQualityLevel s /\
       (S (_dprBucketIndex s) <= _dprBucketIndex s' <= length B - 1)%nat /\
       (overBudget B env (with_dprBucketIndex (S (_dprBucketIndex s)) s)
        = false ->
        _dprBucketIndex s' = S (_dprBucketIndex s))) /\
    (~ (_effectQualityLevel s < length EFFECT_QUALITY_LEVELS - 1)%nat ->
     ~ (_dprBucketIndex s < length B - 1)%nat ->
       s' = s).
Proof.
  unfold degradeOneStep.
  destruct (_effectQualityLevel s <? length EFFECT_QUALITY_LEVELS - 1)%nat
    eqn:Et.
  - apply Nat.ltb_lt in Et. eexists. split; [reflexivity|].
    destruct (applyEffectQuality_frame env
                (with_effectQualityLevel (S (_effectQualityLevel s)) s))
      as [[Ha [Ht _]] Hb].
    split.
    + eapply sameAmbient_trans; [|exact Ha]. unfold sameAmbient. repeat split.
    + split; [intros _; split; [exact Ht | exact Hb]|].
      split; intros; exfalso; lia.
  - apply Nat.ltb_ge in Et.
    destruct (_dprBucketIndex s <? length B - 1)%nat eqn:Eb.
    + apply Nat.ltb_lt in Eb.
      destruct (applyRendererPixelRatio_total env
                  (with_dprBucketIndex (S (_dprBucketIndex s)) s))
        as (s1 & Hrun & _ & Hle & Hub & [Ha [Ht _]] & Hexact).
      rewrite Hrun. eexists. split; [reflexivity|].
      cbn [_dprBucketIndex _effectQualityLevel with_dprBucketIndex] in Hle, Hub, Ht.
      split.
      * eapply sameAmbient_trans; [|exact Ha]. unfold sameAmbient. repeat split.
      * split; [intros; exfalso; lia|].
        split; [|intros; exfalso; lia].
        intros _ _.
        cbn [_dprBucketIndex _effectQualityLevel with_lastPerfChangeTime].
        split; [exact Ht|]. split; [lia|].
        intros H. rewrite (Hexact H).
        now destruct (pushPixelRatio_frame env
                        (with_dprBucketIndex (S (_dprBucketIndex s)) s)).
    + apply Nat.ltb_ge in Eb. exists s. split; [reflexivity|].
      split; [apply sameAmbient_refl|].
      split; [intros; exfalso; lia|].
      split; [intros; exfalso; lia | reflexivity].
Qed.

Lemma Category_eqb_eq (a b : Category) : Category_eqb a b = true <-> a = b.
Proof. destruct a, b; cbn; split; intros H; congruence. Qed.

(** One upgrade step: bucket first, then tier, then the desktop base cap. *)
Lemma upgradeOneStep_total (env : Env) (now : Q) (s : State) :
  let p := __deviceProfile s in
  exists s',
    upgradeOneStep B env now s = Some s' /\
    sameAmbient (with_deviceProfile (__deviceProfile s') s) s' /\
    baseCapCurrent p <= baseCapCurrent (__deviceProfile s') /\
    ((0 < _dprBucketIndex s)%nat ->
       _effectQualityLevel s' = _effectQualityLevel s /\
       __deviceProfile s' = p /\
       (pred (_dprBucketIndex s) <= _dprBucketIndex s')%nat /\
       (overBudget B env (with_dprBucketIndex (pred (_dprBucketIndex s)) s)
        = false ->
        _dprBucketIndex s' = pred (_dprBucketIndex s))) /\
    (_dprBucketIndex s = 0%nat -> (0 < _effectQualityLevel s)%nat ->
       _effectQualityLevel s' = pred (_effectQualityLevel s) /\
       _dprBucketIndex s' = 0%nat /\
       __deviceProfile s' = p) /\
    (_dprBucketIndex s = 0%nat -> _effectQualityLevel s = 0%nat ->
       (category p = desktop -> baseCapCurrent p < baseCapMax p ->
          __deviceProfile s'
          = with_baseCapCurrent
              (Qmin (baseCapMax p) (baseCapCurrent p + 0.1)) p /\
          _effectQualityLevel s' = 0%nat) /\
       (~ (category p = desktop /\ baseCapCurrent p < baseCapMax p) ->
          s' = s)).
Proof.
  intros p. unfold upgradeOneStep.
  destruct (0 <? _dprBucketIndex s)%nat eqn:Eb.
  - apply Nat.ltb_lt in Eb.
    destruct (applyRendererPixelRatio_total env
                (with_dprBucketIndex (pred (_dprBucketIndex s)) s))
      as (s1 & Hrun & _ & Hle & _ & [Ha [Ht _]] & Hexact).
    rewrite Hrun. eexists. split; [reflexivity|].
    cbn [_dprBucketIndex _effectQualityLevel with_dprBucketIndex] in Hle, Ht.
    assert (Hp : __deviceProfile s1 = p) by apply Ha.
    cbn [__deviceProfile _dprBucketIndex _effectQualityLevel
         with_lastPerfChangeTime].
    split.
    { eapply sameAmbient_trans; [|exact Ha].
      unfold sameAmbient. cbn. rewrite Hp. repeat split. }
    split; [rewrite Hp; apply Qle_refl|].
    split; [|split; intros; exfalso; lia].
    intros _. split; [exact Ht|]. split; [exact Hp|]. split; [exact Hle|].
    intros H. rewrite (Hexact H).
    now destruct (pushPixelRatio_frame env
                    (with_dprBucketIndex (pred (_dprBucketIndex s)) s)).
  - apply Nat.ltb_ge in Eb.
    destruct (0 <? _effectQualityLevel s)%nat eqn:Et.
    + apply Nat.ltb_lt in Et. eexists. split; [reflexivity|].
      destruct (applyEffectQuality_frame env
                  (with_effectQualityLevel (pred (_effectQualityLevel s)) s))
        as [[Ha [Ht _]] Hb].
      assert (Hp : __deviceProfile
                     (applyEffectQuality env
                        (with_effectQualityLevel
                           (pred (_effectQualityLevel s)) s)) = p)
        by apply Ha.
      cbn [__deviceProfile _dprBucketIndex _effectQualityLevel
           with_lastPerfChangeTime].
      split.
      { eapply sameAmbient_trans; [|exact Ha].
        unfold sameAmbient. cbn. rewrite Hp. repeat split. }
      split; [rewrite Hp; apply Qle_refl|].
      split; [intros; exfalso; lia|].
      split; [|intros; exfalso; lia].
      intros _ _. split; [exact Ht|]. split; [|exact Hp].
      rewrite Hb. cbn. lia.
    + apply Nat.ltb_ge in Et. fold p.
      destruct (Category_eqb (category p) desktop
                && Qlt_bool (baseCapCurrent p) (baseCapMax p)) eqn:Ec.
      * apply andb_prop in Ec. destruct Ec as [Ecat Ecap].
        apply Category_eqb_eq in Ecat. apply Qlt_bool_iff in Ecap.
        set (p' := with_baseCapCurrent
                     (Qmin (baseCapMax p) (baseCapCurrent p + 0.1)) p).
        destruct (applyRendererPixelRatio_total env (with_deviceProfile p' s))
          as (s1 & Hrun & _ & _ & _ & [Ha [Ht _]] & _).
        rewrite Hrun. eexists. split; [reflexivity|].
        assert (Hp : __deviceProfile s1 = p') by apply Ha.
        cbn [__deviceProfile _dprBucketIndex _effectQualityLevel
             with_lastPerfChangeTime].
        split.
        { eapply sameAmbient_trans; [|exact Ha].
          unfold sameAmbient. cbn. rewrite Hp. repeat split. }
        split.
        { rewrite Hp. unfold p'. cbn [baseCapCurrent with_baseCapCurrent].
          apply Q.min_glb; lra. }
        split; [intros; exfalso; lia|].
        split; [intros; exfalso; lia|].
        intros _ _. split.
        -- intros _ _. split; [exact Hp|].
           rewrite Ht. cbn. lia.
        -- intros Hn. exfalso. apply Hn. now split.
      * exists s. split; [reflexivity|].
        split; [unfold sameAmbient; cbn; repeat split|].
        split; [apply Qle_refl|].
        split; [intros; exfalso; lia|].
        split; [intros; exfalso; lia|].
        intros _ _. split; [|reflexivity].
        intros Hcat Hcap. exfalso.
        apply andb_false_iff in Ec. destruct Ec as [Ec|Ec].
        -- apply Category_eqb_eq in Hcat. congruence.
        -- apply Qlt_bool_iff in Hcap. congruence.
Qed.

Lemma with_dprBucketIndex_ambient (k : nat) (s s' : State) :
  sameAmbient s s' ->
  sameAmbient (with_dprBucketIndex k s) (with_dprBucketIndex k s').
Proof. intros H. exact H. Qed.

(** The loop stops at the first bucket, from the one it starts at, that
    passes its test: every bucket it steps over is over budget. *)
Lemma budgetLoop_first (fuel : nat) : forall env s ch,
  (length B - 1 - _dprBucketIndex s <= fuel)%nat ->
  exists b' ch',
    budgetLoop B fuel env s ch = Some (with_dprBucketIndex b' s, ch') /\
    (_dprBucketIndex s <= b')%nat /\
    overBudget B env (with_dprBucketIndex b' s) = false /\
    (forall k, (_dprBucketIndex s <= k < b')%nat ->
               overBudget B env (with_dprBucketIndex k s) = true).
Proof.
  induction fuel as [|fuel IH]; intros env s ch Hfuel.
  - destruct (overBudget B env s) eqn:E.
    + apply overBudget_bucket in E. lia.
    + exists (_dprBucketIndex s), ch. rewrite with_dprBucketIndex_same.
      split; [now apply budgetLoop_done|]. split; [lia|].
      split; [exact E | intros k Hk; lia].
  - destruct (overBudget B env s) eqn:E.
    + cbn [budgetLoop]. rewrite E.
      pose proof (overBudget_bucket env s E) as Hlt.
      destruct (IH env (with_dprBucketIndex (S (_dprBucketIndex s)) s) true)
        as (b' & ch' & Hrun & Hle & Hob & Hall).
      { cbn [_dprBucketIndex with_dprBucketIndex]. lia. }
      cbn [_dprBucketIndex with_dprBucketIndex] in Hle, Hall.
      exists b', ch'.
      split; [exact Hrun|]. split; [lia|]. split; [exact Hob|].
      intros k Hk.
      destruct (Nat.eq_dec k (_dprBucketIndex s)) as [-> | Hne].
      * rewrite with_dprBucketIndex_same. exact E.
      * apply (Hall k). lia.
    + exists (_dprBucketIndex s), ch. rewrite with_dprBucketIndex_same.
      split; [now apply budgetLoop_done|]. split; [lia|].
      split; [exact E | intros k Hk; lia].
Qed.

(** [_applyRendererPixelRatio()] leaves the bucket at the first index, from
    the one it is called with, that passes the test of the budget loop. *)
Lemma applyRendererPixelRatio_first (env : Env) (s : State) :
  exists s',
    _applyRendererPixelRatio B env s = Some s' /\
    overBudget B env s' = false /\
    sameAmbient s s' /\
    (forall k, (_dprBucketIndex s <= k < _dprBucketIndex s')%nat ->
               overBudget B env (with_dprBucketIndex k s) = true).
Proof.
  destruct (applyRendererPixelRatio_total env s)
    as (s' & Hrun & Hob & _ & _ & [Ha _] & _).
  exists s'. split; [exact Hrun|]. split; [exact Hob|].
  split; [exact Ha|].
  unfold _applyRendererPixelRatio, callDepth in Hrun.
  destruct (pushPixelRatio_frame env s) as [[Hc0 _] Hb0].
  set (s0 := pushPixelRatio B env s) in *.
  destruct (budgetLoop_first (length B) env s0 false)
    as (b' & ch' & Hloop & _ & Hob' & Hall); [lia|].
  assert (Hb : _dprBucketIndex s' = b').
  { cbn [enforcePixelBudget] in Hrun. rewrite Hloop in Hrun.
    destruct ch'.
    - rewrite budgetLoop_done in Hrun by (now rewrite overBudget_push).
      injection Hrun as <-.
      destruct (pushPixelRatio_frame env (with_dprBucketIndex b' s0))
        as [_ Hb1].
      rewrite Hb1. reflexivity.
    - injection Hrun as <-. reflexivity. }
  intros k Hk. rewrite Hb, <- Hb0 in Hk.
  rewrite <- (Hall k Hk). symmetry.
  apply overBudget_ext; [|reflexivity].
  now apply with_dprBucketIndex_ambient.
Qed.

(** The bucket branch of an upgrade step: the bucket ends at the first
    index, from one below where it was, that passes the test of the budget
    loop. *)
Lemma upgrade_bucket_first (env : Env) (now : Q) (s : State) :
  (0 < _dprBucketIndex s)%nat ->
  exists s',
    upgradeOneStep B env now s = Some s' /\
    overBudget B env s' = false /\
    (_dprBucketIndex s'
     <= Nat.max (pred (_dprBucketIndex s)) (length B - 1))%nat /\
    (forall k, (pred (_dprBucketIndex s) <= k < _dprBucketIndex s')%nat ->
               overBudget B env (with_dprBucketIndex k s) = true) /\
    (_dprBucketIndex s' = pred (_dprBucketIndex s) ->
     overBudget B env (with_dprBucketIndex (pred (_dprBucketIndex s)) s)
     = false).
Proof.
  intros Hpos. unfold upgradeOneStep.
  apply Nat.ltb_lt in Hpos. rewrite Hpos.
  destruct (applyRendererPixelRatio_first env
              (with_dprBucketIndex (pred (_dprBucketIndex s)) s))
    as (s1 & Hrun & Hob & Ha & Hall).
  destruct (applyRendererPixelRatio_total env
              (with_dprBucketIndex (pred (_dprBucketIndex s)) s))
    as (s2 & Hrun2 & _ & _ & Hub & _).
  rewrite Hrun in Hrun2. injection Hrun2 as <-.
  rewrite Hrun. eexists. split; [reflexivity|].
  assert (Hob' : overBudget B env (with_lastPerfChangeTime now s1) = false).
  { rewrite <- Hob. apply overBudget_ext; [|reflexivity].
    unfold sameAmbient. repeat split. }
  split; [exact Hob'|].
  cbn [_dprBucketIndex with_dprBucketIndex with_lastPerfChangeTime] in *.
  split; [exact Hub|].
  split; [exact Hall|].
  intros Hb. rewrite <- Hob. symmetry.
  apply overBudget_ext; [exact Ha | exact Hb].
Qed.

(** What the test of the budget loop says about the pixel count. *)
Lemma overBudget_true_pixels (env : Env) (s : State) :
  overBudget B env s = true -> PIXEL_BUDGET < internalPixels B env s.
Proof.
  unfold overBudget. intros E. apply andb_prop in E.
  destruct E as [E _]. now apply Qlt_bool_iff.
Qed.

Lemma overBudget_false_pixels (env : Env) (s : State) :
  overBudget B env s = false ->
  internalPixels B env s <= PIXEL_BUDGET
  \/ (length B - 1 <= _dprBucketIndex s)%nat.
Proof.
  unfold overBudget. intros E. apply andb_false_iff in E.
  destruct E as [E | E].
  - left. now apply Qlt_bool_false_iff.
  - right. now apply Nat.ltb_ge.
Qed.

End Table.

End LadderFacts.
(* ------------------------------------------------------------------ *)
(** ** The two entry variants *)

Module ControllerFacts.

Import Controller LadderFacts.

Lemma tier_floor : (length EFFECT_QUALITY_LEVELS - 1 = 3)%nat.
Proof. reflexivity. Qed.

Lemma bucket_floor_001 : (length Part001.DPR_BUCKETS - 1 = 2)%nat.
Proof. reflexivity. Qed.

Lemma bucket_floor_000 : (length Part000.DPR_BUCKETS - 1 = 4)%nat.
Proof. reflexivity. Qed.

Lemma Qlt_bool_not (x y : Q) : ~ x < y -> Qlt_bool x y = false.
Proof. intros H. apply Qlt_bool_false_iff. now apply Qnot_lt_le. Qed.

(** C1, as the code has it.  A degrade step that passes its guards (the
    resume guard of part_001 and the debounce) advances the effect tier
    before the DPR bucket.  Below the worst tier it raises the tier index by
    one and leaves the bucket index alone.  At the worst tier and below the
    worst bucket it raises the bucket index by one, after which the
    pixel-budget check that follows every pixel-ratio change may raise it
    further: the bucket ends at least one higher, never past the worst, and
    exactly one higher when the advanced bucket meets the pixel budget.
    With both at their worst the call changes nothing. *)
Theorem degrade_tier_before_bucket (env : Env) (now : Q) (s : State) :
  (~ now < _resumeGuardUntil s ->
   ~ now - _lastPerfChangeTime s < Part001._effectiveDebounceMs now s ->
   exists s',
     Part001.attemptDegrade env now s = Some s' /\
     ((_effectQualityLevel s < 3)%nat ->
        _effectQualityLevel s' = S (_effectQualityLevel s) /\
        _dprBucketIndex s' = _dprBucketIndex s) /\
     ((3 <= _effectQualityLevel s)%nat -> (_dprBucketIndex s < 2)%nat ->
        _effectQualityLevel s' = _effectQualityLevel s /\
        (S (_dprBucketIndex s) <= _dprBucketIndex s' <= 2)%nat /\
        (overBudget Part001.DPR_BUCKETS env
           (with_dprBucketIndex (S (_dprBucketIndex s)) s) = false ->
         _dprBucketIndex s' = S (_dprBucketIndex s))) /\
     ((3 <= _effectQualityLevel s)%nat -> (2 <= _dprBucketIndex s)%nat ->
        s' = s)) /\
  (~ now - _lastPerfChangeTime s < PERF_CHANGE_DEBOUNCE ->
   exists s',
     Part000.attemptDegrade env now s = Some s' /\
     ((_effectQualityLevel s < 3)%nat ->
        _effectQualityLevel s' = S (_effectQualityLevel s) /\
        _dprBucketIndex s' = _dprBucketIndex s) /\
     ((3 <= _effectQualityLevel s)%nat -> (_dprBucketIndex s < 4)%nat ->
        _effectQualityLevel s' = _effectQualityLevel s /\
        (S (_dprBucketIndex s) <= _dprBucketIndex s' <= 4)%nat /\
        (overBudget Part000.DPR_BUCKETS env
           (with_dprBucketIndex (S (_dprBucketIndex s)) s) = false ->
         _dprBucketIndex s' = S (_dprBucketIndex s))) /\
     ((3 <= _effectQualityLevel s)%nat -> (4 <= _dprBucketIndex s)%nat ->
        s' = s)).
Proof.
  split.
  - intros Hg Hd. unfold Part001.attemptDegrade.
    rewrite (Qlt_bool_not _ _ Hg), (Qlt_bool_not _ _ Hd).
    destruct (degradeOneStep_total Part001.DPR_BUCKETS env now s)
      as (s' & Hrun & _ & H1 & H2 & H3).
    rewrite tier_floor, bucket_floor_001 in *.
    exists s'. split; [exact Hrun|]. split; [exact H1|]. split.
    + intros Ht Hb. apply H2; lia.
    + intros Ht Hb. apply H3; lia.
  - intros Hd. unfold Part000.attemptDegrade.
    rewrite (Qlt_bool_not _ _ Hd).
    destruct (degradeOneStep_total Part000.DPR_BUCKETS env now s)
      as (s' & Hrun & _ & H1 & H2 & H3).
    rewrite tier_floor, bucket_floor_000 in *.
    exists s'. split; [exact Hrun|]. split; [exact H1|]. split.
    + intros Ht Hb. apply H2; lia.
    + intros Ht Hb. apply H3; lia.
Qed.

Lemma degrade_tier_before_bucket_witness :
  (~ 5000 < _resumeGuardUntil Part001.exampleStart) /\
  (~ 5000 - _lastPerfChangeTime Part001.exampleStart
     < Part001._effectiveDebounceMs 5000 Part001.exampleStart) /\
  exists s',
    Part001.attemptDegrade Part001.exampleEnv 5000 Part001.exampleStart
    = Some s' /\
    _effectQualityLevel s' = 1%nat /\ _dprBucketIndex s' = 0%nat.
Proof.
  assert (Hg : ~ 5000 < _resumeGuardUntil Part001.exampleStart)
    by (intros H; vm_compute in H; discriminate).
  assert (Hd : ~ 5000 - _lastPerfChangeTime Part001.exampleStart
                 < Part001._effectiveDebounceMs 5000 Part001.exampleStart)
    by (intros H; vm_compute in H; discriminate).
  split; [exact Hg|]. split; [exact Hd|].
  destruct (proj1 (degrade_tier_before_bucket
                     Part001.exampleEnv 5000 Part001.exampleStart) Hg Hd)
    as (s' & Hrun & H1 & _).
  exists s'. split; [exact Hrun|]. apply H1. cbn. lia.
Defined.

(** C1 as stated fails when the pixel budget is exceeded at the moment of
    the step.  The page was loaded at device pixel ratio 2; the canvas was
    last resized, to 3840 x 2160 CSS pixels, while the ratio was 1, which
    left bucket 0 within budget; the tier was then driven to its worst.
    With the ratio back at 2, one degrade step takes the bucket from 0 to
    2, not to 1. *)
Lemma degrade_skips_bucket_counterexample :
  let envLow := {| devicePixelRatio := 1; reedEffectPresent := true |} in
  exists s1 s3,
    resizeRendererAndComposer Part001.DPR_BUCKETS envLow 3840 2160
      Part001.exampleStart = Some s1 /\
    _dprBucketIndex s1 = 0%nat /\
    _effectQualityLevel (forceTier envLow 3 s1) = 3%nat /\
    Qlt_bool 5000 (_resumeGuardUntil (forceTier envLow 3 s1)) = false /\
    Qlt_bool (5000 - _lastPerfChangeTime (forceTier envLow 3 s1))
             (Part001._effectiveDebounceMs 5000 (forceTier envLow 3 s1))
    = false /\
    Part001.attemptDegrade Part001.exampleEnv 5000 (forceTier envLow 3 s1)
    = Some s3 /\
    _dprBucketIndex s3 = 2%nat /\
    _dprBucketIndex s3 <> S (_dprBucketIndex (forceTier envLow 3 s1)).
Proof.
  cbv zeta. eexists. eexists.
  split; [vm_compute; reflexivity|].
  split; [reflexivity|]. split; [reflexivity|].
  split; [reflexivity|]. split; [reflexivity|].
  split; [vm_compute; reflexivity|].
  split; [reflexivity | discriminate].
Qed.

(** In the ordinary course, where the framebuffer is within budget when the
    step is taken (as it is after every budget check under an unchanged
    device pixel ratio), the bucket branch of a part_001 degrade step
    advances the bucket by exactly one. *)
Lemma degrade_one_bucket_within_budget (env : Env) (now : Q) (s : State) :
  ~ now < _resumeGuardUntil s ->
  ~ now - _lastPerfChangeTime s < Part001._effectiveDebounceMs now s ->
  (3 <= _effectQualityLevel s)%nat -> (_dprBucketIndex s < 2)%nat ->
  0 <= baseCapCurrent (__deviceProfile s) ->
  0 <= devicePixelRatio env ->
  0 <= _lastCSSW s * _lastCSSH s ->
  overBudget Part001.DPR_BUCKETS env s = false ->
  exists s',
    Part001.attemptDegrade env now s = Some s' /\
    _dprBucketIndex s' = S (_dprBucketIndex s).
Proof.
  intros Hg Hd Ht Hb Hbase Hdpr Hcss Hob.
  unfold Part001.attemptDegrade.
  rewrite (Qlt_bool_not _ _ Hg), (Qlt_bool_not _ _ Hd).
  destruct (degradeOneStep_total Part001.DPR_BUCKETS env now s)
    as (s' & Hrun & _ & _ & H2 & _).
  rewrite tier_floor, bucket_floor_001 in *.
  exists s'. split; [exact Hrun|].
  apply H2; [lia | exact Hb |].
  apply overBudget_advance; try assumption;
    destruct (_dprBucketIndex s) as [|[|b]]; try lia;
    vm_compute; discriminate.
Qed.

(** C2, as the code has it.  An upgrade step that passes the debounce
    retracts the DPR bucket before the effect tier.  Above bucket 0 it
    lowers the bucket index by one and then holds it to the pixel budget:
    the check that follows every pixel-ratio change re-advances the bucket
    while the framebuffer would exceed the budget, so the bucket ends no
    lower than one below where it was, and exactly one below when, and only
    when, that bucket passes the test of the budget loop; the step ends
    within the pixel budget or at the worst bucket, never past it, and
    every bucket the check stepped over exceeds the budget; tier and base
    cap are unchanged.
    At bucket 0 and above tier 0 it lowers the tier index by one.  With
    both at 0, and only for the desktop category with [baseCapCurrent] below
    [baseCapMax], it raises [baseCapCurrent] by 0.1, capped at [baseCapMax];
    otherwise it changes nothing. *)
Theorem upgrade_bucket_before_tier (env : Env) (now : Q) (s : State) :
  let p := __deviceProfile s in
  (~ now - _lastPerfChangeTime s < Part001._effectiveDebounceMs now s ->
   exists s',
     Part001.attemptUpgrade env now s = Some s' /\
     ((0 < _dprBucketIndex s)%nat ->
        _effectQualityLevel s' = _effectQualityLevel s /\
        __deviceProfile s' = p /\
        (pred (_dprBucketIndex s) <= _dprBucketIndex s')%nat /\
        (overBudget Part001.DPR_BUCKETS env
           (with_dprBucketIndex (pred (_dprBucketIndex s)) s) = false ->
         _dprBucketIndex s' = pred (_dprBucketIndex s)) /\
        (_dprBucketIndex s' = pred (_dprBucketIndex s) ->
         overBudget Part001.DPR_BUCKETS env
           (with_dprBucketIndex (pred (_dprBucketIndex s)) s) = false) /\
        (_dprBucketIndex s' <= Nat.max (pred (_dprBucketIndex s)) 2)%nat /\
        (internalPixels Part001.DPR_BUCKETS env s' <= PIXEL_BUDGET
         \/ (2 <= _dprBucketIndex s')%nat) /\
        (forall k,
           (pred (_dprBucketIndex s) <= k < _dprBucketIndex s')%nat ->
           PIXEL_BUDGET
           < internalPixels Part001.DPR_BUCKETS env
               (with_dprBucketIndex k s))) /\
     (_dprBucketIndex s = 0%nat -> (0 < _effectQualityLevel s)%nat ->
        _effectQualityLevel s' = pred (_effectQualityLevel s) /\
        _dprBucketIndex s' = 0%nat /\
        __deviceProfile s' = p) /\
     (_dprBucketIndex s = 0%nat -> _effectQualityLevel s = 0%nat ->
        (category p = desktop -> baseCapCurrent p < baseCapMax p ->
           baseCapCurrent (__deviceProfile s')
           = Qmin (baseCapMax p) (baseCapCurrent p + 0.1) /\
           baseCapCurrent p < baseCapCurrent (__deviceProfile s') /\
           baseCapCurrent (__deviceProfile s') <= baseCapMax p /\
           _effectQualityLevel s' = 0%nat) /\
        (~ (category p = desktop /\ baseCapCurrent p < baseCapMax p) ->
           s' = s))) /\
  (~ now - _lastPerfChangeTime s < PERF_CHANGE_DEBOUNCE ->
   exists s',
     Part000.attemptUpgrade env now s = Some s' /\
     ((0 < _dprBucketIndex s)%nat ->
        _effectQualityLevel s' = _effectQualityLevel s /\
        __deviceProfile s' = p /\
        (pred (_dprBucketIndex s) <= _dprBucketIndex s')%nat /\
        (overBudget Part000.DPR_BUCKETS env
           (with_dprBucketIndex (pred (_dprBucketIndex s)) s) = false ->
         _dprBucketIndex s' = pred (_dprBucketIndex s)) /\
        (_dprBucketIndex s' = pred (_dprBucketIndex s) ->
         overBudget Part000.DPR_BUCKETS env
           (with_dprBucketIndex (pred (_dprBucketIndex s)) s) = false) /\
        (_dprBucketIndex s' <= Nat.max (pred (_dprBucketIndex s)) 4)%nat /\
        (internalPixels Part000.DPR_BUCKETS env s' <= PIXEL_BUDGET
         \/ (4 <= _dprBucketIndex s')%nat) /\
        (forall k,
           (pred (_dprBucketIndex s) <= k < _dprBucketIndex s')%nat ->
           PIXEL_BUDGET
           < internalPixels Part000.DPR_BUCKETS env
               (with_dprBucketIndex k s))) /\
     (_dprBucketIndex s = 0%nat -> (0 < _effectQualityLevel s)%nat ->
        _effectQualityLevel s' = pred (_effectQualityLevel s) /\
        _dprBucketIndex s' = 0%nat /\
        __deviceProfile s' = p) /\
     (_dprBucketIndex s = 0%nat -> _effectQualityLevel s = 0%nat ->
        (category p = desktop -> baseCapCurrent p < baseCapMax p ->
           baseCapCurrent (__deviceProfile s')
           = Qmin (baseCapMax p) (baseCapCurrent p + 0.1) /\
           baseCapCurrent p < baseCapCurrent (__deviceProfile s') /\
           baseCapCurrent (__deviceProfile s') <= baseCapMax p /\
           _effectQualityLevel s' = 0%nat) /\
        (~ (category p = desktop /\ baseCapCurrent p < baseCapMax p) ->
           s' = s))).
Proof.
  intros p.
  assert (Hcap : forall s' : State,
             (category p = desktop -> baseCapCurrent p < baseCapMax p ->
              __deviceProfile s'
              = with_baseCapCurrent
                  (Qmin (baseCapMax p) (baseCapCurrent p + 0.1)) p /\
              _effectQualityLevel s' = 0%nat) ->
             category p = desktop -> baseCapCurrent p < baseCapMax p ->
             baseCapCurrent (__deviceProfile s')
             = Qmin (baseCapMax p) (baseCapCurrent p + 0.1) /\
             baseCapCurrent p < baseCapCurrent (__deviceProfile s') /\
             baseCapCurrent (__deviceProfile s') <= baseCapMax p /\
             _effectQualityLevel s' = 0%nat).
  { intros s' H Hcat Hlt. destruct (H Hcat Hlt) as [Hp Ht].
    rewrite Hp. cbn [baseCapCurrent with_baseCapCurrent].
    split; [reflexivity|]. split.
    - apply Q.min_glb_lt; lra.
    - split; [apply Q.le_min_l | exact Ht]. }
  assert (Hheld : forall (B : list Q) (s' : State),
             upgradeOneStep B env now s = Some s' ->
             ((0 < _dprBucketIndex s)%nat ->
              _effectQualityLevel s' = _effectQualityLevel s /\
              __deviceProfile s' = p /\
              (pred (_dprBucketIndex s) <= _dprBucketIndex s')%nat /\
              (overBudget B env
                 (with_dprBucketIndex (pred (_dprBucketIndex s)) s) = false ->
               _dprBucketIndex s' = pred (_dprBucketIndex s))) ->
             (0 < _dprBucketIndex s)%nat ->
             _effectQualityLevel s' = _effectQualityLevel s /\
             __deviceProfile s' = p /\
             (pred (_dprBucketIndex s) <= _dprBucketIndex s')%nat /\
             (overBudget B env
                (with_dprBucketIndex (pred (_dprBucketIndex s)) s) = false ->
              _dprBucketIndex s' = pred (_dprBucketIndex s)) /\
             (_dprBucketIndex s' = pred (_dprBucketIndex s) ->
              overBudget B env
                (with_dprBucketIndex (pred (_dprBucketIndex s)) s) = false) /\
             (_dprBucketIndex s'
              <= Nat.max (pred (_dprBucketIndex s)) (length B - 1))%nat /\
             (internalPixels B env s' <= PIXEL_BUDGET
              \/ (length B - 1 <= _dprBucketIndex s')%nat) /\
             (forall k,
                (pred (_dprBucketIndex s) <= k < _dprBucketIndex s')%nat ->
                PIXEL_BUDGET
                < internalPixels B env (with_dprBucketIndex k s))).
  { intros B s' Hrun H1 Hpos.
    destruct (H1 Hpos) as (Ht & Hp & Hle & Hex).
    destruct (upgrade_bucket_first B env now s Hpos)
      as (s2 & Hrun2 & Hob & Hub & Hall & Hconv).
    rewrite Hrun in Hrun2. injection Hrun2 as <-.
    split; [exact Ht|]. split; [exact Hp|]. split; [exact Hle|].
    split; [exact Hex|]. split; [exact Hconv|]. split; [exact Hub|].
    split; [now apply overBudget_false_pixels|].
    intros k Hk. apply overBudget_true_pixels. now apply Hall. }
  split.
  - intros Hd. unfold Part001.attemptUpgrade.
    rewrite (Qlt_bool_not _ _ Hd).
    destruct (upgradeOneStep_total Part001.DPR_BUCKETS env now s)
      as (s' & Hrun & _ & _ & H1 & H2 & H3).
    exists s'. split; [exact Hrun|].
    split; [now apply (Hheld Part001.DPR_BUCKETS)|]. split; [exact H2|].
    intros Hb Ht. destruct (H3 Hb Ht) as [H3a H3b].
    split; [now apply Hcap | exact H3b].
  - intros Hd. unfold Part000.attemptUpgrade.
    rewrite (Qlt_bool_not _ _ Hd).
    destruct (upgradeOneStep_total Part000.DPR_BUCKETS env now s)
      as (s' & Hrun & _ & _ & H1 & H2 & H3).
    exists s'. split; [exact Hrun|].
    split; [now apply (Hheld Part000.DPR_BUCKETS)|]. split; [exact H2|].
    intros Hb Ht. destruct (H3 Hb Ht) as [H3a H3b].
    split; [now apply Hcap | exact H3b].
Qed.

(** On the example display, with both indices at 0, the step raises the
    base cap; on the smaller canvas at bucket 1, where bucket 0 is within
    budget, it lowers the bucket to 0. *)
Lemma upgrade_bucket_before_tier_witness :
  (~ 10000 - _lastPerfChangeTime Part001.exampleStart
     < Part001._effectiveDebounceMs 10000 Part001.exampleStart) /\
  (~ 10000 - _lastPerfChangeTime Part001.exampleSmall
     < Part001._effectiveDebounceMs 10000 Part001.exampleSmall) /\
  (exists s',
     Part001.attemptUpgrade Part001.exampleEnv 10000 Part001.exampleStart
     = Some s' /\
     baseCapCurrent (__deviceProfile s') = Qmin 1.55 (1.18 + 0.1) /\
     _effectQualityLevel s' = 0%nat) /\
  (exists s',
     Part001.attemptUpgrade Part001.exampleEnv 10000 Part001.exampleSmall
     = Some s' /\
     _dprBucketIndex Part001.exampleSmall = 1%nat /\
     _dprBucketIndex s' = 0%nat /\
     (internalPixels Part001.DPR_BUCKETS Part001.exampleEnv s'
      <= PIXEL_BUDGET
      \/ (2 <= _dprBucketIndex s')%nat)).
Proof.
  assert (Hd : ~ 10000 - _lastPerfChangeTime Part001.exampleStart
                 < Part001._effectiveDebounceMs 10000 Part001.exampleStart)
    by (intros H; vm_compute in H; discriminate).
  assert (Hd' : ~ 10000 - _lastPerfChangeTime Part001.exampleSmall
                  < Part001._effectiveDebounceMs 10000 Part001.exampleSmall)
    by (intros H; vm_compute in H; discriminate).
  split; [exact Hd|]. split; [exact Hd'|]. split.
  - destruct (proj1 (upgrade_bucket_before_tier
                       Part001.exampleEnv 10000 Part001.exampleStart) Hd)
      as (s' & Hrun & _ & _ & H3).
    destruct (H3 eq_refl eq_refl) as [Hcap _].
    destruct (Hcap eq_refl eq_refl) as (Hval & _ & _ & Ht).
    exists s'. split; [exact Hrun|]. split; [exact Hval | exact Ht].
  - destruct (proj1 (upgrade_bucket_before_tier
                       Part001.exampleEnv 10000 Part001.exampleSmall) Hd')
      as (s' & Hrun & H1 & _).
    assert (Hpos : (0 < _dprBucketIndex Part001.exampleSmall)%nat)
      by (cbn; lia).
    destruct (H1 Hpos) as (_ & _ & _ & Hex & _ & _ & Hend & _).
    exists s'. split; [exact Hrun|]. split; [reflexivity|].
    split; [|exact Hend].
    apply Hex. vm_compute. reflexivity.
Defined.

(** C2 as stated fails under the pixel budget.  On the example display the
    resize leaves the controller at bucket 2, the budget being exceeded at
    buckets 0 and 1.  An upgrade step then finds the bucket above 0, lowers
    it to 1, and the budget check puts it back: the bucket index is still 2
    after the step, not 1. *)
Lemma upgrade_bounces_counterexample :
  exists s1 s2,
    resizeRendererAndComposer Part001.DPR_BUCKETS Part001.exampleEnv
      3840 2160 Part001.exampleStart = Some s1 /\
    _dprBucketIndex s1 = 2%nat /\
    Qlt_bool (10000 - _lastPerfChangeTime s1)
             (Part001._effectiveDebounceMs 10000 s1) = false /\
    Part001.attemptUpgrade Part001.exampleEnv 10000 s1 = Some s2 /\
    _dprBucketIndex s2 = 2%nat /\
    _dprBucketIndex s2 <> pred (_dprBucketIndex s1).
Proof.
  eexists. eexists.
  split; [vm_compute; reflexivity|].
  split; [reflexivity|]. split; [reflexivity|].
  split; [vm_compute; reflexivity|].
  split; [reflexivity | discriminate].
Qed.

(** C6.  Calling [enforcePixelBudget()] twice in succession, with nothing
    changed in between, changes nothing the second time: the second call
    returns the state the first one produced, bucket index included. *)
Theorem pixel_budget_idempotent (env : Env) (s : State) :
  (exists s1,
     Part001.enforcePixelBudget env s = Some s1 /\
     Part001.enforcePixelBudget env s1 = Some s1) /\
  (exists s1,
     Part000.enforcePixelBudget env s = Some s1 /\
     Part000.enforcePixelBudget env s1 = Some s1).
Proof.
  split; apply enforcePixelBudget_idempotent.
Qed.

(** *** The per-frame update of part_001 *)

Lemma attemptDegrade_total (env : Env) (now : Q) (s : State) :
  exists s',
    Part001.attemptDegrade env now s = Some s' /\
    sameAmbient s s' /\
    (now < _resumeGuardUntil s -> s' = s).
Proof.
  unfold Part001.attemptDegrade.
  destruct (Qlt_bool now (_resumeGuardUntil s)) eqn:Eg.
  - exists s. split; [reflexivity|]. split; [apply sameAmbient_refl | auto].
  - assert (Hng : now < _resumeGuardUntil s -> False).
    { intros H. apply Qlt_bool_iff in H. congruence. }
    destruct (Qlt_bool (now - _lastPerfChangeTime s)
                (Part001._effectiveDebounceMs now s)).
    + exists s. split; [reflexivity|]. split; [apply sameAmbient_refl | auto].
    + destruct (degradeOneStep_total Part001.DPR_BUCKETS env now s)
        as (s' & Hrun & Ha & _).
      exists s'. split; [exact Hrun|]. split; [exact Ha|].
      intros H. contradiction.
Qed.

Lemma attemptUpgrade_total (env : Env) (now : Q) (s : State) :
  exists s',
    Part001.attemptUpgrade env now s = Some s' /\
    sameAmbient (with_deviceProfile (__deviceProfile s') s) s' /\
    baseCapCurrent (__deviceProfile s)
    <= baseCapCurrent (__deviceProfile s').
Proof.
  unfold Part001.attemptUpgrade.
  destruct (Qlt_bool (now - _lastPerfChangeTime s)
              (Part001._effectiveDebounceMs now s)).
  - exists s. split; [reflexivity|].
    split; [unfold sameAmbient; cbn; repeat split | apply Qle_refl].
  - destruct (upgradeOneStep_total Part001.DPR_BUCKETS env now s)
      as (s' & Hrun & Ha & Hle & _).
    exists s'. split; [exact Hrun|]. split; [exact Ha | exact Hle].
Qed.

Lemma Qmax_zero_decay (x : Q) : 0 <= x -> Qmax 0 (0 - x) == 0.
Proof. intros H. apply Q.max_l. lra. Qed.

Section FrameFacts.

Variable Math_exp : Q -> Q.

(** What a frame does to the base cap, the accumulators and, under the
    resume guard, the ladder. *)
Lemma perfAdaptiveUpdate_total (env : Env) (now delta : Q) (s : State) :
  exists s',
    Part001.perfAdaptiveUpdate Math_exp env now delta s = Some s' /\
    baseCapCurrent (__deviceProfile s)
    <= baseCapCurrent (__deviceProfile s') /\
    (0 <= delta -> Part001.accumulatorsExclusive s ->
     Part001.accumulatorsExclusive s') /\
    (now < _resumeGuardUntil s ->
     (0 < _resumeIgnoreFrames s)%nat
     \/ Part001.inDegradingBand Math_exp delta s = true ->
     _effectQualityLevel s' = _effectQualityLevel s /\
     _dprBucketIndex s' = _dprBucketIndex s).
Proof.
  unfold Part001.perfAdaptiveUpdate, Part001.inDegradingBand,
    Part001.accumulatorsExclusive.
  destruct (0 <? _resumeIgnoreFrames s)%nat eqn:Ei.
  { eexists. split; [reflexivity|].
    split; [apply Qle_refl|]. split; [auto | split; reflexivity]. }
  apply Nat.ltb_ge in Ei.
  cbn [_emaFrameTime with_emaFrameTime with_lastEmaFPS].
  set (fps := ndiv (Fin 1) (Fin (Part001.nextEma Math_exp delta s))).
  destruct (nlt fps (Fin Part001.PERF_FPS_DROP_THRESHOLD)) eqn:Elow.
  - (* degrading band *)
    match goal with
    | |- context [if Qle_bool ?a ?b then _ else _] =>
        destruct (Qle_bool a b)
    end.
    + match goal with
      | |- context [Part001.attemptDegrade env now ?s0] =>
          destruct (attemptDegrade_total env now s0)
            as (s' & Hrun & Ha & Hguard)
      end.
      rewrite Hrun. eexists. split; [reflexivity|].
      destruct Ha as (Hp & _).
      cbn [__deviceProfile _lowPerfAccum _highPerfAccum
           _effectQualityLevel _dprBucketIndex with_lowPerfAccum].
      split; [rewrite Hp; apply Qle_refl|].
      split; [intros _ _; left; reflexivity|].
      intros Hg _. rewrite (Hguard Hg). split; reflexivity.
    + eexists. split; [reflexivity|].
      split; [apply Qle_refl|].
      split; [intros _ _; right; reflexivity | split; reflexivity].
  - destruct (nge fps (Fin Part001.PERF_FPS_RAISE_THRESHOLD)).
    + (* upgrading band *)
      match goal with
      | |- context [if Qle_bool ?a ?b then _ else _] =>
          destruct (Qle_bool a b)
      end.
      * match goal with
        | |- context [Part001.attemptUpgrade env now ?s0] =>
            destruct (attemptUpgrade_total env now s0)
              as (s' & Hrun & Ha & Hle)
        end.
        rewrite Hrun. eexists. split; [reflexivity|].
        cbn [__deviceProfile _lowPerfAccum _highPerfAccum
             _effectQualityLevel _dprBucketIndex with_highPerfAccum].
        split; [exact Hle|].
        split; [intros _ _; right; reflexivity|].
        intros Hg [Hi | Hb]; [lia | discriminate].
      * eexists. split; [reflexivity|].
        split; [apply Qle_refl|].
        split; [intros _ _; left; reflexivity|].
        intros Hg [Hi | Hb]; [lia | discriminate].
    + (* neutral band *)
      eexists. split; [reflexivity|].
      split; [apply Qle_refl|]. split.
      * intros Hd [H | H];
          cbn [_lowPerfAccum _highPerfAccum with_lowPerfAccum
               with_highPerfAccum]; [left | right];
          rewrite H; apply Qmax_zero_decay;
          (apply Qmult_le_0_compat; [exact Hd | discriminate]).
      * intros Hg [Hi | Hb]; [lia | discriminate].
Qed.

(** Every operation returns, and what it does to the base cap and to the
    accumulators. *)
Lemma perform_total (env : Env) (op : Part001.Operation) (s : State) :
  exists s',
    Part001.perform Math_exp env op s = Some s' /\
    match op with
    | Part001.OpSetBaseCap v =>
        baseCapCurrent (__deviceProfile s')
        = Qmin (Qmax 0.5 v) (baseCapMax (__deviceProfile s))
    | _ =>
        baseCapCurrent (__deviceProfile s)
        <= baseCapCurrent (__deviceProfile s')
    end /\
    (Part001.elapsedTimeOk op -> Part001.accumulatorsExclusive s ->
     Part001.accumulatorsExclusive s').
Proof.
  unfold Part001.accumulatorsExclusive.
  destruct op as [now delta | now | now | | now | w h | i | i | v];
    cbn [Part001.perform Part001.elapsedTimeOk].
  - destruct (perfAdaptiveUpdate_total env now delta s)
      as (s' & Hrun & Hle & Hacc & _).
    exists s'. split; [exact Hrun|]. split; [exact Hle | exact Hacc].
  - destruct (attemptDegrade_total env now s)
      as (s' & Hrun & (Hp & _ & Hl & Hh & _) & _).
    exists s'. split; [exact Hrun|]. rewrite Hp, Hl, Hh.
    split; [apply Qle_refl | auto].
  - destruct (attemptUpgrade_total env now s)
      as (s' & Hrun & (_ & _ & Hl & Hh & _) & Hle).
    exists s'. split; [exact Hrun|]. split; [exact Hle|].
    cbn [_lowPerfAccum _highPerfAccum with_deviceProfile] in Hl, Hh. rewrite Hl, Hh. auto.
  - unfold Part001.enforcePixelBudget, callDepth.
    destruct (enforcePixelBudget_total Part001.DPR_BUCKETS 0 env s)
      as (s' & Hrun & _ & _ & _ & ((Hp & _ & Hl & Hh & _) & _)).
    exists s'. split; [exact Hrun|]. rewrite Hp, Hl, Hh.
    split; [apply Qle_refl | auto].
  - eexists. split; [reflexivity|].
    split; [apply Qle_refl | intros _ _; left; reflexivity].
  - destruct (resize_total Part001.DPR_BUCKETS env w h s)
      as (s' & Hrun & ((Hp & _ & Hl & Hh & _) & _)).
    exists s'. split; [exact Hrun|]. cbn [__deviceProfile _lowPerfAccum _highPerfAccum with_deviceProfile
         with_dprBucketIndex with_effectQualityLevel with_lastCSSW
         with_lastCSSH] in Hp, Hl, Hh. rewrite Hp, Hl, Hh.
    split; [apply Qle_refl | auto].
  - unfold forceBucket.
    match goal with
    | |- context [_applyRendererPixelRatio _ env ?s0] =>
        destruct (applyRendererPixelRatio_total Part001.DPR_BUCKETS env s0)
          as (s' & Hrun & _ & _ & _ & ((Hp & _ & Hl & Hh & _) & _) & _)
    end.
    exists s'. split; [exact Hrun|]. cbn [__deviceProfile _lowPerfAccum _highPerfAccum with_deviceProfile
         with_dprBucketIndex with_effectQualityLevel with_lastCSSW
         with_lastCSSH] in Hp, Hl, Hh. rewrite Hp, Hl, Hh.
    split; [apply Qle_refl | auto].
  - eexists. split; [reflexivity|]. unfold forceTier.
    match goal with
    | |- context [applyEffectQuality env ?s0] =>
        destruct (applyEffectQuality_frame env s0)
          as (((Hp & _ & Hl & Hh & _) & _) & _)
    end.
    cbn [__deviceProfile _lowPerfAccum _highPerfAccum with_deviceProfile
         with_dprBucketIndex with_effectQualityLevel with_lastCSSW
         with_lastCSSH] in Hp, Hl, Hh. rewrite Hp, Hl, Hh.
    split; [apply Qle_refl | auto].
  - unfold setBaseCap.
    match goal with
    | |- context [_applyRendererPixelRatio _ env ?s0] =>
        destruct (applyRendererPixelRatio_total Part001.DPR_BUCKETS env s0)
          as (s' & Hrun & _ & _ & _ & ((Hp & _ & Hl & Hh & _) & _) & _)
    end.
    exists s'. split; [exact Hrun|]. cbn [__deviceProfile _lowPerfAccum _highPerfAccum with_deviceProfile
         with_dprBucketIndex with_effectQualityLevel with_lastCSSW
         with_lastCSSH] in Hp, Hl, Hh. rewrite Hp, Hl, Hh.
    split; [reflexivity | auto].
Qed.

Lemma run_total (ops : list (Env * Part001.Operation)) : forall s,
  Forall (fun eo => Part001.elapsedTimeOk (snd eo)) ops ->
  Part001.accumulatorsExclusive s ->
  exists s',
    Part001.run Math_exp ops s = Some s' /\
    Part001.accumulatorsExclusive s'.
Proof.
  induction ops as [|[env op] ops IH]; intros s Hok Hs.
  - exists s. split; [reflexivity | exact Hs].
  - inversion Hok as [|? ? Hop Hrest]; subst.
    destruct (perform_total env op s) as (s1 & Hrun & _ & Hacc).
    cbn [Part001.run]. rewrite Hrun.
    apply IH; [exact Hrest | now apply Hacc].
Qed.

Lemma Forall_firstn_ok {A : Type} (P : A -> Prop) (k : nat) :
  forall l, Forall P l -> Forall P (firstn k l).
Proof.
  induction k as [|k IH]; intros l H; [constructor|].
  destruct H; cbn; constructor; auto.
Qed.

(** C4.  Once a resume event has armed the guard at time [t0], and until
    4500 ms have passed, the degrade path does nothing: [attemptDegrade]
    returns the state as it is; the frame that follows the event is
    discarded whatever its duration; and any frame in the degrading band
    taken while that guard is in force leaves both the tier index and the
    bucket index unchanged. *)
Theorem resume_guard_blocks_degrade
    (env : Env) (t0 now : Q) (s : State) :
  now < t0 + 4500 ->
  let g := Part001._triggerResumeGuard t0 s in
  Part001.attemptDegrade env now g = Some g /\
  (forall delta, exists g',
     Part001.perfAdaptiveUpdate Math_exp env now delta g = Some g' /\
     _effectQualityLevel g' = _effectQualityLevel s /\
     _dprBucketIndex g' = _dprBucketIndex s) /\
  (forall delta s1,
     _resumeGuardUntil s1 = t0 + 4500 ->
     Part001.inDegradingBand Math_exp delta s1 = true ->
     exists s1',
       Part001.perfAdaptiveUpdate Math_exp env now delta s1 = Some s1' /\
       _effectQualityLevel s1' = _effectQualityLevel s1 /\
       _dprBucketIndex s1' = _dprBucketIndex s1).
Proof.
  intros Hnow g.
  assert (Hg : now < _resumeGuardUntil g) by exact Hnow.
  split; [|split].
  - destruct (attemptDegrade_total env now g) as (g' & Hrun & _ & Hsame).
    rewrite Hrun, (Hsame Hg). reflexivity.
  - intros delta.
    destruct (perfAdaptiveUpdate_total env now delta g)
      as (g' & Hrun & _ & _ & Hkeep).
    exists g'. split; [exact Hrun|].
    apply Hkeep; [exact Hg|]. left. cbn. lia.
  - intros delta s1 Hguard Hband.
    destruct (perfAdaptiveUpdate_total env now delta s1)
      as (s1' & Hrun & _ & _ & Hkeep).
    exists s1'. split; [exact Hrun|].
    apply Hkeep; [rewrite Hguard; exact Hnow | now right].
Qed.

(** C5, as the code has it.  Every operation of a session returns, and
    every one of them except the [setBaseCap] override leaves
    [baseCapCurrent] at or above its previous value; [setBaseCap(v)] sets it
    to [v] clamped to the range 0.5 to [baseCapMax]. *)
Theorem baseCap_monotone_except_override
    (env : Env) (op : Part001.Operation) (s : State) :
  exists s',
    Part001.perform Math_exp env op s = Some s' /\
    match op with
    | Part001.OpSetBaseCap v =>
        baseCapCurrent (__deviceProfile s')
        = Qmin (Qmax 0.5 v) (baseCapMax (__deviceProfile s))
    | _ =>
        baseCapCurrent (__deviceProfile s)
        <= baseCapCurrent (__deviceProfile s')
    end.
Proof.
  destruct (perform_total env op s) as (s' & Hrun & Hcap & _).
  exists s'. split; [exact Hrun | exact Hcap].
Qed.

(** The two outer bands exclude each other: the drop threshold lies below
    the raise threshold. *)
Lemma bands_exclusive (delta : Q) (s : State) :
  Part001.inUpgradingBand Math_exp delta s = true ->
  Part001.inDegradingBand Math_exp delta s = false.
Proof.
  unfold Part001.inUpgradingBand, Part001.inDegradingBand.
  destruct (ndiv (Fin 1) (Fin (Part001.nextEma Math_exp delta s)))
    as [| | | q]; cbn [nge nle nlt]; try reflexivity; try discriminate.
  intros H. apply Qle_bool_iff in H. apply Qlt_bool_false_iff.
  unfold Part001.PERF_FPS_RAISE_THRESHOLD in H.
  unfold Part001.PERF_FPS_DROP_THRESHOLD. lra.
Qed.

(** What a frame that is not discarded does to the two accumulators, band
    by band. *)
Lemma perfAdaptiveUpdate_bands (env : Env) (now delta : Q) (s : State) :
  _resumeIgnoreFrames s = 0%nat ->
  exists s',
    Part001.perfAdaptiveUpdate Math_exp env now delta s = Some s' /\
    (Part001.inDegradingBand Math_exp delta s = true ->
     _highPerfAccum s' = 0 /\
     (_lowPerfAccum s + delta * 1000 < Part001.PERF_DEGRADE_MIN_DURATION ->
      _lowPerfAccum s' = _lowPerfAccum s + delta * 1000) /\
     (Part001.PERF_DEGRADE_MIN_DURATION <= _lowPerfAccum s + delta * 1000 ->
      _lowPerfAccum s' = 0)) /\
    (Part001.inUpgradingBand Math_exp delta s = true ->
     _lowPerfAccum s' = 0 /\
     (_highPerfAccum s + delta * 1000 < Part001.PERF_UPGRADE_MIN_DURATION ->
      _highPerfAccum s' = _highPerfAccum s + delta * 1000) /\
     (Part001.PERF_UPGRADE_MIN_DURATION <= _highPerfAccum s + delta * 1000 ->
      _highPerfAccum s' = 0)) /\
    (Part001.inDegradingBand Math_exp delta s = false ->
     Part001.inUpgradingBand Math_exp delta s = false ->
     _lowPerfAccum s' = Qmax 0 (_lowPerfAccum s - delta * 400) /\
     _highPerfAccum s' = Qmax 0 (_highPerfAccum s - delta * 400)).
Proof.
  intros Hi.
  pose proof (bands_exclusive delta s) as Hex.
  unfold Part001.perfAdaptiveUpdate, Part001.inDegradingBand,
    Part001.inUpgradingBand in *.
  rewrite Hi. cbn [Nat.ltb Nat.leb].
  cbn [_emaFrameTime with_emaFrameTime with_lastEmaFPS].
  set (fps := ndiv (Fin 1) (Fin (Part001.nextEma Math_exp delta s))) in *.
  destruct (nlt fps (Fin Part001.PERF_FPS_DROP_THRESHOLD)) eqn:Elow.
  - (* degrading band *)
    cbn [_lowPerfAccum _highPerfAccum with_lowPerfAccum with_highPerfAccum
         with_emaFrameTime with_lastEmaFPS].
    destruct (Qle_bool Part001.PERF_DEGRADE_MIN_DURATION
                (_lowPerfAccum s + delta * 1000)) eqn:Ed.
    + match goal with
      | |- context [Part001.attemptDegrade env now ?s0] =>
          destruct (attemptDegrade_total env now s0)
            as (s' & Hrun & Ha & _)
      end.
      rewrite Hrun. eexists. split; [reflexivity|].
      destruct Ha as (_ & _ & _ & Hh & _).
      cbn [_lowPerfAccum _highPerfAccum with_lowPerfAccum
           with_highPerfAccum] in *.
      split; [|split; [intros H; apply Hex in H; discriminate
                      | intros H; discriminate]].
      intros _. split; [exact Hh|].
      split; [|reflexivity].
      intros Hlt. apply Qle_bool_iff in Ed. lra.
    + eexists. split; [reflexivity|].
      cbn [_lowPerfAccum _highPerfAccum with_lowPerfAccum
           with_highPerfAccum with_emaFrameTime with_lastEmaFPS].
      split; [|split; [intros H; apply Hex in H; discriminate
                      | intros H; discriminate]].
      intros _. split; [reflexivity|]. split; [reflexivity|].
      intros Hge. apply Qle_bool_false_iff in Ed. lra.
  - destruct (nge fps (Fin Part001.PERF_FPS_RAISE_THRESHOLD)) eqn:Ehigh.
    + (* upgrading band *)
      cbn [_lowPerfAccum _highPerfAccum with_lowPerfAccum with_highPerfAccum
           with_emaFrameTime with_lastEmaFPS].
      destruct (Qle_bool Part001.PERF_UPGRADE_MIN_DURATION
                  (_highPerfAccum s + delta * 1000)) eqn:Ed.
      * match goal with
        | |- context [Part001.attemptUpgrade env now ?s0] =>
            destruct (attemptUpgrade_total env now s0)
              as (s' & Hrun & Ha & _)
        end.
        rewrite Hrun. eexists. split; [reflexivity|].
        destruct Ha as (_ & _ & Hl & _).
        cbn [_lowPerfAccum _highPerfAccum with_lowPerfAccum
             with_highPerfAccum with_deviceProfile] in *.
        split; [intros H; discriminate|].
        split; [|intros _ H; discriminate].
        intros _. split; [exact Hl|].
        split; [|reflexivity].
        intros Hlt. apply Qle_bool_iff in Ed. lra.
      * eexists. split; [reflexivity|].
        cbn [_lowPerfAccum _highPerfAccum with_lowPerfAccum
             with_highPerfAccum with_emaFrameTime with_lastEmaFPS].
        split; [intros H; discriminate|].
        split; [|intros _ H; discriminate].
        intros _. split; [reflexivity|]. split; [reflexivity|].
        intros Hge. apply Qle_bool_false_iff in Ed. lra.
    + (* neutral band *)
      eexists. split; [reflexivity|].
      cbn [_lowPerfAccum _highPerfAccum with_lowPerfAccum
           with_highPerfAccum with_emaFrameTime with_lastEmaFPS].
      split; [intros H; discriminate|].
      split; [intros H; discriminate|].
      intros _ _. split; reflexivity.
Qed.

(** C9.  What each kind of frame does to the two duration accumulators,
    and the invariant that follows.  A frame in the degrading band zeroes
    the high accumulator and adds its duration to the low one, which is
    reset too once it reaches the degrade duration and the degrade has been
    attempted.  A frame in the upgrading band does the same with the roles
    exchanged.  A frame in the neutral band lets both decay and keeps a
    zero accumulator at zero.  A frame discarded after a resume leaves both
    as they are, and a resume event zeroes both.  So through any session
    that starts from the initial state and whose frame deltas are elapsed
    times, hence not negative, every operation returns and after each of
    them at least one of the two accumulators is zero: the two are never
    positive together. *)
Theorem accumulators_never_both_positive
    (profile : DeviceProfile) (innerWidth innerHeight now0 pr0 : Q)
    (ops : list (Env * Part001.Operation)) (k : nat)
    (env : Env) (now delta : Q) (s : State) :
  (_resumeIgnoreFrames s = 0%nat -> 0 <= delta ->
   exists s1,
     Part001.perfAdaptiveUpdate Math_exp env now delta s = Some s1 /\
     (Part001.inDegradingBand Math_exp delta s = true ->
      _highPerfAccum s1 == 0 /\
      (_lowPerfAccum s + delta * 1000 < 4000 ->
       _lowPerfAccum s1 == _lowPerfAccum s + delta * 1000) /\
      (4000 <= _lowPerfAccum s + delta * 1000 -> _lowPerfAccum s1 == 0)) /\
     (Part001.inUpgradingBand Math_exp delta s = true ->
      _lowPerfAccum s1 == 0 /\
      (_highPerfAccum s + delta * 1000 < 6000 ->
       _highPerfAccum s1 == _highPerfAccum s + delta * 1000) /\
      (6000 <= _highPerfAccum s + delta * 1000 -> _highPerfAccum s1 == 0)) /\
     (Part001.inDegradingBand Math_exp delta s = false ->
      Part001.inUpgradingBand Math_exp delta s = false ->
      _lowPerfAccum s1 == Qmax 0 (_lowPerfAccum s - delta * 400) /\
      _highPerfAccum s1 == Qmax 0 (_highPerfAccum s - delta * 400) /\
      (_lowPerfAccum s == 0 -> _lowPerfAccum s1 == 0) /\
      (_highPerfAccum s == 0 -> _highPerfAccum s1 == 0))) /\
  ((0 < _resumeIgnoreFrames s)%nat ->
   exists s1,
     Part001.perfAdaptiveUpdate Math_exp env now delta s = Some s1 /\
     _lowPerfAccum s1 = _lowPerfAccum s /\
     _highPerfAccum s1 = _highPerfAccum s) /\
  (_lowPerfAccum (Part001._triggerResumeGuard now s) == 0 /\
   _highPerfAccum (Part001._triggerResumeGuard now s) == 0) /\
  (Forall (fun eo => Part001.elapsedTimeOk (snd eo)) ops ->
   exists s',
     Part001.run Math_exp (firstn k ops)
       (Part001.initialState profile innerWidth innerHeight now0 pr0)
     = Some s' /\
     Part001.accumulatorsExclusive s' /\
     ~ (0 < _lowPerfAccum s' /\ 0 < _highPerfAccum s')).
Proof.
  split; [|split; [|split]].
  - intros Hi Hd.
    destruct (perfAdaptiveUpdate_bands env now delta s Hi)
      as (s1 & Hrun & Hlow & Hhigh & Hmid).
    exists s1. split; [exact Hrun|].
    split; [|split].
    + intros Hb. destruct (Hlow Hb) as (H1 & H2 & H3).
      split; [rewrite H1; reflexivity|].
      split; intros H; [rewrite H2 by exact H | rewrite H3 by exact H];
        reflexivity.
    + intros Hb. destruct (Hhigh Hb) as (H1 & H2 & H3).
      split; [rewrite H1; reflexivity|].
      split; intros H; [rewrite H2 by exact H | rewrite H3 by exact H];
        reflexivity.
    + intros Hb1 Hb2. destruct (Hmid Hb1 Hb2) as (H1 & H2).
      split; [rewrite H1; reflexivity|].
      split; [rewrite H2; reflexivity|].
      split; intros Hz; [rewrite H1 | rewrite H2]; rewrite Hz;
        apply Qmax_zero_decay; apply Qmult_le_0_compat;
        [exact Hd | discriminate | exact Hd | discriminate].
  - intros Hi. unfold Part001.perfAdaptiveUpdate.
    apply Nat.ltb_lt in Hi. rewrite Hi.
    eexists. split; [reflexivity|]. split; reflexivity.
  - split; reflexivity.
  - intros Hok.
    destruct (run_total (firstn k ops)
                (Part001.initialState profile innerWidth innerHeight now0 pr0))
      as (s' & Hrun & Hacc).
    + now apply Forall_firstn_ok.
    + left. reflexivity.
    + exists s'. split; [exact Hrun|]. split; [exact Hacc|].
      intros [Hl Hh]. destruct Hacc as [H | H]; rewrite H in *; lra.
Qed.

End FrameFacts.

Lemma resume_guard_blocks_degrade_witness :
  2000 < 1000 + 4500 /\
  Part001.attemptDegrade Part001.exampleEnv 2000
    (Part001._triggerResumeGuard 1000 Part001.exampleStart)
  = Some (Part001._triggerResumeGuard 1000 Part001.exampleStart).
Proof.
  assert (H : 2000 < 1000 + 4500) by reflexivity.
  split; [exact H|].
  exact (proj1 (resume_guard_blocks_degrade Part001.exampleExp
                  Part001.exampleEnv 1000 2000 Part001.exampleStart H)).
Defined.

(** A half-second frame on the state whose high accumulator stands at
    3000 ms falls in the degrading band: it zeroes the high accumulator and
    puts the low one at 500 ms; and after the two frames of the slow
    session the low accumulator stands at 1000 ms, the high one at 0. *)
Lemma accumulators_never_both_positive_witness :
  _resumeIgnoreFrames Part001.exampleWarm = 0%nat /\
  0 <= 1 # 2 /\
  Part001.inDegradingBand Part001.exampleExp (1 # 2) Part001.exampleWarm
  = true /\
  Forall (fun eo => Part001.elapsedTimeOk (snd eo)) Part001.slowSession /\
  (exists s1,
     Part001.perfAdaptiveUpdate Part001.exampleExp Part001.exampleEnv
       500 (1 # 2) Part001.exampleWarm = Some s1 /\
     _highPerfAccum Part001.exampleWarm == 3000 /\
     _highPerfAccum s1 == 0 /\
     _lowPerfAccum s1 == 500) /\
  (exists s',
     Part001.run Part001.exampleExp (firstn 2 Part001.slowSession)
       Part001.exampleStart = Some s' /\
     Part001.accumulatorsExclusive s' /\
     _lowPerfAccum s' == 1000).
Proof.
  assert (Hi : _resumeIgnoreFrames Part001.exampleWarm = 0%nat)
    by reflexivity.
  assert (Hd : 0 <= 1 # 2) by discriminate.
  assert (Hb : Part001.inDegradingBand Part001.exampleExp (1 # 2)
                 Part001.exampleWarm = true) by reflexivity.
  assert (H : Forall (fun eo => Part001.elapsedTimeOk (snd eo))
                Part001.slowSession).
  { repeat constructor; cbn; discriminate. }
  split; [exact Hi|]. split; [exact Hd|]. split; [exact Hb|].
  split; [exact H|].
  destruct (accumulators_never_both_positive Part001.exampleExp
              Part001.exampleProfile 3840 2160 0 1
              Part001.slowSession 2
              Part001.exampleEnv 500 (1 # 2) Part001.exampleWarm)
    as (Hframe & _ & _ & Hsession).
  split.
  - destruct (Hframe Hi Hd) as (s1 & Hrun & Hlow & _).
    destruct (Hlow Hb) as (Hh & Hl & _).
    exists s1. split; [exact Hrun|]. split; [reflexivity|].
    split; [exact Hh|].
    rewrite Hl; reflexivity.
  - destruct (Hsession H) as (s' & Hrun & Hacc & _).
    exists s'. split; [exact Hrun|]. split; [exact Hacc|].
    vm_compute in Hrun. injection Hrun as <-. reflexivity.
Defined.

(** C5 as stated fails at the override.  On the example session, whose base
    cap starts at 1.18, [setBaseCap(1)] returns with the base cap at 1. *)
Lemma setBaseCap_lowers_counterexample :
  exists s',
    setBaseCap Part001.DPR_BUCKETS Part001.exampleEnv 1 Part001.exampleStart
    = Some s' /\
    baseCapCurrent (__deviceProfile Part001.exampleStart) == 1.18 /\
    baseCapCurrent (__deviceProfile s') == 1 /\
    ~ baseCapCurrent (__deviceProfile Part001.exampleStart)
      <= baseCapCurrent (__deviceProfile s').
Proof.
  eexists. split; [vm_compute; reflexivity|].
  split; [reflexivity|]. split; [reflexivity|].
  intros H. vm_compute in H. apply H. reflexivity.
Qed.

End ControllerFacts.

(* ------------------------------------------------------------------ *)
(** ** More on the quality ladder *)

Module LadderMore.

Import Controller LadderFacts.

Lemma applyEffectQuality_renderer (env : Env) (s : State) :
  rendererPixelRatio (applyEffectQuality env s) = rendererPixelRatio s.
Proof.
  unfold applyEffectQuality.
  destruct (nth_error _ _); [destruct (reedEffectPresent env)|]; reflexivity.
Qed.

Section Table.

Variable B : list Q.

Lemma currentTargetPixelRatio_ext (env : Env) (s s' : State) :
  __deviceProfile s' = __deviceProfile s ->
  _dprBucketIndex s' = _dprBucketIndex s ->
  currentTargetPixelRatio B env s' = currentTargetPixelRatio B env s.
Proof.
  intros Hp Hb. unfold currentTargetPixelRatio. now rewrite Hp, Hb.
Qed.

Lemma pushPixelRatio_sync (env : Env) (s : State) :
  rendererPixelRatio (pushPixelRatio B env s)
  = currentTargetPixelRatio B env (pushPixelRatio B env s).
Proof.
  destruct (pushPixelRatio_frame B env s) as [[[Hp _] _] Hb].
  rewrite (currentTargetPixelRatio_ext env s _ Hp Hb).
  unfold pushPixelRatio. rewrite applyEffectQuality_renderer. reflexivity.
Qed.

Lemma budgetLoop_flag (fuel : nat) : forall env s s' ch',
  budgetLoop B fuel env s true = Some (s', ch') -> ch' = true.
Proof.
  induction fuel as [|fuel IH]; intros env s s' ch' H; cbn in H;
    destruct (overBudget B env s); try discriminate;
    try (injection H; intros; subst; reflexivity).
  eapply IH; eassumption.
Qed.

Lemma budgetLoop_unchanged (fuel : nat) (env : Env) (s s' : State) :
  budgetLoop B fuel env s false = Some (s', false) -> s' = s.
Proof.
  intros H. destruct fuel as [|fuel]; cbn in H;
    destruct (overBudget B env s); try discriminate;
    try (injection H; intros; subst; reflexivity).
  apply budgetLoop_flag in H. discriminate.
Qed.

Lemma currentTargetPixelRatio_le (env : Env) (s : State) :
  currentTargetPixelRatio B env s <= MAX_EFFECTIVE_DPR /\
  currentTargetPixelRatio B env s <= nativePixelRatio env.
Proof.
  unfold currentTargetPixelRatio. split.
  - eapply Qle_trans; [apply Q.le_min_l | apply Q.le_min_r].
  - apply Q.le_min_r.
Qed.

End Table.

(** X5.  Whatever the bucket table, [_applyRendererPixelRatio()] returns
    with the renderer holding the target pixel ratio of the state it
    leaves, also when the pixel-budget check moved the bucket on the way;
    that ratio never exceeds the absolute ceiling 1.75 nor the device's
    native ratio. *)
Theorem renderer_follows_target (B : list Q) (env : Env) (s : State) :
  exists s',
    _applyRendererPixelRatio B env s = Some s' /\
    rendererPixelRatio s' = currentTargetPixelRatio B env s' /\
    rendererPixelRatio s' <= MAX_EFFECTIVE_DPR /\
    rendererPixelRatio s' <= nativePixelRatio env.
Proof.
  assert (Hsync : exists s',
             _applyRendererPixelRatio B env s = Some s' /\
             rendererPixelRatio s' = currentTargetPixelRatio B env s').
  { unfold _applyRendererPixelRatio, callDepth.
    set (s0 := pushPixelRatio B env s).
    destruct (budgetLoop_spec B (length B) env s0 false)
      as (b' & ch' & Hrun & _ & _ & Hob); [lia|].
    cbn [enforcePixelBudget]. rewrite Hrun. destruct ch'.
    - rewrite budgetLoop_done by (now rewrite overBudget_push).
      eexists. split; [reflexivity | apply pushPixelRatio_sync].
    - apply budgetLoop_unchanged in Hrun. rewrite Hrun.
      eexists. split; [reflexivity | apply pushPixelRatio_sync]. }
  destruct Hsync as (s' & Hrun & Hs).
  exists s'. split; [exact Hrun|]. split; [exact Hs|].
  rewrite Hs. apply currentTargetPixelRatio_le.
Qed.

(** X4.  Whatever the bucket table, [enforcePixelBudget()] returns with the
    projected framebuffer within the pixel budget or the bucket at the end
    of the table.  It moves the bucket index only upwards and touches
    neither the effect tier, the device profile nor the CSS size. *)
Theorem pixel_budget_postcondition (B : list Q) (env : Env) (s : State) :
  exists s',
    enforcePixelBudget B callDepth env s = Some s' /\
    (internalPixels B env s' <= PIXEL_BUDGET
     \/ (length B - 1 <= _dprBucketIndex s')%nat) /\
    (_dprBucketIndex s <= _dprBucketIndex s')%nat /\
    _effectQualityLevel s' = _effectQualityLevel s /\
    __deviceProfile s' = __deviceProfile s /\
    _lastCSSW s' = _lastCSSW s /\ _lastCSSH s' = _lastCSSH s.
Proof.
  unfold callDepth.
  destruct (enforcePixelBudget_total B 0 env s)
    as (s' & Hrun & Hob & Hle & _ & ((Hp & _ & _ & _ & _ & Hw & Hh & _)
                                     & Ht & _)).
  exists s'. split; [exact Hrun|]. split.
  - unfold overBudget in Hob. apply andb_false_iff in Hob.
    destruct Hob as [H | H].
    + left. now apply Qlt_bool_false_iff.
    + right. now apply Nat.ltb_ge.
  - repeat split; assumption.
Qed.

End LadderMore.

(* ------------------------------------------------------------------ *)
(** ** Sessions of the part_001 controller *)

Module SessionFacts.

Import Controller SessionModel LadderFacts LadderMore ControllerFacts.

Lemma sameDevice_refl (s : State) : sameDevice s s.
Proof. unfold sameDevice. auto. Qed.

Lemma sameDevice_trans (s1 s2 s3 : State) :
  sameDevice s1 s2 -> sameDevice s2 s3 -> sameDevice s1 s3.
Proof. unfold sameDevice. intuition congruence. Qed.

Lemma sameDevice_profile (s s' : State) :
  __deviceProfile s' = __deviceProfile s -> sameDevice s s'.
Proof. intros H. unfold sameDevice. now rewrite H. Qed.

Section Table.

Variable B : list Q.

Lemma applyRendererPixelRatio_keeps (env : Env) (s : State) :
  exists s',
    _applyRendererPixelRatio B env s = Some s' /\
    sameControl s s' /\
    (_dprBucketIndex s <= _dprBucketIndex s')%nat /\
    (wellFormed B s -> wellFormed B s').
Proof.
  destruct (applyRendererPixelRatio_total B env s)
    as (s' & Hrun & _ & Hle & Hub & Hc & _).
  exists s'. split; [exact Hrun|]. split; [exact Hc|]. split; [exact Hle|].
  destruct Hc as [[Hp _] [Ht _]].
  intros (H1 & H2 & H3). unfold wellFormed. rewrite Hp, Ht.
  split; [exact H1|]. split; [lia | exact H3].
Qed.

(** A degrade step, whatever its branch. *)
Lemma degradeOneStep_keeps (env : Env) (now : Q) (s : State) :
  exists s',
    degradeOneStep B env now s = Some s' /\
    __deviceProfile s' = __deviceProfile s /\
    (wellFormed B s -> wellFormed B s') /\
    (_effectQualityLevel s <= _effectQualityLevel s')%nat /\
    (_dprBucketIndex s <= _dprBucketIndex s')%nat /\
    (s' = s \/ _lastPerfChangeTime s' = now) /\
    (_effectQualityLevel s' = _effectQualityLevel s
     \/ (_dprBucketIndex s' = _dprBucketIndex s
         /\ _effectQualityLevel s' = S (_effectQualityLevel s))).
Proof.
  unfold degradeOneStep.
  destruct (_effectQualityLevel s <? length EFFECT_QUALITY_LEVELS - 1)%nat
    eqn:Et.
  - apply Nat.ltb_lt in Et. eexists. split; [reflexivity|].
    destruct (applyEffectQuality_frame env
                (with_effectQualityLevel (S (_effectQualityLevel s)) s))
      as [[[Hp _] [Ht _]] Hb].
    cbn [__deviceProfile _effectQualityLevel _dprBucketIndex
         _lastPerfChangeTime with_lastPerfChangeTime
         with_effectQualityLevel] in *.
    split; [exact Hp|]. split.
    { intros (H1 & H2 & H3). unfold wellFormed.
      cbn [__deviceProfile _effectQualityLevel _dprBucketIndex
           with_lastPerfChangeTime].
      rewrite Hp, Ht, Hb. split; [lia|]. split; assumption. }
    rewrite Ht, Hb.
    split; [lia|]. split; [lia|]. split; [right; reflexivity|].
    right. split; reflexivity.
  - destruct (_dprBucketIndex s <? length B - 1)%nat eqn:Eb.
    + apply Nat.ltb_lt in Eb.
      destruct (applyRendererPixelRatio_total B env
                  (with_dprBucketIndex (S (_dprBucketIndex s)) s))
        as (s1 & Hrun & _ & Hle & Hub & [[Hp _] [Ht _]] & _).
      rewrite Hrun. eexists. split; [reflexivity|].
      cbn [__deviceProfile _effectQualityLevel _dprBucketIndex
           _lastPerfChangeTime with_lastPerfChangeTime
           with_dprBucketIndex] in *.
      split; [exact Hp|]. split.
      { intros (H1 & H2 & H3). unfold wellFormed.
        cbn [__deviceProfile _effectQualityLevel _dprBucketIndex
             with_lastPerfChangeTime].
        rewrite Hp, Ht. split; [exact H1|]. split; [lia | exact H3]. }
      rewrite Ht.
      split; [lia|]. split; [lia|]. split; [right; reflexivity|].
      left. reflexivity.
    + exists s. split; [reflexivity|]. split; [reflexivity|].
      split; [auto|]. split; [lia|]. split; [lia|].
      split; left; reflexivity.
Qed.

(** An upgrade step, whatever its branch. *)
Lemma upgradeOneStep_keeps (env : Env) (now : Q) (s : State) :
  exists s',
    upgradeOneStep B env now s = Some s' /\
    sameDevice s s' /\
    (wellFormed B s -> wellFormed B s') /\
    (_effectQualityLevel s' <= _effectQualityLevel s)%nat /\
    (s' = s \/ _lastPerfChangeTime s' = now) /\
    (_effectQualityLevel s' = _effectQualityLevel s
     \/ (_dprBucketIndex s' = _dprBucketIndex s
         /\ S (_effectQualityLevel s') = _effectQualityLevel s)).
Proof.
  unfold upgradeOneStep.
  destruct (0 <? _dprBucketIndex s)%nat eqn:Eb.
  - apply Nat.ltb_lt in Eb.
    destruct (applyRendererPixelRatio_total B env
                (with_dprBucketIndex (pred (_dprBucketIndex s)) s))
      as (s1 & Hrun & _ & Hle & Hub & [[Hp _] [Ht _]] & _).
    rewrite Hrun. eexists. split; [reflexivity|].
    cbn [__deviceProfile _effectQualityLevel _dprBucketIndex
         _lastPerfChangeTime with_lastPerfChangeTime
         with_dprBucketIndex] in *.
    split; [now apply sameDevice_profile|]. split.
    { intros (H1 & H2 & H3). unfold wellFormed.
      cbn [__deviceProfile _effectQualityLevel _dprBucketIndex
           with_lastPerfChangeTime].
      rewrite Hp, Ht. split; [exact H1|]. split; [lia | exact H3]. }
    rewrite Ht. split; [lia|]. split; [right; reflexivity|].
    left. reflexivity.
  - destruct (0 <? _effectQualityLevel s)%nat eqn:Et.
    + apply Nat.ltb_lt in Et. eexists. split; [reflexivity|].
      destruct (applyEffectQuality_frame env
                  (with_effectQualityLevel (pred (_effectQualityLevel s)) s))
        as [[[Hp _] [Ht _]] Hb].
      cbn [__deviceProfile _effectQualityLevel _dprBucketIndex
           _lastPerfChangeTime with_lastPerfChangeTime
           with_effectQualityLevel] in *.
      split; [now apply sameDevice_profile|]. split.
      { intros (H1 & H2 & H3). unfold wellFormed.
        cbn [__deviceProfile _effectQualityLevel _dprBucketIndex
             with_lastPerfChangeTime].
        rewrite Hp, Ht, Hb. split; [lia|]. split; assumption. }
      rewrite Ht, Hb. split; [lia|]. split; [right; reflexivity|].
      right. split; [reflexivity | lia].
    + set (p := __deviceProfile s).
      destruct (Category_eqb (category p) desktop
                && Qlt_bool (baseCapCurrent p) (baseCapMax p)) eqn:Ec.
      * set (p' := with_baseCapCurrent
                     (Qmin (baseCapMax p) (baseCapCurrent p + 0.1)) p).
        destruct (applyRendererPixelRatio_total B env
                    (with_deviceProfile p' s))
          as (s1 & Hrun & _ & Hle & Hub & [[Hp _] [Ht _]] & _).
        rewrite Hrun. eexists. split; [reflexivity|].
        cbn [__deviceProfile _effectQualityLevel _dprBucketIndex
             _lastPerfChangeTime with_lastPerfChangeTime
             with_deviceProfile] in *.
        split.
        { unfold sameDevice. cbn [__deviceProfile with_lastPerfChangeTime].
          rewrite Hp. repeat split. }
        split.
        { intros (H1 & H2 & H3). unfold wellFormed.
          cbn [__deviceProfile _effectQualityLevel _dprBucketIndex
               with_lastPerfChangeTime].
          rewrite Hp, Ht. split; [exact H1|]. split; [lia|].
          unfold p'. cbn [baseCapCurrent baseCapMax with_baseCapCurrent].
          apply Q.le_min_l. }
        rewrite Ht. split; [lia|]. split; [right; reflexivity|].
        left. reflexivity.
      * exists s. split; [reflexivity|]. split; [apply sameDevice_refl|].
        split; [auto|]. split; [lia|]. split; left; reflexivity.
Qed.

End Table.

Lemma clampIndex_le (i : Z) (len : nat) : (clampIndex i len <= len - 1)%nat.
Proof. unfold clampIndex. lia. Qed.

(** [detectDeviceProfile] orders its caps and keeps them within the
    absolute ceiling and the device's own pixel ratio. *)
Lemma detectDeviceProfile_caps (d : Part001.DeviceProbe) :
  let p := Part001.detectDeviceProfile d in
  baseCapInitial p <= baseCapMax p /\
  baseCapMax p <= MAX_EFFECTIVE_DPR /\
  baseCapMax p <= Part001.probePixelRatio d /\
  baseCapCurrent p = baseCapInitial p /\
  (0 < Part001.probePixelRatio d -> 0 < baseCapInitial p).
Proof.
  destruct d as [mob hi tab air large dpr].
  unfold Part001.detectDeviceProfile.
  cbn [Part001.isMobile Part001.isHighEndPhone Part001.isTablet
       Part001.isM1AirLike Part001.probeLargeDisplay
       Part001.probePixelRatio].
  destruct mob, hi, tab, air, large;
    cbn [category baseCapInitial baseCapMax baseCapCurrent largeDisplay];
    repeat match goal with |- _ /\ _ => split end;
    first
      [ reflexivity
      | apply Q.le_min_r
      | apply Q.min_le_compat_r; discriminate
      | eapply Qle_trans; [apply Q.le_min_l | discriminate]
      | intros Hd; apply Q.min_glb_lt; [reflexivity | exact Hd] ].
Qed.

Lemma attemptDegrade_keeps (env : Env) (now : Q) (s : State) :
  exists s',
    Part001.attemptDegrade env now s = Some s' /\
    __deviceProfile s' = __deviceProfile s /\
    (wellFormed Part001.DPR_BUCKETS s -> wellFormed Part001.DPR_BUCKETS s') /\
    (_effectQualityLevel s <= _effectQualityLevel s')%nat /\
    (_dprBucketIndex s <= _dprBucketIndex s')%nat /\
    (s' = s \/ _lastPerfChangeTime s' = now) /\
    (now - _lastPerfChangeTime s < Part001._effectiveDebounceMs now s ->
     s' = s) /\
    (_effectQualityLevel s' = _effectQualityLevel s
     \/ (_dprBucketIndex s' = _dprBucketIndex s
         /\ _effectQualityLevel s' = S (_effectQualityLevel s))).
Proof.
  assert (Hid : exists s',
             Some s = Some s' /\
             __deviceProfile s' = __deviceProfile s /\
             (wellFormed Part001.DPR_BUCKETS s ->
              wellFormed Part001.DPR_BUCKETS s') /\
             (_effectQualityLevel s <= _effectQualityLevel s')%nat /\
             (_dprBucketIndex s <= _dprBucketIndex s')%nat /\
             (s' = s \/ _lastPerfChangeTime s' = now) /\
             (now - _lastPerfChangeTime s
              < Part001._effectiveDebounceMs now s -> s' = s) /\
             (_effectQualityLevel s' = _effectQualityLevel s
              \/ (_dprBucketIndex s' = _dprBucketIndex s
                  /\ _effectQualityLevel s' = S (_effectQualityLevel s)))).
  { exists s. split; [reflexivity|]. split; [reflexivity|].
    split; [auto|]. split; [lia|]. split; [lia|].
    split; [auto|]. split; auto. }
  unfold Part001.attemptDegrade.
  destruct (Qlt_bool now (_resumeGuardUntil s)); [exact Hid|].
  destruct (Qlt_bool (now - _lastPerfChangeTime s)
              (Part001._effectiveDebounceMs now s)) eqn:Ed; [exact Hid|].
  destruct (degradeOneStep_keeps Part001.DPR_BUCKETS env now s)
    as (s' & Hrun & Hp & Hwf & Ht & Hb & Hl & Hx).
  exists s'. split; [exact Hrun|]. split; [exact Hp|]. split; [exact Hwf|].
  split; [exact Ht|]. split; [exact Hb|]. split; [exact Hl|].
  split; [|exact Hx].
  intros H. apply Qlt_bool_iff in H. congruence.
Qed.

Lemma attemptUpgrade_keeps (env : Env) (now : Q) (s : State) :
  exists s',
    Part001.attemptUpgrade env now s = Some s' /\
    sameDevice s s' /\
    (wellFormed Part001.DPR_BUCKETS s -> wellFormed Part001.DPR_BUCKETS s') /\
    (_effectQualityLevel s' <= _effectQualityLevel s)%nat /\
    (s' = s \/ _lastPerfChangeTime s' = now) /\
    (now - _lastPerfChangeTime s < Part001._effectiveDebounceMs now s ->
     s' = s) /\
    (_effectQualityLevel s' = _effectQualityLevel s
     \/ (_dprBucketIndex s' = _dprBucketIndex s
         /\ S (_effectQualityLevel s') = _effectQualityLevel s)).
Proof.
  unfold Part001.attemptUpgrade.
  destruct (Qlt_bool (now - _lastPerfChangeTime s)
              (Part001._effectiveDebounceMs now s)) eqn:Ed.
  - exists s. split; [reflexivity|]. split; [apply sameDevice_refl|].
    split; [auto|]. split; [lia|]. split; [auto|]. split; auto.
  - destruct (upgradeOneStep_keeps Part001.DPR_BUCKETS env now s)
      as (s' & Hrun & Hp & Hwf & Ht & Hl & Hx).
    exists s'. split; [exact Hrun|]. split; [exact Hp|].
    split; [exact Hwf|]. split; [exact Ht|]. split; [exact Hl|].
    split; [|exact Hx].
    intros H. apply Qlt_bool_iff in H. congruence.
Qed.

Section FrameFacts.

Variable Math_exp : Q -> Q.

Lemma perfAdaptiveUpdate_keeps (env : Env) (now delta : Q) (s : State) :
  exists s',
    Part001.perfAdaptiveUpdate Math_exp env now delta s = Some s' /\
    sameDevice s s' /\
    (wellFormed Part001.DPR_BUCKETS s -> wellFormed Part001.DPR_BUCKETS s') /\
    (_effectQualityLevel s' = _effectQualityLevel s
     \/ (_dprBucketIndex s' = _dprBucketIndex s
         /\ (_effectQualityLevel s' = S (_effectQualityLevel s)
             \/ S (_effectQualityLevel s') = _effectQualityLevel s))).
Proof.
  unfold Part001.perfAdaptiveUpdate.
  destruct (0 <? _resumeIgnoreFrames s)%nat.
  { eexists. split; [reflexivity|]. split; [apply sameDevice_profile; reflexivity|].
    split; [intros H; exact H | left; reflexivity]. }
  cbn [_emaFrameTime with_emaFrameTime with_lastEmaFPS].
  set (fps := ndiv (Fin 1) (Fin (Part001.nextEma Math_exp delta s))).
  destruct (nlt fps (Fin Part001.PERF_FPS_DROP_THRESHOLD)).
  - match goal with
    | |- context [if Qle_bool ?a ?b then _ else _] =>
        destruct (Qle_bool a b)
    end.
    + match goal with
      | |- context [Part001.attemptDegrade env now ?s0] =>
          destruct (attemptDegrade_keeps env now s0)
            as (s' & Hrun & Hp & Hwf & _ & _ & _ & _ & Hx)
      end.
      rewrite Hrun. eexists. split; [reflexivity|].
      split; [now apply sameDevice_profile|].
      split; [exact Hwf|].
      destruct Hx as [Hx | [Hx1 Hx2]]; [left; exact Hx|].
      right. split; [exact Hx1 | left; exact Hx2].
    + eexists. split; [reflexivity|]. split; [apply sameDevice_profile; reflexivity|].
      split; [intros H; exact H | left; reflexivity].
  - destruct (nge fps (Fin Part001.PERF_FPS_RAISE_THRESHOLD)).
    + match goal with
      | |- context [if Qle_bool ?a ?b then _ else _] =>
          destruct (Qle_bool a b)
      end.
      * match goal with
        | |- context [Part001.attemptUpgrade env now ?s0] =>
            destruct (attemptUpgrade_keeps env now s0)
              as (s' & Hrun & Hp & Hwf & _ & _ & _ & Hx)
        end.
        rewrite Hrun. eexists. split; [reflexivity|].
        split; [exact Hp|]. split; [exact Hwf|].
        destruct Hx as [Hx | [Hx1 Hx2]]; [left; exact Hx|].
        right. split; [exact Hx1 | right; exact Hx2].
      * eexists. split; [reflexivity|]. split; [apply sameDevice_profile; reflexivity|].
        split; [intros H; exact H | left; reflexivity].
    + eexists. split; [reflexivity|]. split; [apply sameDevice_profile; reflexivity|].
      split; [intros H; exact H | left; reflexivity].
Qed.

Lemma perform_keeps (env : Env) (op : Part001.Operation) (s : State) :
  exists s',
    Part001.perform Math_exp env op s = Some s' /\
    sameDevice s s' /\
    (wellFormed Part001.DPR_BUCKETS s -> wellFormed Part001.DPR_BUCKETS s').
Proof.
  destruct op as [now delta | now | now | | now | w h | i | i | v];
    cbn [Part001.perform].
  - destruct (perfAdaptiveUpdate_keeps env now delta s)
      as (s' & Hrun & Hd & Hwf & _).
    exists s'. auto.
  - destruct (attemptDegrade_keeps env now s) as (s' & Hrun & Hp & Hwf & _).
    exists s'. split; [exact Hrun|].
    split; [now apply sameDevice_profile | exact Hwf].
  - destruct (attemptUpgrade_keeps env now s) as (s' & Hrun & Hd & Hwf & _).
    exists s'. auto.
  - unfold Part001.enforcePixelBudget, callDepth.
    destruct (enforcePixelBudget_total Part001.DPR_BUCKETS 0 env s)
      as (s' & Hrun & _ & _ & Hub & [[Hp _] [Ht _]]).
    exists s'. split; [exact Hrun|].
    split; [now apply sameDevice_profile|].
    intros (H1 & H2 & H3). unfold wellFormed. rewrite Hp, Ht.
    split; [exact H1|]. split; [lia | exact H3].
  - eexists. split; [reflexivity|].
    split; [apply sameDevice_profile; reflexivity | intros H; exact H].
  - unfold resizeRendererAndComposer.
    destruct (applyRendererPixelRatio_keeps Part001.DPR_BUCKETS env
                (with_lastCSSH h (with_lastCSSW w s)))
      as (s1 & Hrun & [[Hp _] _] & _ & Hwf).
    rewrite Hrun. unfold callDepth.
    destruct (enforcePixelBudget_total Part001.DPR_BUCKETS 0 env s1)
      as (s' & Hrun' & _ & _ & Hub & [[Hp' _] [Ht' _]]).
    exists s'. split; [exact Hrun'|]. split.
    + apply sameDevice_profile. rewrite Hp', Hp. reflexivity.
    + intros H. destruct (Hwf H) as (H1 & H2 & H3).
      unfold wellFormed. rewrite Hp', Ht'.
      split; [exact H1|]. split; [lia | exact H3].
  - unfold forceBucket.
    match goal with
    | |- context [_applyRendererPixelRatio _ env ?s0] =>
        destruct (applyRendererPixelRatio_keeps Part001.DPR_BUCKETS env s0)
          as (s' & Hrun & [[Hp _] _] & _ & Hwf)
    end.
    exists s'. split; [exact Hrun|].
    split; [now apply sameDevice_profile|].
    intros (H1 & _ & H3). apply Hwf. unfold wellFormed.
    cbn [__deviceProfile _effectQualityLevel _dprBucketIndex
         with_dprBucketIndex].
    split; [exact H1|]. split; [apply clampIndex_le | exact H3].
  - eexists. split; [reflexivity|]. unfold forceTier.
    match goal with
    | |- context [applyEffectQuality env ?s0] =>
        destruct (applyEffectQuality_frame env s0) as [[[Hp _] [Ht _]] Hb]
    end.
    split; [now apply sameDevice_profile|].
    intros (_ & H2 & H3). unfold wellFormed. rewrite Hp, Ht, Hb.
    cbn [__deviceProfile _effectQualityLevel _dprBucketIndex
         with_effectQualityLevel].
    split; [apply clampIndex_le|]. split; assumption.
  - unfold setBaseCap.
    match goal with
    | |- context [_applyRendererPixelRatio _ env ?s0] =>
        destruct (applyRendererPixelRatio_keeps Part001.DPR_BUCKETS env s0)
          as (s' & Hrun & [[Hp _] _] & _ & Hwf)
    end.
    exists s'. split; [exact Hrun|]. split.
    + unfold sameDevice. rewrite Hp. repeat split.
    + intros (H1 & H2 & _). apply Hwf. unfold wellFormed.
      cbn [__deviceProfile _effectQualityLevel _dprBucketIndex
           with_deviceProfile baseCapCurrent baseCapMax
           with_baseCapCurrent].
      split; [exact H1|]. split; [exact H2 | apply Q.le_min_r].
Qed.

Lemma run_keeps (ops : list (Env * Part001.Operation)) : forall s,
  exists s',
    Part001.run Math_exp ops s = Some s' /\
    sameDevice s s' /\
    (wellFormed Part001.DPR_BUCKETS s -> wellFormed Part001.DPR_BUCKETS s').
Proof.
  induction ops as [|[env op] ops IH]; intros s.
  - exists s. split; [reflexivity|]. split; [apply sameDevice_refl | auto].
  - destruct (perform_keeps env op s) as (s1 & Hrun & Hd & Hwf).
    destruct (IH s1) as (s' & Hrun' & Hd' & Hwf').
    exists s'. cbn [Part001.run]. rewrite Hrun.
    split; [exact Hrun'|].
    split; [eapply sameDevice_trans; eassumption | auto].
Qed.

Lemma initialState_wellFormed (d : Part001.DeviceProbe)
    (innerWidth innerHeight now pr0 : Q) :
  wellFormed Part001.DPR_BUCKETS
    (Part001.initialState (Part001.detectDeviceProfile d)
       innerWidth innerHeight now pr0).
Proof.
  destruct (detectDeviceProfile_caps d) as (H1 & _ & _ & H4 & _).
  unfold wellFormed.
  cbn [Part001.initialState __deviceProfile _effectQualityLevel
       _dprBucketIndex].
  split; [cbn; lia|]. split; [cbn; lia|].
  rewrite H4. exact H1.
Qed.

(** X2.  Through any session that starts from a detected device profile,
    with integers passed to [forceTier] and [forceBucket] and finite
    numbers to [setBaseCap], every operation returns, [baseCapCurrent]
    stays at or below [baseCapMax], and the category, [baseCapInitial] and
    [baseCapMax] of the profile never change; [baseCapMax] itself is within
    the absolute ceiling 1.75 and the device's pixel ratio at detection.
    The clamp of [setBaseCap] is what keeps a finite argument at or below
    [baseCapMax]; it does not validate its argument, and a NaN (or missing)
    one is stored as NaN. *)
Theorem baseCap_within_max
    (d : Part001.DeviceProbe) (innerWidth innerHeight now pr0 : Q)
    (ops : list (Env * Part001.Operation)) (v capMax : Q) :
  let p := Part001.detectDeviceProfile d in
  (exists s',
     Part001.run Math_exp ops
       (Part001.initialState p innerWidth innerHeight now pr0) = Some s' /\
     baseCapCurrent (__deviceProfile s') <= baseCapMax p /\
     category (__deviceProfile s') = category p /\
     baseCapInitial (__deviceProfile s') = baseCapInitial p /\
     baseCapMax (__deviceProfile s') = baseCapMax p /\
     baseCapMax p <= MAX_EFFECTIVE_DPR /\
     baseCapMax p <= Part001.probePixelRatio d) /\
  OverrideArguments.clampedCapValue (Fin v) capMax
  = Fin (Qmin (Qmax 0.5 v) capMax) /\
  Qmin (Qmax 0.5 v) capMax <= capMax /\
  OverrideArguments.clampedCapValue NaN capMax = NaN.
Proof.
  intros p. split; [|split; [reflexivity|split; [apply Q.le_min_r|reflexivity]]].
  destruct (run_keeps ops
              (Part001.initialState p innerWidth innerHeight now pr0))
    as (s' & Hrun & (Hc & Hi & Hm) & Hwf).
  destruct (Hwf (initialState_wellFormed d innerWidth innerHeight now pr0))
    as (_ & _ & Hcap).
  destruct (detectDeviceProfile_caps d) as (_ & H2 & H3 & _).
  cbn [Part001.initialState __deviceProfile] in Hc, Hi, Hm.
  exists s'. split; [exact Hrun|]. rewrite Hm in Hcap.
  split; [exact Hcap|]. split; [exact Hc|]. split; [exact Hi|].
  split; [exact Hm|]. split; [exact H2 | exact H3].
Qed.

(** The typed clamp is the clamp of the code on the integers. *)
Lemma clampedIndexValue_integer (i : Z) (len : nat) :
  (0 < len)%nat ->
  OverrideArguments.clampedIndexValue (Fin (inject_Z i)) len
  =Q= inject_Z (Z.of_nat (clampIndex i len)).
Proof.
  intros Hlen. unfold OverrideArguments.clampedIndexValue, clampIndex.
  cbn [nmax nmin num_is].
  rewrite Z2Nat.id by lia.
  assert (Hmax : Qmax 0 (inject_Z i) == inject_Z (Z.max 0 i)).
  { destruct (Z.le_ge_cases 0 i) as [H | H].
    - rewrite Z.max_r by exact H. apply Q.max_r.
      change 0 with (inject_Z 0). now rewrite <- Zle_Qle.
    - rewrite Z.max_l by exact H. apply Q.max_l.
      change 0 with (inject_Z 0). now rewrite <- Zle_Qle. }
  rewrite Hmax.
  assert (Hone : inject_Z (Z.of_nat len) - 1 == inject_Z (Z.of_nat len - 1)).
  { unfold Z.sub. rewrite inject_Z_plus. reflexivity. }
  rewrite Hone.
  destruct (Z.le_ge_cases (Z.max 0 i) (Z.of_nat len - 1)) as [H | H].
  - rewrite Z.min_l by exact H. apply Q.min_l. now rewrite <- Zle_Qle.
  - rewrite Z.min_r by exact H. apply Q.min_r. now rewrite <- Zle_Qle.
Qed.

(** X3.  Through any session that starts from a detected device profile,
    the effect tier index stays within 0..3 and the DPR bucket index within
    0..2, the bounds of the two tables, whatever integers are passed to the
    [forceTier] and [forceBucket] overrides.  On an integer the clamp of the
    overrides yields an index of the table; it does not round or validate,
    though: a fractional argument within the range is stored as it is, and
    a NaN (or missing) one as NaN, neither of which is an index. *)
Theorem ladder_indices_in_bounds
    (d : Part001.DeviceProbe) (innerWidth innerHeight now pr0 : Q)
    (ops : list (Env * Part001.Operation))
    (i : Z) (q : Q) (len : nat) :
  (exists s',
     Part001.run Math_exp ops
       (Part001.initialState (Part001.detectDeviceProfile d)
          innerWidth innerHeight now pr0) = Some s' /\
     (_effectQualityLevel s' <= 3)%nat /\
     (_dprBucketIndex s' <= 2)%nat /\
     (exists tier, nth_error EFFECT_QUALITY_LEVELS (_effectQualityLevel s')
                   = Some tier) /\
     (exists m, nth_error Part001.DPR_BUCKETS (_dprBucketIndex s') = Some m))
  /\
  ((0 < len)%nat ->
   OverrideArguments.clampedIndexValue (Fin (inject_Z i)) len
   =Q= inject_Z (Z.of_nat (clampIndex i len)) /\
   (clampIndex i len < len)%nat) /\
  (0 <= q <= inject_Z (Z.of_nat len) - 1 ->
   OverrideArguments.clampedIndexValue (Fin q) len =Q= q) /\
  OverrideArguments.clampedIndexValue NaN len = NaN.
Proof.
  split; [|split; [|split; [|reflexivity]]].
  - destruct (run_keeps ops
                (Part001.initialState (Part001.detectDeviceProfile d)
                   innerWidth innerHeight now pr0))
      as (s' & Hrun & _ & Hwf).
    destruct (Hwf (initialState_wellFormed d innerWidth innerHeight now pr0))
      as (Ht & Hb & _).
    rewrite tier_floor in Ht. rewrite bucket_floor_001 in Hb.
    exists s'. split; [exact Hrun|]. split; [exact Ht|]. split; [exact Hb|].
    split.
    + destruct (nth_error EFFECT_QUALITY_LEVELS (_effectQualityLevel s'))
        eqn:E; [eauto|].
      apply nth_error_None in E. cbn in E. lia.
    + destruct (nth_error Part001.DPR_BUCKETS (_dprBucketIndex s'))
        eqn:E; [eauto|].
      apply nth_error_None in E. cbn in E. lia.
  - intros Hlen. split; [now apply clampedIndexValue_integer|].
    unfold clampIndex. lia.
  - intros [H0 H1]. unfold OverrideArguments.clampedIndexValue.
    cbn [nmax nmin num_is].
    rewrite Q.max_r by exact H0. now apply Q.min_l.
Qed.

(** X9.  One frame moves the ladder by at most one step: the tier index
    changes by at most one, and a frame that changes the tier leaves the
    bucket index alone. *)
Theorem frame_takes_one_step (env : Env) (now delta : Q) (s : State) :
  exists s',
    Part001.perfAdaptiveUpdate Math_exp env now delta s = Some s' /\
    (_effectQualityLevel s' = _effectQualityLevel s
     \/ (_dprBucketIndex s' = _dprBucketIndex s
         /\ (_effectQualityLevel s' = S (_effectQualityLevel s)
             \/ S (_effectQualityLevel s') = _effectQualityLevel s))).
Proof.
  destruct (perfAdaptiveUpdate_keeps env now delta s)
    as (s' & Hrun & _ & _ & Hx).
  exists s'. split; [exact Hrun | exact Hx].
Qed.

Lemma ignored_frames (fs : list (Env * (Q * Q))) : forall s,
  (length fs <= _resumeIgnoreFrames s)%nat ->
  Part001.run Math_exp
    (map (fun f => (fst f, Part001.OpFrame (fst (snd f)) (snd (snd f)))) fs)
    s
  = Some (with_resumeIgnoreFrames (_resumeIgnoreFrames s - length fs) s).
Proof.
  induction fs as [|[env [now delta]] fs IH]; intros s Hlen.
  - cbn. rewrite Nat.sub_0_r. destruct s; reflexivity.
  - cbn [map fst snd Part001.run Part001.perform length] in *.
    unfold Part001.perfAdaptiveUpdate.
    destruct (0 <? _resumeIgnoreFrames s)%nat eqn:E;
      [|apply Nat.ltb_ge in E; lia].
    apply Nat.ltb_lt in E.
    rewrite IH by (cbn [_resumeIgnoreFrames with_resumeIgnoreFrames]; lia).
    cbn [_resumeIgnoreFrames with_resumeIgnoreFrames].
    f_equal. unfold with_resumeIgnoreFrames. cbn. f_equal. lia.
Qed.

(** X8.  The first 60 frames after a resume event are discarded whatever
    their timing: after [n <= 60] of them the state is the one the resume
    left, with only the count of frames still to ignore lowered to
    [60 - n]; smoothed frame time, accumulators and ladder are untouched. *)
Theorem sixty_frames_ignored_after_resume
    (t0 : Q) (s : State) (fs : list (Env * (Q * Q))) :
  (length fs <= 60)%nat ->
  Part001.run Math_exp
    (map (fun f => (fst f, Part001.OpFrame (fst (snd f)) (snd (snd f)))) fs)
    (Part001._triggerResumeGuard t0 s)
  = Some (with_resumeIgnoreFrames (60 - length fs)
            (Part001._triggerResumeGuard t0 s)).
Proof.
  intros Hlen. now rewrite ignored_frames.
Qed.

End FrameFacts.

(** [forceTier(7)] stores index 3; [forceTier(1.5)] would store 1.5. *)
Lemma ladder_indices_in_bounds_witness :
  (0 < 4)%nat /\
  0 <= 1.5 <= inject_Z (Z.of_nat 4) - 1 /\
  OverrideArguments.clampedIndexValue (Fin (inject_Z 7)) 4
  =Q= inject_Z (Z.of_nat (clampIndex 7 4)) /\
  clampIndex 7 4 = 3%nat /\
  OverrideArguments.clampedIndexValue (Fin 1.5) 4 =Q= 1.5.
Proof.
  assert (H4 : (0 < 4)%nat) by lia.
  assert (Hq : 0 <= 1.5 <= inject_Z (Z.of_nat 4) - 1)
    by (split; discriminate).
  split; [exact H4|]. split; [exact Hq|].
  destruct (ladder_indices_in_bounds Part001.exampleExp
              {| Part001.isMobile := false;
                 Part001.isHighEndPhone := false;
                 Part001.isTablet := false;
                 Part001.isM1AirLike := false;
                 Part001.probeLargeDisplay := true;
                 Part001.probePixelRatio := 2 |}
              3840 2160 0 1 Part001.exampleSession 7 1.5 4)
    as (_ & Hint & Hfrac & _).
  split; [exact (proj1 (Hint H4))|]. split; [reflexivity|].
  exact (Hfrac Hq).
Defined.

(** Two frames after a resume at 1000 ms: 58 frames are still to be
    ignored. *)
Lemma sixty_frames_ignored_after_resume_witness :
  (length [(Part001.exampleEnv, (1016%Q, 1 # 2));
           (Part001.exampleEnv, (1516%Q, 1 # 60))] <= 60)%nat /\
  Part001.run Part001.exampleExp
    (map (fun f => (fst f, Part001.OpFrame (fst (snd f)) (snd (snd f))))
         [(Part001.exampleEnv, (1016%Q, 1 # 2));
          (Part001.exampleEnv, (1516%Q, 1 # 60))])
    (Part001._triggerResumeGuard 1000 Part001.exampleStart)
  = Some (with_resumeIgnoreFrames
            (60 - length [(Part001.exampleEnv, (1016%Q, 1 # 2));
                          (Part001.exampleEnv, (1516%Q, 1 # 60))])
            (Part001._triggerResumeGuard 1000 Part001.exampleStart)).
Proof.
  assert (H : (length [(Part001.exampleEnv, (1016%Q, 1 # 2));
                       (Part001.exampleEnv, (1516%Q, 1 # 60))] <= 60)%nat)
    by (apply Nat.leb_le; reflexivity).
  split; [exact H|].
  exact (sixty_frames_ignored_after_resume Part001.exampleExp 1000
           Part001.exampleStart _ H).
Defined.

(** X1.  [detectDeviceProfile] always returns caps in order: the initial
    cap is at most the maximum cap, which is at most the absolute ceiling
    1.75 and at most the device's own pixel ratio; the current cap starts at
    the initial cap, and the initial cap is positive when the device pixel
    ratio is. *)
Theorem detected_caps_ordered (d : Part001.DeviceProbe) :
  let p := Part001.detectDeviceProfile d in
  baseCapInitial p <= baseCapMax p /\
  baseCapMax p <= MAX_EFFECTIVE_DPR /\
  baseCapMax p <= Part001.probePixelRatio d /\
  baseCapCurrent p = baseCapInitial p /\
  (0 < Part001.probePixelRatio d -> 0 < baseCapInitial p).
Proof. apply detectDeviceProfile_caps. Qed.

Lemma detected_caps_ordered_witness :
  0 < 2 /\ 0 < baseCapInitial Part001.exampleProfile.
Proof.
  assert (H : 0 < 2) by reflexivity.
  split; [exact H|].
  destruct (detected_caps_ordered
              {| Part001.isMobile := false;
                 Part001.isHighEndPhone := false;
                 Part001.isTablet := false;
                 Part001.isM1AirLike := false;
                 Part001.probeLargeDisplay := true;
                 Part001.probePixelRatio := 2 |}) as (_ & _ & _ & _ & Hpos).
  exact (Hpos H).
Defined.

Lemma Part000_attemptDegrade_keeps (env : Env) (now : Q) (s : State) :
  exists s',
    Part000.attemptDegrade env now s = Some s' /\
    __deviceProfile s' = __deviceProfile s /\
    (_effectQualityLevel s <= _effectQualityLevel s')%nat /\
    (_dprBucketIndex s <= _dprBucketIndex s')%nat /\
    (s' = s \/ _lastPerfChangeTime s' = now) /\
    (now - _lastPerfChangeTime s < PERF_CHANGE_DEBOUNCE -> s' = s).
Proof.
  unfold Part000.attemptDegrade.
  destruct (Qlt_bool (now - _lastPerfChangeTime s) PERF_CHANGE_DEBOUNCE)
    eqn:Ed.
  - exists s. split; [reflexivity|]. split; [reflexivity|].
    split; [lia|]. split; [lia|]. split; auto.
  - destruct (degradeOneStep_keeps Part000.DPR_BUCKETS env now s)
      as (s' & Hrun & Hp & _ & Ht & Hb & Hl & _).
    exists s'. split; [exact Hrun|]. split; [exact Hp|].
    split; [exact Ht|]. split; [exact Hb|]. split; [exact Hl|].
    intros H. apply Qlt_bool_iff in H. congruence.
Qed.

Lemma Part000_attemptUpgrade_keeps (env : Env) (now : Q) (s : State) :
  exists s',
    Part000.attemptUpgrade env now s = Some s' /\
    (s' = s \/ _lastPerfChangeTime s' = now) /\
    (now - _lastPerfChangeTime s < PERF_CHANGE_DEBOUNCE -> s' = s).
Proof.
  unfold Part000.attemptUpgrade.
  destruct (Qlt_bool (now - _lastPerfChangeTime s) PERF_CHANGE_DEBOUNCE)
    eqn:Ed.
  - exists s. split; [reflexivity|]. split; auto.
  - destruct (upgradeOneStep_keeps Part000.DPR_BUCKETS env now s)
      as (s' & Hrun & _ & _ & _ & Hl & _).
    exists s'. split; [exact Hrun|]. split; [exact Hl|].
    intros H. apply Qlt_bool_iff in H. congruence.
Qed.

Lemma debounce_at_least (now : Q) (s : State) :
  PERF_CHANGE_DEBOUNCE <= Part001._effectiveDebounceMs now s.
Proof.
  unfold Part001._effectiveDebounceMs, PERF_CHANGE_DEBOUNCE.
  destruct (Qlt_bool now (_postResumeDebounceUntil s)); lra.
Qed.

(** X6.  Debounce.  In both entry variants an [attemptDegrade] or
    [attemptUpgrade] either leaves the state exactly as it was, or comes at
    least 1300 ms after the last recorded change and records [now] as the
    time of the last change: two changes by the controller are never
    closer together than the debounce interval. *)
Theorem changes_are_debounced (env : Env) (now : Q) (s : State) :
  (exists s',
     Part001.attemptDegrade env now s = Some s' /\
     (s' = s \/ (PERF_CHANGE_DEBOUNCE <= now - _lastPerfChangeTime s
                 /\ _lastPerfChangeTime s' = now))) /\
  (exists s',
     Part001.attemptUpgrade env now s = Some s' /\
     (s' = s \/ (PERF_CHANGE_DEBOUNCE <= now - _lastPerfChangeTime s
                 /\ _lastPerfChangeTime s' = now))) /\
  (exists s',
     Part000.attemptDegrade env now s = Some s' /\
     (s' = s \/ (PERF_CHANGE_DEBOUNCE <= now - _lastPerfChangeTime s
                 /\ _lastPerfChangeTime s' = now))) /\
  (exists s',
     Part000.attemptUpgrade env now s = Some s' /\
     (s' = s \/ (PERF_CHANGE_DEBOUNCE <= now - _lastPerfChangeTime s
                 /\ _lastPerfChangeTime s' = now))).
Proof.
  pose proof (debounce_at_least now s) as Hdb.
  split; [|split; [|split]].
  - destruct (attemptDegrade_keeps env now s)
      as (s' & Hrun & _ & _ & _ & _ & Hl & Hwin & _).
    exists s'. split; [exact Hrun|].
    destruct (Qlt_le_dec (now - _lastPerfChangeTime s)
                (Part001._effectiveDebounceMs now s)) as [H | H].
    + left. auto.
    + destruct Hl as [Hl | Hl]; [left; exact Hl|].
      right. split; [lra | exact Hl].
  - destruct (attemptUpgrade_keeps env now s)
      as (s' & Hrun & _ & _ & _ & Hl & Hwin & _).
    exists s'. split; [exact Hrun|].
    destruct (Qlt_le_dec (now - _lastPerfChangeTime s)
                (Part001._effectiveDebounceMs now s)) as [H | H].
    + left. auto.
    + destruct Hl as [Hl | Hl]; [left; exact Hl|].
      right. split; [lra | exact Hl].
  - destruct (Part000_attemptDegrade_keeps env now s)
      as (s' & Hrun & _ & _ & _ & Hl & Hwin).
    exists s'. split; [exact Hrun|].
    destruct (Qlt_le_dec (now - _lastPerfChangeTime s) PERF_CHANGE_DEBOUNCE)
      as [H | H].
    + left. auto.
    + destruct Hl as [Hl | Hl]; [left; exact Hl|].
      right. split; [exact H | exact Hl].
  - destruct (Part000_attemptUpgrade_keeps env now s)
      as (s' & Hrun & Hl & Hwin).
    exists s'. split; [exact Hrun|].
    destruct (Qlt_le_dec (now - _lastPerfChangeTime s) PERF_CHANGE_DEBOUNCE)
      as [H | H].
    + left. auto.
    + destruct Hl as [Hl | Hl]; [left; exact Hl|].
      right. split; [exact H | exact Hl].
Qed.

(** X7.  For 2000 ms after a resume event, the debounce lengthened by the
    post-resume 700 ms, neither [attemptUpgrade] nor [attemptDegrade]
    changes anything. *)
Theorem resume_holds_ladder_two_seconds
    (env : Env) (t0 now : Q) (s : State) :
  now < t0 + 2000 ->
  let g := Part001._triggerResumeGuard t0 s in
  Part001.attemptUpgrade env now g = Some g /\
  Part001.attemptDegrade env now g = Some g.
Proof.
  intros Hnow g.
  assert (Hwin : now - _lastPerfChangeTime g
                 < Part001._effectiveDebounceMs now g).
  { unfold Part001._effectiveDebounceMs, PERF_CHANGE_DEBOUNCE.
    cbn [g Part001._triggerResumeGuard _lastPerfChangeTime
         _postResumeDebounceUntil with_lastPerfChangeTime
         with_highPerfAccum with_lowPerfAccum with_emaFrameTime
         with_postResumeDebounceUntil].
    rewrite (proj2 (Qlt_bool_iff now (t0 + 7000))) by lra. lra. }
  split.
  - destruct (attemptUpgrade_keeps env now g)
      as (g' & Hrun & _ & _ & _ & _ & Hsame & _).
    rewrite Hrun, (Hsame Hwin). reflexivity.
  - destruct (attemptDegrade_keeps env now g)
      as (g' & Hrun & _ & _ & _ & _ & _ & Hsame & _).
    rewrite Hrun, (Hsame Hwin). reflexivity.
Qed.

Lemma resume_holds_ladder_two_seconds_witness :
  1500 < 1000 + 2000 /\
  Part001.attemptUpgrade Part001.exampleEnv 1500
    (Part001._triggerResumeGuard 1000 Part001.exampleStart)
  = Some (Part001._triggerResumeGuard 1000 Part001.exampleStart).
Proof.
  assert (H : 1500 < 1000 + 2000) by reflexivity.
  split; [exact H|].
  exact (proj1 (resume_holds_ladder_two_seconds
                  Part001.exampleEnv 1000 1500 Part001.exampleStart H)).
Defined.

End SessionFacts.

(* ------------------------------------------------------------------ *)
(** ** The per-frame update of part_000 *)

Module Part000Facts.

Import Controller SessionModel LadderFacts ControllerFacts SessionFacts.

Section FrameFacts.

Variable Math_exp : Q -> Q.

Lemma perfAdaptiveUpdate_000 (env : Env) (now delta : Q) (inactive : bool)
    (s : State) :
  exists s',
    Part000Frame.perfAdaptiveUpdate Math_exp env now delta inactive s
    = Some s' /\
    (0 <= delta -> Part001.accumulatorsExclusive s ->
     Part001.accumulatorsExclusive s') /\
    (inactive = false ->
     __deviceProfile s' = __deviceProfile s /\
     (_effectQualityLevel s <= _effectQualityLevel s')%nat /\
     (_dprBucketIndex s <= _dprBucketIndex s')%nat).
Proof.
  unfold Part000Frame.perfAdaptiveUpdate, Part001.accumulatorsExclusive.
  cbn [_emaFrameTime with_emaFrameTime].
  match goal with
  | |- context [nlt ?fps (Fin Part000Frame.PERF_FPS_DROP_THRESHOLD)] =>
      set (emaFPS := fps)
  end.
  destruct (nlt emaFPS (Fin Part000Frame.PERF_FPS_DROP_THRESHOLD)).
  - match goal with
    | |- context [if Qle_bool ?a ?b then _ else _] =>
        destruct (Qle_bool a b)
    end.
    + match goal with
      | |- context [Part000.attemptDegrade env now ?s0] =>
          destruct (Part000_attemptDegrade_keeps env now s0)
            as (s' & Hrun & Hp & Ht & Hb & _)
      end.
      rewrite Hrun. eexists. split; [reflexivity|].
      split; [intros _ _; left; reflexivity|].
      intros _. split; [exact Hp|]. split; [exact Ht | exact Hb].
    + eexists. split; [reflexivity|].
      split; [intros _ _; right; reflexivity|].
      intros _. split; [reflexivity|]. split; apply Nat.le_refl.
  - destruct (nge emaFPS (Fin Part000Frame.PERF_FPS_RAISE_THRESHOLD)).
    + match goal with
      | |- context [if Qle_bool ?a ?b && inactive then _ else _] =>
          destruct (Qle_bool a b)
      end; destruct inactive; cbn [andb].
      * match goal with
        | |- context [Part000.attemptUpgrade env now ?s0] =>
            destruct (Part000_attemptUpgrade_keeps env now s0)
              as (s' & Hrun & _)
        end.
        rewrite Hrun. eexists. split; [reflexivity|].
        split; [intros _ _; right; reflexivity | discriminate].
      * eexists. split; [reflexivity|].
        split; [intros _ _; left; reflexivity|].
        intros _. split; [reflexivity|]. split; apply Nat.le_refl.
      * eexists. split; [reflexivity|].
        split; [intros _ _; left; reflexivity | discriminate].
      * eexists. split; [reflexivity|].
        split; [intros _ _; left; reflexivity|].
        intros _. split; [reflexivity|]. split; apply Nat.le_refl.
    + eexists. split; [reflexivity|]. split.
      * intros Hd [H | H];
          cbn [_lowPerfAccum _highPerfAccum with_lowPerfAccum
               with_highPerfAccum]; [left | right];
          rewrite H; apply Qmax_zero_decay;
          (apply Qmult_le_0_compat; [exact Hd | discriminate]).
      * intros _. split; [reflexivity|]. split; apply Nat.le_refl.
Qed.

(** X11.  In part_000 too, through any run of frames whose deltas are
    elapsed times, hence not negative, at least one of the two duration
    accumulators is zero after every frame, provided it was so before the
    first. *)
Theorem accumulators_exclusive_000
    (fs : list (Env * (Q * Q * bool))) (s : State) :
  Forall (fun f => 0 <= snd (fst (snd f))) fs ->
  Part001.accumulatorsExclusive s ->
  exists s',
    Part000Frame.frames Math_exp fs s = Some s' /\
    Part001.accumulatorsExclusive s'.
Proof.
  revert s. induction fs as [|[env [[now delta] inactive]] fs IH];
    intros s Hok Hs.
  - exists s. split; [reflexivity | exact Hs].
  - inversion Hok as [|? ? Hd Hrest]; subst. cbn [fst snd] in Hd.
    destruct (perfAdaptiveUpdate_000 env now delta inactive s)
      as (s1 & Hrun & Hacc & _).
    cbn [Part000Frame.frames]. rewrite Hrun.
    apply IH; [exact Hrest | now apply Hacc].
Qed.

(** X10.  In part_000 upgrades are gated on low interaction: through any
    run of frames during which the pointer keeps moving ([inactive] false
    at every frame), however high the frame rate, quality is never raised:
    the device profile is unchanged and neither the tier index nor the
    bucket index goes down. *)
Theorem no_upgrade_while_active
    (fs : list (Env * (Q * Q * bool))) (s : State) :
  Forall (fun f => snd (snd f) = false) fs ->
  exists s',
    Part000Frame.frames Math_exp fs s = Some s' /\
    __deviceProfile s' = __deviceProfile s /\
    (_effectQualityLevel s <= _effectQualityLevel s')%nat /\
    (_dprBucketIndex s <= _dprBucketIndex s')%nat.
Proof.
  revert s. induction fs as [|[env [[now delta] inactive]] fs IH];
    intros s Hok.
  - exists s. split; [reflexivity|]. split; [reflexivity|].
    split; apply Nat.le_refl.
  - inversion Hok as [|? ? Hi Hrest]; subst. cbn [fst snd] in Hi.
    destruct (perfAdaptiveUpdate_000 env now delta inactive s)
      as (s1 & Hrun & _ & Hkeep).
    destruct (Hkeep Hi) as (Hp & Ht & Hb).
    destruct (IH s1 Hrest) as (s' & Hrun' & Hp' & Ht' & Hb').
    exists s'. cbn [Part000Frame.frames]. rewrite Hrun.
    split; [exact Hrun'|]. split; [congruence|]. split; lia.
Qed.

End FrameFacts.

Lemma accumulators_exclusive_000_witness :
  Forall (fun f : Env * (Q * Q * bool) => 0 <= snd (fst (snd f)))
    [(Part001.exampleEnv, (16, 1 # 60, false));
     (Part001.exampleEnv, (516, 1 # 2, true))] /\
  Part001.accumulatorsExclusive Part001.exampleStart /\
  exists s',
    Part000Frame.frames Part001.exampleExp
      [(Part001.exampleEnv, (16, 1 # 60, false));
       (Part001.exampleEnv, (516, 1 # 2, true))]
      Part001.exampleStart = Some s' /\
    Part001.accumulatorsExclusive s'.
Proof.
  assert (H : Forall (fun f : Env * (Q * Q * bool) =>
                        0 <= snd (fst (snd f)))
                [(Part001.exampleEnv, (16, 1 # 60, false));
                 (Part001.exampleEnv, (516, 1 # 2, true))]).
  { repeat constructor; cbn; discriminate. }
  assert (H0 : Part001.accumulatorsExclusive Part001.exampleStart).
  { left. reflexivity. }
  split; [exact H|]. split; [exact H0|].
  exact (accumulators_exclusive_000 Part001.exampleExp _ _ H H0).
Defined.

Lemma no_upgrade_while_active_witness :
  Forall (fun f : Env * (Q * Q * bool) => snd (snd f) = false)
    [(Part001.exampleEnv, (16, 1 # 100, false));
     (Part001.exampleEnv, (26, 1 # 100, false))] /\
  exists s',
    Part000Frame.frames Part001.exampleExp
      [(Part001.exampleEnv, (16, 1 # 100, false));
       (Part001.exampleEnv, (26, 1 # 100, false))]
      Part001.exampleStart = Some s' /\
    (_effectQualityLevel Part001.exampleStart <= _effectQualityLevel s')%nat.
Proof.
  assert (H : Forall (fun f : Env * (Q * Q * bool) => snd (snd f) = false)
                [(Part001.exampleEnv, (16, 1 # 100, false));
                 (Part001.exampleEnv, (26, 1 # 100, false))]).
  { repeat constructor. }
  split; [exact H|].
  destruct (no_upgrade_while_active Part001.exampleExp _
              Part001.exampleStart H) as (s' & Hrun & _ & Ht & _).
  exists s'. split; [exact Hrun | exact Ht].
Defined.

End Part000Facts.

(* ------------------------------------------------------------------ *)
(** ** Number arithmetic *)

Module NumFacts.

Lemma ndiv_fin (a b : Q) : ~ b == 0 -> ndiv (Fin a) (Fin b) = Fin (a / b).
Proof.
  intros H. unfold ndiv.
  destruct (Qeq_bool b 0) eqn:E; [|reflexivity].
  apply Qeq_bool_iff in E. contradiction.
Qed.

End NumFacts.

(* ------------------------------------------------------------------ *)
(** ** Head-look helpers *)

Module HeadLookFacts.

Import HeadLook.

Lemma Qdiv_two (x : Q) : x / 2 == x * (1 # 2).
Proof. field. Qed.


Lemma Qdiv_1024 (x : Q) : x / 1024 == x * (1 # 1024).
Proof. field. Qed.

(** *** The two roundings of the examples *)

(** Exact arithmetic is a rounding. *)
Lemma exact_rounding : rounding (fun x => x).
Proof.
  unfold rounding.
  split; [intros x y H; exact H|].
  split; [intros x y H; exact H|].
  split; [intros x; reflexivity|].
  split; [intros x; reflexivity|].
  split; [intros z _; reflexivity | reflexivity].
Qed.

Lemma chop_nonneg (x : Q) :
  0 <= x -> chop x = inject_Z (Qfloor (x * 1024)) / 1024.
Proof.
  intros H. unfold chop. apply Qle_bool_iff in H. now rewrite H.
Qed.

Lemma chop_neg (x : Q) :
  x < 0 -> chop x = - (inject_Z (Qfloor (- x * 1024)) / 1024).
Proof.
  intros H. unfold chop.
  destruct (Qle_bool 0 x) eqn:E; [|reflexivity].
  apply Qle_bool_iff in E. lra.
Qed.

Lemma floor_nonneg (x : Q) : 0 <= x -> 0 <= inject_Z (Qfloor x).
Proof.
  intros H. apply Qfloor_resp_le in H.
  change (Qfloor 0) with 0%Z in H.
  change 0 with (inject_Z 0). now rewrite <- Zle_Qle.
Qed.

Lemma floor_mono (x y : Q) :
  x <= y -> inject_Z (Qfloor x) <= inject_Z (Qfloor y).
Proof.
  intros H. rewrite <- Zle_Qle. now apply Qfloor_resp_le.
Qed.

Lemma floor_scaled (n : Z) : Qfloor (inject_Z n / 1024 * 1024) = n.
Proof.
  assert (E : inject_Z n / 1024 * 1024 == inject_Z n) by field.
  rewrite (Qfloor_comp _ _ E). apply Qfloor_Z.
Qed.

Lemma chop_sign (x : Q) :
  (0 <= x -> 0 <= chop x) /\ (x < 0 -> chop x <= 0).
Proof.
  split; intros H.
  - rewrite chop_nonneg by exact H. rewrite Qdiv_1024.
    assert (H' : 0 <= inject_Z (Qfloor (x * 1024)))
      by (apply floor_nonneg; lra).
    lra.
  - rewrite chop_neg by exact H. rewrite Qdiv_1024.
    assert (H' : 0 <= inject_Z (Qfloor (- x * 1024)))
      by (apply floor_nonneg; lra).
    lra.
Qed.

Lemma chop_proper (x y : Q) : x == y -> chop x == chop y.
Proof.
  intros H. destruct (Qlt_le_dec x 0) as [Hx | Hx].
  - rewrite !chop_neg by lra.
    assert (E : - x * 1024 == - y * 1024) by (rewrite H; reflexivity).
    rewrite (Qfloor_comp _ _ E). reflexivity.
  - rewrite !chop_nonneg by lra.
    assert (E : x * 1024 == y * 1024) by (rewrite H; reflexivity).
    rewrite (Qfloor_comp _ _ E). reflexivity.
Qed.

Lemma chop_mono (x y : Q) : x <= y -> chop x <= chop y.
Proof.
  intros H. destruct (Qlt_le_dec y 0) as [Hy | Hy].
  - rewrite !chop_neg by lra. rewrite !Qdiv_1024.
    assert (H' : inject_Z (Qfloor (- y * 1024))
                 <= inject_Z (Qfloor (- x * 1024)))
      by (apply floor_mono; lra).
    lra.
  - destruct (Qlt_le_dec x 0) as [Hx | Hx].
    + apply Qle_trans with 0; [now apply chop_sign | now apply chop_sign].
    + rewrite !chop_nonneg by assumption. rewrite !Qdiv_1024.
      assert (H' : inject_Z (Qfloor (x * 1024))
                   <= inject_Z (Qfloor (y * 1024)))
        by (apply floor_mono; lra).
      lra.
Qed.

Lemma chop_grid (n : Z) : chop (inject_Z n / 1024) == inject_Z n / 1024.
Proof.
  destruct (Z.le_gt_cases 0 n) as [Hn | Hn].
  - assert (H0 : 0 <= inject_Z n)
      by (change 0 with (inject_Z 0); now rewrite <- Zle_Qle).
    rewrite chop_nonneg by (rewrite Qdiv_1024; lra).
    rewrite floor_scaled. reflexivity.
  - assert (H0 : inject_Z n < 0)
      by (change 0 with (inject_Z 0); now rewrite <- Zlt_Qlt).
    rewrite chop_neg by (rewrite Qdiv_1024; lra).
    assert (E : - (inject_Z n / 1024) * 1024 == inject_Z (- n))
      by (rewrite inject_Z_opp; field).
    rewrite (Qfloor_comp _ _ E), Qfloor_Z, inject_Z_opp. field.
Qed.

Lemma chop_idem (x : Q) : chop (chop x) == chop x.
Proof.
  destruct (Qlt_le_dec x 0) as [Hx | Hx].
  - rewrite (chop_neg x) by exact Hx.
    assert (E : - (inject_Z (Qfloor (- x * 1024)) / 1024)
                == inject_Z (- Qfloor (- x * 1024)) / 1024)
      by (rewrite inject_Z_opp; field).
    rewrite (chop_proper _ _ E), chop_grid. symmetry. exact E.
  - rewrite (chop_nonneg x) by exact Hx. apply chop_grid.
Qed.

Lemma chop_odd (x : Q) : chop (- x) == - chop x.
Proof.
  destruct (Qlt_le_dec x 0) as [Hx | Hx].
  - rewrite (chop_neg x) by exact Hx.
    rewrite (chop_nonneg (- x)) by lra. ring.
  - destruct (Qlt_le_dec 0 x) as [Hp | Hz].
    + rewrite (chop_nonneg x) by exact Hx.
      rewrite (chop_neg (- x)) by lra.
      assert (E : - - x * 1024 == x * 1024) by ring.
      rewrite (Qfloor_comp _ _ E). reflexivity.
    + assert (E0 : x == 0) by lra.
      assert (E1 : - x == 0) by lra.
      rewrite (chop_proper _ _ E0), (chop_proper _ _ E1). reflexivity.
Qed.

Lemma chop_integer (z : Z) : chop (inject_Z z) == inject_Z z.
Proof.
  assert (E : inject_Z z == inject_Z (z * 1024) / 1024)
    by (rewrite inject_Z_mult; field).
  rewrite (chop_proper _ _ E), chop_grid. symmetry. exact E.
Qed.

(** Truncation to multiples of 1/1024 is a rounding. *)
Lemma chop_rounding : rounding chop.
Proof.
  unfold rounding.
  split; [exact chop_proper|]. split; [exact chop_mono|].
  split; [exact chop_idem|]. split; [exact chop_odd|].
  split; [intros z _; apply chop_integer | reflexivity].
Qed.

(** *** Facts for any rounding *)

Section RoundedFacts.

Variable rnd : Q -> Q.
Hypothesis Hr : rounding rnd.

Lemma rnd_eq (x y : Q) : x == y -> rnd x == rnd y.
Proof. apply Hr. Qed.

Lemma rnd_le (x y : Q) : x <= y -> rnd x <= rnd y.
Proof. apply Hr. Qed.



Lemma rnd_const (z : Z) (c : Q) :
  (Z.abs z <= 100)%Z -> c == inject_Z z -> rnd c == c.
Proof.
  intros Hz Hc. rewrite (rnd_eq _ _ Hc), Hc. now apply Hr.
Qed.

Lemma rnd_half : rnd (1 # 2) == 1 # 2.
Proof. apply Hr. Qed.

Lemma rnd_0 : rnd 0 == 0.
Proof. apply (rnd_const 0); [cbn; lia | reflexivity]. Qed.

Lemma rnd_1 : rnd 1 == 1.
Proof. apply (rnd_const 1); [cbn; lia | reflexivity]. Qed.


Lemma rnd_ge_const (a x : Q) : rnd a == a -> a <= x -> a <= rnd x.
Proof.
  intros Ha H. apply Qle_trans with (rnd a).
  - rewrite Ha. apply Qle_refl.
  - now apply rnd_le.
Qed.

Lemma rnd_le_const (b x : Q) : rnd b == b -> x <= b -> rnd x <= b.
Proof.
  intros Hb H. apply Qle_trans with (rnd b).
  - now apply rnd_le.
  - rewrite Hb. apply Qle_refl.
Qed.

(** Rounding keeps a result between two numbers that are exact. *)
Lemma rnd_between (a b x : Q) :
  rnd a == a -> rnd b == b -> a <= x <= b -> a <= rnd x <= b.
Proof.
  intros Ha Hb [H1 H2]. split.
  - now apply rnd_ge_const.
  - now apply rnd_le_const.
Qed.

Lemma rnd_unit (x : Q) : 0 <= x <= 1 -> 0 <= rnd x <= 1.
Proof. apply rnd_between; [apply rnd_0 | apply rnd_1]. Qed.

(** **** [_easeInOutQuad] *)

Lemma clamp01_range (t : Q) : 0 <= Qmax 0 (Qmin 1 t) <= 1.
Proof.
  split; [apply Q.le_max_l|].
  apply Q.max_lub; [discriminate | apply Q.le_min_l].
Qed.

Lemma clamp01_low (t : Q) : t <= 0 -> Qmax 0 (Qmin 1 t) == 0.
Proof.
  intros H. apply Q.max_l. apply Q.min_le_iff. now right.
Qed.

Lemma clamp01_mid (t : Q) : 0 <= t <= 1 -> Qmax 0 (Qmin 1 t) == t.
Proof.
  intros [H0 H1]. rewrite Q.min_r by exact H1. now apply Q.max_r.
Qed.

Lemma clamp01_high (t : Q) : 1 <= t -> Qmax 0 (Qmin 1 t) == 1.
Proof.
  intros H. rewrite Q.min_l by exact H. apply Q.max_r. discriminate.
Qed.

Lemma clamp01_mono (t1 t2 : Q) :
  t1 <= t2 -> Qmax 0 (Qmin 1 t1) <= Qmax 0 (Qmin 1 t2).
Proof.
  intros H. apply Q.max_le_compat_l. now apply Q.min_le_compat_l.
Qed.

(** The value of [_easeInOutQuad] at a finite argument, in terms of the
    clamped argument. *)
Lemma ease_value (t : Q) :
  _easeInOutQuad rnd (Fin t)
  = Fin (if Qlt_bool (Qmax 0 (Qmin 1 t)) 0.5
         then rnd (rnd (2 * Qmax 0 (Qmin 1 t)) * Qmax 0 (Qmin 1 t))
         else rnd (1 - rnd (rnd (rnd (rnd ((-2) * Qmax 0 (Qmin 1 t)) + 2)
                                 * rnd (rnd ((-2) * Qmax 0 (Qmin 1 t)) + 2))
                            / 2))).
Proof.
  unfold _easeInOutQuad, _clamp01. cbn [nmax nmin nlt].
  destruct (Qlt_bool (Qmax 0 (Qmin 1 t)) 0.5); reflexivity.
Qed.

(** The first branch, on [0, 1/2): between 0 and 1/2, and monotone. *)
Lemma ease_low (c d : Q) :
  0 <= c -> c <= d -> d < 1 # 2 ->
  0 <= rnd (rnd (2 * c) * c) /\
  rnd (rnd (2 * c) * c) <= rnd (rnd (2 * d) * d) /\
  rnd (rnd (2 * d) * d) <= 1 # 2.
Proof.
  intros H0 Hcd Hd.
  assert (Ha : 0 <= rnd (2 * c) <= 1) by (apply rnd_unit; lra).
  assert (Hb : 0 <= rnd (2 * d) <= 1) by (apply rnd_unit; lra).
  assert (Hab : rnd (2 * c) <= rnd (2 * d)) by (apply rnd_le; lra).
  set (a := rnd (2 * c)) in *. set (b := rnd (2 * d)) in *.
  split; [|split].
  - apply rnd_ge_const; [apply rnd_0 | nra].
  - apply rnd_le. nra.
  - apply rnd_le_const; [apply rnd_half | nra].
Qed.

(** The argument of the square in the second branch, on [1/2, 1]. *)
Lemma ease_turn (c d : Q) :
  1 # 2 <= c -> c <= d -> d <= 1 ->
  0 <= rnd (rnd ((-2) * d) + 2) /\
  rnd (rnd ((-2) * d) + 2) <= rnd (rnd ((-2) * c) + 2) /\
  rnd (rnd ((-2) * c) + 2) <= 1.
Proof.
  intros Hc Hcd Hd.
  assert (Hm2 : rnd (-2) == -2)
    by (apply (rnd_const (-2)); [cbn; lia | reflexivity]).
  assert (Hm1 : rnd (-1) == -1)
    by (apply (rnd_const (-1)); [cbn; lia | reflexivity]).
  assert (Hx : -2 <= rnd ((-2) * d))
    by (apply rnd_ge_const; [exact Hm2 | lra]).
  assert (Hy : rnd ((-2) * c) <= -1)
    by (apply rnd_le_const; [exact Hm1 | lra]).
  assert (Hxy : rnd ((-2) * d) <= rnd ((-2) * c)) by (apply rnd_le; lra).
  split; [|split].
  - apply rnd_ge_const; [apply rnd_0 | lra].
  - apply rnd_le. lra.
  - apply rnd_le_const; [apply rnd_1 | lra].
Qed.

(** The second branch as a function of that argument: between 1/2 and 1,
    and decreasing in it. *)
Lemma ease_high (x y : Q) :
  0 <= y -> y <= x -> x <= 1 ->
  1 # 2 <= rnd (1 - rnd (rnd (x * x) / 2)) /\
  rnd (1 - rnd (rnd (x * x) / 2)) <= rnd (1 - rnd (rnd (y * y) / 2)) /\
  rnd (1 - rnd (rnd (y * y) / 2)) <= 1.
Proof.
  intros Hy Hyx Hx.
  assert (Ha : 0 <= rnd (x * x) <= 1) by (apply rnd_unit; split; nra).
  assert (Hb : 0 <= rnd (y * y) <= 1) by (apply rnd_unit; split; nra).
  assert (Hab : rnd (y * y) <= rnd (x * x)) by (apply rnd_le; nra).
  set (a := rnd (x * x)) in *. set (b := rnd (y * y)) in *.
  assert (Ha2 : 0 <= rnd (a / 2) <= 1 # 2).
  { apply rnd_between; [apply rnd_0 | apply rnd_half|].
    rewrite Qdiv_two. lra. }
  assert (Hb2 : 0 <= rnd (b / 2) <= 1 # 2).
  { apply rnd_between; [apply rnd_0 | apply rnd_half|].
    rewrite Qdiv_two. lra. }
  assert (Hab2 : rnd (b / 2) <= rnd (a / 2))
    by (apply rnd_le; rewrite !Qdiv_two; lra).
  split; [|split].
  - apply rnd_ge_const; [apply rnd_half | lra].
  - apply rnd_le. lra.
  - apply rnd_le_const; [apply rnd_1 | lra].
Qed.

(** X12.  Under any rounding of the arithmetic, [_easeInOutQuad] maps every
    finite argument into [0, 1]; it is exactly 0 for arguments up to 0,
    exactly 1/2 at 1/2 and exactly 1 for arguments from 1 on, and it never
    decreases. *)
Theorem ease_in_out_quad_shape (t u : Q) :
  exists e f,
    _easeInOutQuad rnd (Fin t) = Fin e /\
    _easeInOutQuad rnd (Fin u) = Fin f /\
    0 <= e <= 1 /\
    (t <= 0 -> e == 0) /\
    (t == 1 # 2 -> e == 1 # 2) /\
    (1 <= t -> e == 1) /\
    (t <= u -> e <= f).
Proof.
  eexists _, _.
  split; [apply ease_value|]. split; [apply ease_value|].
  pose proof (clamp01_range t) as Ht.
  pose proof (clamp01_range u) as Hu.
  pose proof (clamp01_low t) as Hlow.
  pose proof (clamp01_mid t) as Hmid.
  pose proof (clamp01_high t) as Hhigh.
  pose proof (clamp01_mono t u) as Hmono.
  set (c := Qmax 0 (Qmin 1 t)) in *.
  set (d := Qmax 0 (Qmin 1 u)) in *.
  clearbody c d.
  assert (Hc : forall x : Q,
             (Qlt_bool x 0.5 = true /\ x < 1 # 2)
             \/ (Qlt_bool x 0.5 = false /\ 1 # 2 <= x)).
  { intros x. destruct (Qlt_bool x 0.5) eqn:E.
    - left. split; [reflexivity|]. apply Qlt_bool_iff in E. lra.
    - right. split; [reflexivity|]. apply Qlt_bool_false_iff in E. lra. }
  assert (Hends : forall x : Q,
             0 <= x <= 1 ->
             0 <= (if Qlt_bool x 0.5
                   then rnd (rnd (2 * x) * x)
                   else rnd (1 - rnd (rnd (rnd (rnd ((-2) * x) + 2)
                                           * rnd (rnd ((-2) * x) + 2))
                                      / 2))) <= 1).
  { intros x [Hx0 Hx1].
    destruct (Hc x) as [[E H] | [E H]]; rewrite E.
    - destruct (ease_low x x Hx0 (Qle_refl x) H) as (H1 & _ & H2).
      split; lra.
    - destruct (ease_turn x x H (Qle_refl x) Hx1) as (T0 & _ & T1).
      destruct (ease_high _ _ T0 (Qle_refl _) T1) as (H1 & _ & H2).
      split; lra. }
  split; [now apply Hends|].
  split; [|split; [|split]].
  - (* up to 0 *)
    intros H. specialize (Hlow H).
    destruct (Hc c) as [[E _] | [E H']]; rewrite E; [|lra].
    assert (E0 : rnd (2 * c) * c == 0).
    { set (a := rnd (2 * c)). rewrite Hlow. ring. }
    rewrite (rnd_eq _ _ E0). apply rnd_0.
  - (* at 1/2 *)
    intros H.
    assert (Hch : c == 1 # 2) by (rewrite Hmid; [exact H | lra]).
    destruct (Hc c) as [[E H'] | [E _]]; rewrite E; [lra|].
    assert (E1 : (-2) * c == inject_Z (-1)) by (rewrite Hch; reflexivity).
    assert (E2 : rnd ((-2) * c) + 2 == 1).
    { rewrite (rnd_const (-1) _) by (cbn; lia || exact E1).
      rewrite E1. reflexivity. }
    assert (E3 : rnd (rnd ((-2) * c) + 2) == 1)
      by (rewrite (rnd_eq _ _ E2); apply rnd_1).
    assert (E4 : rnd (rnd ((-2) * c) + 2) * rnd (rnd ((-2) * c) + 2) == 1)
      by (rewrite E3; reflexivity).
    assert (E5 : rnd (rnd (rnd ((-2) * c) + 2) * rnd (rnd ((-2) * c) + 2)) / 2
                 == 1 # 2).
    { rewrite (rnd_eq _ _ E4), rnd_1. reflexivity. }
    assert (E6 : 1 - rnd (rnd (rnd (rnd ((-2) * c) + 2)
                               * rnd (rnd ((-2) * c) + 2)) / 2)
                 == 1 # 2).
    { rewrite (rnd_eq _ _ E5), rnd_half. reflexivity. }
    rewrite (rnd_eq _ _ E6). apply rnd_half.
  - (* from 1 on *)
    intros H. specialize (Hhigh H).
    destruct (Hc c) as [[E H'] | [E _]]; rewrite E; [lra|].
    assert (E1 : (-2) * c == inject_Z (-2)) by (rewrite Hhigh; reflexivity).
    assert (E2 : rnd ((-2) * c) + 2 == 0).
    { rewrite (rnd_const (-2) _) by (cbn; lia || exact E1).
      rewrite E1. reflexivity. }
    assert (E3 : rnd (rnd ((-2) * c) + 2) == 0)
      by (rewrite (rnd_eq _ _ E2); apply rnd_0).
    assert (E4 : rnd (rnd ((-2) * c) + 2) * rnd (rnd ((-2) * c) + 2) == 0)
      by (rewrite E3; reflexivity).
    assert (E5 : rnd (rnd (rnd ((-2) * c) + 2) * rnd (rnd ((-2) * c) + 2)) / 2
                 == 0).
    { rewrite (rnd_eq _ _ E4), rnd_0. reflexivity. }
    assert (E6 : 1 - rnd (rnd (rnd (rnd ((-2) * c) + 2)
                               * rnd (rnd ((-2) * c) + 2)) / 2)
                 == 1).
    { rewrite (rnd_eq _ _ E5), rnd_0. reflexivity. }
    rewrite (rnd_eq _ _ E6). apply rnd_1.
  - (* monotone *)
    intros H. specialize (Hmono H).
    destruct (Hc c) as [[E1 H1] | [E1 H1]]; rewrite E1;
      destruct (Hc d) as [[E2 H2] | [E2 H2]]; rewrite E2.
    + now apply (ease_low c d).
    + destruct (ease_low c c (proj1 Ht) (Qle_refl c) H1) as (_ & _ & L).
      destruct (ease_turn d d H2 (Qle_refl d) (proj2 Hu)) as (T0 & _ & T1).
      destruct (ease_high _ _ T0 (Qle_refl _) T1) as (G & _ & _).
      lra.
    + lra.
    + destruct (ease_turn c d H1 Hmono (proj2 Hu)) as (T0 & T01 & T1).
      now apply (ease_high _ _ T0 T01 T1).
Qed.

(** **** [getMouseDegrees] *)










End RoundedFacts.

(** The ease of 0.3 and of 0.7 under truncation to multiples of 1/1024. *)
Lemma ease_in_out_quad_shape_witness :
  rounding chop /\
  exists e f,
    _easeInOutQuad chop (Fin 0.3) = Fin e /\
    _easeInOutQuad chop (Fin 0.7) = Fin f /\
    0 <= e <= 1 /\ e <= f.
Proof.
  split; [exact chop_rounding|].
  destruct (ease_in_out_quad_shape chop chop_rounding 0.3 0.7)
    as (e & f & He & Hf & Hrange & _ & _ & _ & Hmono).
  exists e, f. split; [exact He|]. split; [exact Hf|].
  split; [exact Hrange|]. apply Hmono. discriminate.
Defined.


End HeadLookFacts.

(* ------------------------------------------------------------------ *)
(** ** Scroll input of the page *)

Module ScrollInputFacts.

Import ScrollModel ScrollInput.

Lemma clamp02_mid (q : Q) : 0 <= q <= 2 -> Qmax 0 (Qmin 2 q) == q.
Proof.
  intros [H0 H2]. rewrite Q.min_r by exact H2. now apply Q.max_r.
Qed.

Lemma clamp02_high (q : Q) : 2 <= q -> Qmax 0 (Qmin 2 q) == 2.
Proof.
  intros H. rewrite Q.min_l by exact H. apply Q.max_r. discriminate.
Qed.

Lemma round_bounds (q : Q) :
  inject_Z (Qfloor (q + (1 # 2))) - (1 # 2) <= q
  /\ q < inject_Z (Qfloor (q + (1 # 2))) + (1 # 2).
Proof.
  pose proof (Qfloor_le (q + (1 # 2))) as Hl.
  pose proof (Qlt_floor (q + (1 # 2))) as Hu.
  rewrite inject_Z_plus in Hu. change (inject_Z 1) with 1 in Hu.
  split; lra.
Qed.

Lemma round_integer (k : Z) (q : Q) :
  q == inject_Z k -> Qfloor (q + (1 # 2)) = k.
Proof.
  intros H. rewrite H.
  pose proof (Qfloor_le (inject_Z k + (1 # 2))) as Hl.
  pose proof (Qlt_floor (inject_Z k + (1 # 2))) as Hu.
  set (r := Qfloor (inject_Z k + (1 # 2))) in *.
  assert (H1 : inject_Z r < inject_Z (k + 1)).
  { rewrite inject_Z_plus. change (inject_Z 1) with 1. lra. }
  assert (H2 : inject_Z k < inject_Z (r + 1)).
  { rewrite inject_Z_plus in Hu |- *. change (inject_Z 1) with 1 in *. lra. }
  rewrite <- Zlt_Qlt in H1, H2. lia.
Qed.

(** X14.  For a positive section height and a non-negative scroll offset
    the section [handleScroll] snaps to is one of 0, 1, 2.  Up to two and a
    half section heights it is the section whose top is nearest to the
    offset (within half a section height, the upper half rounding up);
    beyond that it is the last section. *)
Theorem target_section_is_nearest (scrollY sectionHeight : Q) :
  0 < sectionHeight -> 0 <= scrollY ->
  exists k : Z,
    (0 <= k <= 2)%Z /\
    targetSectionOf (Fin scrollY) (Fin sectionHeight) =Q= inject_Z k /\
    (scrollY < (5 # 2) * sectionHeight ->
     inject_Z k * sectionHeight - sectionHeight / 2 <= scrollY
     /\ scrollY < inject_Z k * sectionHeight + sectionHeight / 2) /\
    ((5 # 2) * sectionHeight <= scrollY -> k = 2%Z).
Proof.
  intros Hh Hy.
  unfold targetSectionOf.
  rewrite NumFacts.ndiv_fin by lra.
  cbn [Math_round nmax nmin num_is].
  assert (Hq : scrollY / sectionHeight * sectionHeight == scrollY)
    by (field; lra).
  assert (Hq0 : 0 <= scrollY / sectionHeight)
    by (apply Qle_shift_div_l; [exact Hh | lra]).
  assert (Hhalf : sectionHeight / 2 == sectionHeight * (1 # 2)) by field.
  destruct (round_bounds (scrollY / sectionHeight)) as [Hl Hu].
  set (q := scrollY / sectionHeight) in *.
  set (r := Qfloor (q + (1 # 2))) in *.
  assert (Hr0 : (0 <= r)%Z).
  { assert (H : inject_Z (-1) < inject_Z r)
      by (change (inject_Z (-1)) with (-1); lra).
    rewrite <- Zlt_Qlt in H. lia. }
  destruct (Qlt_le_dec scrollY ((5 # 2) * sectionHeight)) as [Hlt | Hge].
  - assert (Hq2 : q < 5 # 2) by nra.
    assert (Hr2 : (r <= 2)%Z).
    { assert (H : inject_Z r < inject_Z 3)
        by (change (inject_Z 3) with 3; lra).
      rewrite <- Zlt_Qlt in H. lia. }
    exists r. split; [lia|].
    split.
    { apply clamp02_mid. split.
      - change 0 with (inject_Z 0). now rewrite <- Zle_Qle.
      - change 2 with (inject_Z 2). now rewrite <- Zle_Qle. }
    split; [|intros H; lra].
    intros _. rewrite Hhalf. split; nra.
  - assert (Hq2 : 5 # 2 <= q) by nra.
    exists 2%Z. split; [lia|].
    split.
    { change (inject_Z 2) with 2. apply clamp02_high. lra. }
    split; [intros H; lra | reflexivity].
Qed.

Lemma target_section_is_nearest_witness :
  exists k : Z,
    (0 <= k <= 2)%Z /\
    targetSectionOf (Fin 1300) (Fin 800) =Q= inject_Z k /\
    (1300 < (5 # 2) * 800 ->
     inject_Z k * 800 - 800 / 2 <= 1300
     /\ 1300 < inject_Z k * 800 + 800 / 2) /\
    ((5 # 2) * 800 <= 1300 -> k = 2%Z).
Proof.
  apply (target_section_is_nearest 1300 800); [reflexivity | discriminate].
Defined.

(** X15.  The scroll offset [snapToSection(k)] scrolls to, [k] section
    heights, is a fixed point of the scroll handler: there [handleScroll]
    computes [k] again as the section to snap to, and the scroll progress it
    derives from the offset is the progress [k / 2] that the tween of
    [snapToSection] ends at. *)
Theorem snap_offset_is_fixed_point (k : Z) (sectionHeight : Q) :
  0 < sectionHeight -> (0 <= k <= 2)%Z ->
  exists p,
    targetSectionOf (Fin (inject_Z k * sectionHeight)) (Fin sectionHeight)
    =Q= inject_Z k /\
    snapTargetProgress (Fin (inject_Z k)) = Fin p /\
    scrollProgressOf (Fin (inject_Z k * sectionHeight)) (Fin sectionHeight)
    =Q= p /\
    p == inject_Z k / 2.
Proof.
  intros Hh Hk.
  assert (Hk0 : 0 <= inject_Z k)
    by (change 0 with (inject_Z 0); rewrite <- Zle_Qle; lia).
  assert (Hk2 : inject_Z k <= 2)
    by (change 2 with (inject_Z 2); rewrite <- Zle_Qle; lia).
  exists (inject_Z k / (3 - 1)).
  split; [|split; [|split]].
  - unfold targetSectionOf. rewrite NumFacts.ndiv_fin by lra.
    cbn [Math_round nmax nmin num_is].
    rewrite (round_integer k) by (field; lra).
    now apply clamp02_mid.
  - unfold snapTargetProgress. cbn [nsub]. now rewrite NumFacts.ndiv_fin.
  - unfold scrollProgressOf. cbn [nsub nmul].
    rewrite NumFacts.ndiv_fin by lra.
    cbn [nmin num_is].
    assert (E : inject_Z k * sectionHeight / (sectionHeight * (3 - 1))
                == inject_Z k / (3 - 1)) by (field; lra).
    rewrite E. apply Q.min_l.
    apply Qle_shift_div_r; [reflexivity | lra].
  - field.
Qed.

Lemma snap_offset_is_fixed_point_witness :
  exists p,
    targetSectionOf (Fin (inject_Z 1 * 800)) (Fin 800) =Q= inject_Z 1 /\
    snapTargetProgress (Fin (inject_Z 1)) = Fin p /\
    scrollProgressOf (Fin (inject_Z 1 * 800)) (Fin 800) =Q= p /\
    p == inject_Z 1 / 2.
Proof.
  apply (snap_offset_is_fixed_point 1 800); [reflexivity | lia].
Defined.

Lemma handleWheel_step (delta : Q) (w : WheelState) :
  (0 <= currentSection w <= 2)%Z ->
  let w' := fst (handleWheel delta w) in
  (0 <= currentSection w' <= 2)%Z /\
  (isScrolling w = true -> w' = w) /\
  (w' = w \/
   (isScrolling w = false /\ isScrolling w' = true /\
    (Z.abs (currentSection w' - currentSection w) = 1)%Z)).
Proof.
  intros Hr. unfold handleWheel.
  destruct (isScrolling w) eqn:Es; cbn [fst].
  { split; [exact Hr|]. split; [reflexivity | now left]. }
  destruct (Qlt_bool 0 delta && (currentSection w <? 2)%Z) eqn:E1.
  - apply andb_true_iff in E1. destruct E1 as [_ E1].
    apply Z.ltb_lt in E1.
    replace (currentSection w + 1 =? currentSection w)%Z with false
      by (symmetry; apply Z.eqb_neq; lia).
    cbn [negb fst currentSection isScrolling].
    split; [lia|]. split; [discriminate|].
    right. split; [reflexivity|]. split; [reflexivity | lia].
  - destruct (Qlt_bool delta 0 && (0 <? currentSection w)%Z) eqn:E2.
    + apply andb_true_iff in E2. destruct E2 as [_ E2].
      apply Z.ltb_lt in E2.
      replace (currentSection w - 1 =? currentSection w)%Z with false
        by (symmetry; apply Z.eqb_neq; lia).
      cbn [negb fst currentSection isScrolling].
      split; [lia|]. split; [discriminate|].
      right. split; [reflexivity|]. split; [reflexivity | lia].
    + rewrite Z.eqb_refl. cbn [negb fst].
      split; [exact Hr|]. split; [discriminate | now left].
Qed.

Lemma wheelRun_locked (ds : list Q) (w : WheelState) :
  isScrolling w = true -> wheelRun (map Wheel ds) w = w.
Proof.
  intros Hl. induction ds as [|d ds IH]; [reflexivity|].
  cbn [map wheelRun fold_left wheelStep].
  unfold handleWheel at 1. rewrite Hl. cbn [fst]. exact IH.
Qed.

Lemma wheelRun_range (es : list WheelEvent) : forall w,
  (0 <= currentSection w <= 2)%Z ->
  (0 <= currentSection (wheelRun es w) <= 2)%Z.
Proof.
  induction es as [|e es IH]; intros w Hr; [exact Hr|].
  cbn [wheelRun fold_left]. apply IH.
  destruct e as [d|]; cbn [wheelStep].
  - now apply handleWheel_step.
  - exact Hr.
Qed.

(** X16.  The wheel handler keeps the current section within 0..2 over any
    sequence of wheel events and lock releases.  Between two lock releases
    it moves at most once and by exactly one section: a burst of wheel
    events, whatever their deltas, leaves the page either where it was or
    one section away with the lock set. *)
Theorem wheel_burst_moves_one_section
    (ds : list Q) (es : list WheelEvent) (w : WheelState) :
  (0 <= currentSection w <= 2)%Z ->
  (0 <= currentSection (wheelRun es w) <= 2)%Z /\
  (wheelRun (map Wheel ds) w = w \/
   (isScrolling (wheelRun (map Wheel ds) w) = true /\
    Z.abs (currentSection (wheelRun (map Wheel ds) w) - currentSection w)
    = 1%Z)).
Proof.
  intros Hr. split; [now apply wheelRun_range|].
  revert w Hr. induction ds as [|d ds IH]; intros w Hr; [now left|].
  cbn [map wheelRun fold_left wheelStep].
  destruct (handleWheel_step d w Hr) as (Hr' & _ & [E | (_ & Hl & Hm)]).
  - rewrite E. apply IH. exact Hr.
  - right.
    change (fold_left (fun w e => wheelStep e w) (map Wheel ds)
              (fst (handleWheel d w)))
      with (wheelRun (map Wheel ds) (fst (handleWheel d w))).
    rewrite (wheelRun_locked ds _ Hl). split; assumption.
Qed.

Lemma wheel_burst_moves_one_section_witness :
  let w := {| currentSection := 1; isScrolling := false |} in
  let ds := [3; 120; -120; 40] in
  let es := [Wheel 120; Unlock; Wheel 120; Unlock; Wheel 120] in
  (0 <= currentSection (wheelRun es w) <= 2)%Z /\
  (wheelRun (map Wheel ds) w = w \/
   (isScrolling (wheelRun (map Wheel ds) w) = true /\
    Z.abs (currentSection (wheelRun (map Wheel ds) w) - currentSection w)
    = 1%Z)).
Proof.
  intros w ds es. apply (wheel_burst_moves_one_section ds es w).
  cbn. lia.
Defined.

End ScrollInputFacts.

(* ------------------------------------------------------------------ *)
(** ** More uniform writers *)

Module OverlayMoreFacts.

Import ScrollModel OverlayEffects OverlayMore.

Lemma has_set_value (U : Uniforms) (k k' : string) (v : num) :
  has (set_value U k v) k' = has U k'.
Proof.
  induction U as [|[k0 v0] U IH]; cbn; [reflexivity|].
  destruct (String.eqb k0 k) eqn:E; cbn; [reflexivity|].
  now rewrite IH.
Qed.

(** What [Math.max(1, multiplier || 3.0)] is for an input other than a
    Symbol: at least 1, never NaN, and 3 for a falsy input. *)
Lemma written_multiplier (v : jsval) :
  v <> JSymbol ->
  exists w,
    Math_max (JNumber (Fin 1)) (js_or v (JNumber (Fin 3.0))) = Normal w /\
    nle (Fin 1) w = true /\
    (ToBoolean v = false -> w = Fin 3.0) /\
    (forall q, v = JNumber (Fin q) -> ~ q == 0 -> w = Fin (Qmax 1 q)).
Proof.
  intros Hv. destruct v as [| | b | n |]; try congruence.
  - eexists. repeat split. intros q H; discriminate H.
  - eexists. repeat split. intros q H; discriminate H.
  - destruct b; (eexists; split; [reflexivity|]; split; [reflexivity|];
      split; [try discriminate; reflexivity | intros q H; discriminate H]).
  - destruct n as [| | | q].
    + eexists. repeat split. intros q H; discriminate H.
    + eexists. split; [reflexivity|]. split; [reflexivity|].
      split; [discriminate | intros q H; discriminate H].
    + eexists. split; [reflexivity|]. split; [reflexivity|].
      split; [discriminate | intros q H; discriminate H].
    + unfold js_or. cbn [ToBoolean].
      destruct (Qeq_bool q 0) eqn:E; cbn [negb].
      * eexists. split; [reflexivity|]. split; [reflexivity|].
        split; [reflexivity|].
        intros q' H Hq. injection H as <-.
        apply Qeq_bool_iff in E. contradiction.
      * eexists. split; [reflexivity|].
        split; [cbn [nmax nle]; apply Qle_bool_iff; apply Q.le_max_l|].
        split; [discriminate|].
        intros q' H _. injection H as <-. reflexivity.
Qed.

(** X17.  For an input that is [undefined], [null], a boolean or a number
    (NaN and the infinities included), [setReededScrollRefractionMultiplier]
    never writes a multiplier below 1 or a NaN: the call completes, the
    uniform afterwards holds a number that is at least 1, a falsy input
    (missing, 0, NaN, [false]) gives the default 3, and no other uniform
    changes.  An absent handle and an effect without the uniform are left
    alone.  There is no check of the argument's type: a Symbol throws when
    the uniform exists. *)
Theorem refraction_multiplier_at_least_one (effect : Handle) (v : jsval) :
  (plainValue v ->
   exists effect',
     setReededScrollRefractionMultiplier effect v = Normal effect' /\
     match effect with
     | None => effect' = None
     | Some e =>
         exists e', effect' = Some e' /\
         if has (uniforms e) "scrollRefractionMultiplier" then
           exists w,
             get (uniforms e') "scrollRefractionMultiplier" = Some w /\
             nle (Fin 1) w = true /\
             (ToBoolean v = false -> w = Fin 3.0) /\
             (forall k, k <> "scrollRefractionMultiplier"%string ->
                        get (uniforms e') k = get (uniforms e) k)
         else e' = e
     end) /\
  (forall e, effect = Some e ->
             has (uniforms e) "scrollRefractionMultiplier" = true ->
             setReededScrollRefractionMultiplier effect JSymbol
             = ThrowTypeError).
Proof.
  split.
  - intros Hp.
    assert (Hv : v <> JSymbol) by (intros ->; exact Hp).
    destruct effect as [e|]; [|exists None; split; reflexivity].
    unfold setReededScrollRefractionMultiplier.
    destruct (has (uniforms e) "scrollRefractionMultiplier") eqn:Hh.
    + destruct (written_multiplier v Hv) as (w & Hw & Hge & Hf & _).
      rewrite Hw. cbn [bindC].
      eexists. split; [reflexivity|].
      eexists. split; [reflexivity|].
      exists w. cbn [uniforms].
      split; [now apply OverlayFacts.get_set_value_same|].
      split; [exact Hge|]. split; [exact Hf|].
      intros k Hk. now apply OverlayFacts.get_set_value_other.
    + eexists. split; [reflexivity|]. eexists. split; reflexivity.
  - intros e -> Hh. unfold setReededScrollRefractionMultiplier.
    rewrite Hh. reflexivity.
Qed.

Lemma refraction_multiplier_at_least_one_witness :
  exists effect',
    setReededScrollRefractionMultiplier
      (Some (mkEffect reededScrollUniforms)) (JNumber (Fin 0.25))
    = Normal effect' /\
    exists e', effect' = Some e' /\
      exists w,
        get (uniforms e') "scrollRefractionMultiplier" = Some w /\
        nle (Fin 1) w = true /\
        (ToBoolean (JNumber (Fin 0.25)) = false -> w = Fin 3.0) /\
        (forall k, k <> "scrollRefractionMultiplier"%string ->
                   get (uniforms e') k = get reededScrollUniforms k).
Proof.
  apply (proj1 (refraction_multiplier_at_least_one
                  (Some (mkEffect reededScrollUniforms))
                  (JNumber (Fin 0.25)))).
  exact I.
Defined.

Lemma progress_write (e : Effect) (x : Q) :
  has (uniforms e) "scrollProgress" = true ->
  exists w,
    setReededScrollProgress (Some e) (JNumber (Fin x))
    = Normal (Some {| uniforms :=
                        set_value (uniforms e) "scrollProgress" (Fin w) |})
    /\ w == Qmax 0 (Qmin 1 x).
Proof.
  intros Hh. unfold setReededScrollProgress. rewrite Hh.
  unfold js_or. cbn [ToBoolean].
  destruct (Qeq_bool x 0) eqn:E; cbn [negb].
  - eexists. split; [reflexivity|].
    apply Qeq_bool_iff in E. rewrite E. reflexivity.
  - eexists. split; reflexivity.
Qed.

Lemma multiplier_write (e : Effect) (m : Q) :
  has (uniforms e) "scrollRefractionMultiplier" = true ->
  exists w,
    setReededScrollRefractionMultiplier (Some e) (JNumber (Fin m))
    = Normal (Some {| uniforms :=
                        set_value (uniforms e) "scrollRefractionMultiplier"
                                  (Fin w) |})
    /\ 1 <= w /\ (m == 0 -> w == 3) /\ (~ m == 0 -> w == Qmax 1 m).
Proof.
  intros Hh. unfold setReededScrollRefractionMultiplier. rewrite Hh.
  unfold js_or. cbn [ToBoolean].
  destruct (Qeq_bool m 0) eqn:E; cbn [negb].
  - apply Qeq_bool_iff in E.
    eexists. split; [reflexivity|].
    split; [discriminate|]. split; [reflexivity | contradiction].
  - apply Qeq_bool_neq in E.
    eexists. split; [reflexivity|].
    split; [apply Q.le_max_l|]. split; [contradiction | reflexivity].
Qed.

Lemma split_write (e : Effect) (b r : Q) :
  has (uniforms e) "splitScreenMode" = true ->
  has (uniforms e) "splitScreenBoundary" = true ->
  has (uniforms e) "rightSideProgress" = true ->
  setReededSplitScreenMode (Some e) (JBool true) (JNumber (Fin b))
    (JNumber (Fin r))
  = Normal (Some {| uniforms :=
      set_value
        (set_value (set_value (uniforms e) "splitScreenMode" (Fin 1.0))
                   "splitScreenBoundary" (Fin (Qmax 0 (Qmin 1 b))))
        "rightSideProgress" (Fin (Qmax 0 (Qmin 1 r))) |}).
Proof.
  intros H1 H2 H3. unfold setReededSplitScreenMode.
  cbn [defaultTo ToBoolean]. rewrite H1.
  rewrite has_set_value, H2.
  cbn [Math_min Math_max ToNumber bindC nmin nmax].
  rewrite !has_set_value, H3. reflexivity.
Qed.

(** The uniforms after the three writes of [pushGlassMode]. *)
Lemma pushGlassMode_writes (e : Effect) (m l r : Q) :
  has (uniforms e) "scrollProgress" = true ->
  has (uniforms e) "scrollRefractionMultiplier" = true ->
  has (uniforms e) "splitScreenMode" = true ->
  has (uniforms e) "splitScreenBoundary" = true ->
  has (uniforms e) "rightSideProgress" = true ->
  exists e1 e2 e' l' m' b',
    setReededScrollProgress (Some e) (JNumber (Fin l)) = Normal (Some e1) /\
    setReededScrollRefractionMultiplier (Some e1) (JNumber (Fin m))
    = Normal (Some e2) /\
    setReededSplitScreenMode (Some e2) (JBool true) (JNumber (Fin 0.5))
      (JNumber (Fin r)) = Normal (Some e') /\
    get (uniforms e') "scrollProgress" = Some (Fin l') /\
    l' == Qmax 0 (Qmin 1 l) /\
    get (uniforms e') "rightSideProgress" = Some (Fin (Qmax 0 (Qmin 1 r))) /\
    get (uniforms e') "scrollRefractionMultiplier" = Some (Fin m') /\
    1 <= m' /\ (m == 0 -> m' == 3) /\ (~ m == 0 -> m' == Qmax 1 m) /\
    get (uniforms e') "splitScreenMode" = Some (Fin 1.0) /\
    get (uniforms e') "splitScreenBoundary" = Some (Fin b') /\
    b' == 0.5.
Proof.
  intros H1 H2 H3 H4 H5.
  destruct (progress_write e l H1) as (l' & E1 & Hl).
  set (e1 := {| uniforms := set_value (uniforms e) "scrollProgress" (Fin l') |}).
  assert (K : forall k, has (uniforms e1) k = has (uniforms e) k)
    by (intros k; apply has_set_value).
  destruct (multiplier_write e1 m) as (m' & E2 & Hm1 & Hm0 & Hmn);
    [now rewrite K|].
  set (e2 := {| uniforms :=
                  set_value (uniforms e1) "scrollRefractionMultiplier"
                            (Fin m') |}).
  assert (K2 : forall k, has (uniforms e2) k = has (uniforms e) k)
    by (intros k; cbn [e2 uniforms]; now rewrite has_set_value, K).
  pose proof (split_write e2 0.5 r) as E3.
  rewrite !K2 in E3. specialize (E3 H3 H4 H5).
  eexists e1, e2, _, l', m', _.
  split; [exact E1|]. split; [exact E2|]. split; [exact E3|].
  cbn [uniforms e1 e2].
  assert (S1 : forall U k v, has U k = true -> get (set_value U k v) k = Some v)
    by (intros; now apply OverlayFacts.get_set_value_same).
  split.
  { rewrite !OverlayFacts.get_set_value_other by discriminate.
    now apply S1. }
  split; [exact Hl|].
  split.
  { apply S1. now rewrite !has_set_value. }
  split.
  { rewrite !OverlayFacts.get_set_value_other by discriminate.
    apply S1. now rewrite has_set_value. }
  split; [exact Hm1|]. split; [exact Hm0|]. split; [exact Hmn|].
  split.
  { rewrite !OverlayFacts.get_set_value_other by discriminate.
    apply S1. now rewrite !has_set_value. }
  split.
  { rewrite OverlayFacts.get_set_value_other by discriminate.
    apply S1. now rewrite !has_set_value. }
  reflexivity.
Qed.

(** X18.  What a scroll progress does to the reeded-glass effect, end to
    end.  For an effect that has the five scroll uniforms and any finite
    progress [p] and multiplier [m], the push through the three writers
    completes and leaves: split-screen mode 1 with the boundary at 0.5; a
    left coverage and a right coverage that both lie in [0, 1], equal to
    [2p] and 0 on [0, 0.5] and to 1 and [2(p - 0.5)] on (0.5, 1], pinned at
    0 below 0 and at 1 above 1; and a refraction multiplier of at least 1,
    which is 3 when [m] is 0. *)
Theorem glass_push_end_to_end (e : Effect) (m p : Q) :
  has (uniforms e) "scrollProgress" = true ->
  has (uniforms e) "scrollRefractionMultiplier" = true ->
  has (uniforms e) "splitScreenMode" = true ->
  has (uniforms e) "splitScreenBoundary" = true ->
  has (uniforms e) "rightSideProgress" = true ->
  exists e' l r m' b,
    pushGlassMode (Some e) (Fin m) (Fin p) = Normal (Some e') /\
    get (uniforms e') "scrollProgress" = Some (Fin l) /\
    get (uniforms e') "rightSideProgress" = Some (Fin r) /\
    get (uniforms e') "scrollRefractionMultiplier" = Some (Fin m') /\
    get (uniforms e') "splitScreenMode" = Some (Fin 1.0) /\
    get (uniforms e') "splitScreenBoundary" = Some (Fin b) /\
    b == 0.5 /\
    0 <= l <= 1 /\ 0 <= r <= 1 /\ 1 <= m' /\
    (p <= 0 -> l == 0 /\ r == 0) /\
    (0 <= p <= 0.5 -> l == 2 * p /\ r == 0) /\
    (0.5 < p <= 1 -> l == 1 /\ r == 2 * (p - 0.5)) /\
    (1 <= p -> l == 1 /\ r == 1) /\
    (m == 0 -> m' == 3) /\
    (1 <= m -> m' == m).
Proof.
  intros H1 H2 H3 H4 H5.
  assert (C : forall x, 0 <= Qmax 0 (Qmin 1 x) <= 1).
  { intros x. split; [apply Q.le_max_l|].
    apply Q.max_lub; [discriminate | apply Q.le_min_l]. }
  assert (Clow : forall x, x <= 0 -> Qmax 0 (Qmin 1 x) == 0).
  { intros x H. apply Q.max_l. apply Q.min_le_iff. now right. }
  assert (Cmid : forall x, 0 <= x <= 1 -> Qmax 0 (Qmin 1 x) == x).
  { intros x [Ha Hb]. rewrite Q.min_r by exact Hb. now apply Q.max_r. }
  assert (Chigh : forall x, 1 <= x -> Qmax 0 (Qmin 1 x) == 1).
  { intros x H. rewrite Q.min_l by exact H. apply Q.max_r. discriminate. }
  unfold pushGlassMode.
  destruct (Qlt_le_dec 0.5 p) as [Hp | Hp].
  - rewrite ScrollFacts.glass_back_half by exact Hp.
    cbn [effectProgress splitScreen boundary rightSideProgress].
    destruct (pushGlassMode_writes e m 1.0 ((p - 0.5) * 2.0) H1 H2 H3 H4 H5)
      as (e1 & e2 & e' & l' & m' & b' & E1 & E2 & E3 & G1 & Hl & G2 & G3
          & Hm1 & Hm0 & Hmn & G4 & G5 & Hb).
    rewrite E1. cbn [bindC]. rewrite E2. cbn [bindC].
    exists e', l', (Qmax 0 (Qmin 1 ((p - 0.5) * 2.0))), m', b'.
    split; [exact E3|]. split; [exact G1|]. split; [exact G2|].
    split; [exact G3|]. split; [exact G4|]. split; [exact G5|].
    split; [exact Hb|].
    assert (Hl1 : l' == 1) by (rewrite Hl; apply Chigh; discriminate).
    split; [lra|]. split; [apply C|]. split; [exact Hm1|].
    split; [intros H; lra|]. split; [intros H; lra|].
    split; [intros [_ H]; split; [exact Hl1 | rewrite Cmid; lra]|].
    split; [intros H; split; [exact Hl1 | apply Chigh; lra]|].
    split; [exact Hm0|].
    intros H. rewrite Hmn by lra. apply Q.max_r. exact H.
  - rewrite ScrollFacts.glass_front_half by exact Hp.
    cbn [effectProgress splitScreen boundary rightSideProgress].
    destruct (pushGlassMode_writes e m (p * 2.0) 0.0 H1 H2 H3 H4 H5)
      as (e1 & e2 & e' & l' & m' & b' & E1 & E2 & E3 & G1 & Hl & G2 & G3
          & Hm1 & Hm0 & Hmn & G4 & G5 & Hb).
    rewrite E1. cbn [bindC]. rewrite E2. cbn [bindC].
    exists e', l', (Qmax 0 (Qmin 1 0.0)), m', b'.
    split; [exact E3|]. split; [exact G1|]. split; [exact G2|].
    split; [exact G3|]. split; [exact G4|]. split; [exact G5|].
    split; [exact Hb|].
    assert (Hr0 : Qmax 0 (Qmin 1 0.0) == 0) by reflexivity.
    split; [rewrite Hl; apply C|]. split; [apply C|]. split; [exact Hm1|].
    split; [intros H; split; [rewrite Hl; apply Clow; lra | exact Hr0]|].
    split; [intros [H _]; split; [rewrite Hl, Cmid; lra | exact Hr0]|].
    split; [intros [H _]; lra|].
    split; [intros H; lra|].
    split; [exact Hm0|].
    intros H. rewrite Hmn by lra. apply Q.max_r. exact H.
Qed.

Lemma glass_push_end_to_end_witness :
  exists e' l r m' b,
    pushGlassMode (Some (mkEffect reededScrollUniforms)) (Fin 3) (Fin 0.75)
    = Normal (Some e') /\
    get (uniforms e') "scrollProgress" = Some (Fin l) /\
    get (uniforms e') "rightSideProgress" = Some (Fin r) /\
    get (uniforms e') "scrollRefractionMultiplier" = Some (Fin m') /\
    get (uniforms e') "splitScreenMode" = Some (Fin 1.0) /\
    get (uniforms e') "splitScreenBoundary" = Some (Fin b) /\
    b == 0.5 /\
    0 <= l <= 1 /\ 0 <= r <= 1 /\ 1 <= m' /\
    (0.75 <= 0 -> l == 0 /\ r == 0) /\
    (0 <= 0.75 <= 0.5 -> l == 2 * 0.75 /\ r == 0) /\
    (0.5 < 0.75 <= 1 -> l == 1 /\ r == 2 * (0.75 - 0.5)) /\
    (1 <= 0.75 -> l == 1 /\ r == 1) /\
    (3 == 0 -> m' == 3) /\
    (1 <= 3 -> m' == 3).
Proof.
  apply (glass_push_end_to_end (mkEffect reededScrollUniforms) 3 0.75);
    reflexivity.
Defined.

(** [n || d] and [Number(v) || d] are never NaN when [d] is not. *)
Lemma falsyOr_cases (n : num) (d : Q) :
  (exists q, falsyOr n (Fin d) = Fin q)
  \/ falsyOr n (Fin d) = PosInf \/ falsyOr n (Fin d) = NegInf.
Proof.
  destruct n as [| | | q]; cbn; eauto.
  destruct (Qeq_bool q 0); eauto.
Qed.

Lemma numberOr_cases (v : option num) (d : Q) :
  (exists q, numberOr v (Fin d) = Fin q)
  \/ numberOr v (Fin d) = PosInf \/ numberOr v (Fin d) = NegInf.
Proof.
  destruct v as [n|]; cbn [numberOr]; [apply falsyOr_cases | eauto].
Qed.

(** The canvas width after [Math.max(canvasWidthPx || 0, 1)]. *)
Lemma canvas_width_cases (c : num) :
  c <> PosInf ->
  exists w, nmax (falsyOr c (Fin 0)) (Fin 1) = Fin w /\ 1 <= w.
Proof.
  intros Hc. destruct c as [| | | q]; try congruence; cbn.
  - exists (Qmax 0 1). split; [reflexivity | discriminate].
  - exists 1. split; [reflexivity | discriminate].
  - destruct (Qeq_bool q 0); cbn [nmax]; eexists; (split; [reflexivity|]);
      apply Q.le_max_r.
Qed.

Lemma flute_clamp (w : Q) (n : num) :
  1 <= w ->
  n = PosInf \/ n = NegInf \/ (exists q, n = Fin q) ->
  exists f,
    nmax (Fin 10)
         (nmin (Fin 22) (nmax (Fin 1) (ndiv (nmul (Fin w) n) (Fin 100))))
    = Fin f /\ 10 <= f <= 22.
Proof.
  intros Hw [-> | [-> | [q ->]]].
  - cbn [nmul nsign].
    assert (E : (w ?= 0) = Gt) by (apply Qgt_alt; lra).
    rewrite E. cbn. exists (Qmax 10 22). split; [reflexivity|].
    split; discriminate.
  - cbn [nmul nsign].
    assert (E : (w ?= 0) = Gt) by (apply Qgt_alt; lra).
    rewrite E. cbn. exists (Qmax 10 (Qmin 22 1)). split; [reflexivity|].
    split; discriminate.
  - cbn [nmul]. rewrite NumFacts.ndiv_fin by discriminate.
    cbn [nmax nmin]. eexists. split; [reflexivity|].
    split; [apply Q.le_max_l|].
    apply Q.max_lub; [discriminate | apply Q.le_min_l].
Qed.

(** X19.  The flute width [computeFluteWidthPx] returns.  With a unit other
    than px it is a finite number of pixels within [10, 22] for whatever
    flute parameters are given (missing, zero, NaN or infinite included) and
    for every canvas width other than +Infinity: zero, negative and NaN
    widths included.  With the unit px it is at least 1 and never NaN, for
    every canvas width. *)
Theorem flute_width_bounds (params : FluteParams) (canvasWidthPx : num) :
  (canvasWidthPx <> PosInf ->
   String.eqb (unitOf params) "px" = false ->
   exists f, computeFluteWidthPx params canvasWidthPx = Fin f
             /\ 10 <= f <= 22) /\
  (String.eqb (unitOf params) "px" = true ->
   nle (Fin 1) (computeFluteWidthPx params canvasWidthPx) = true).
Proof.
  split.
  - intros Hc Hu. unfold computeFluteWidthPx. cbv zeta. rewrite Hu.
    destruct (canvas_width_cases canvasWidthPx Hc) as (w & Ew & Hw).
    rewrite Ew.
    match goal with
    | |- context [numberOr ?v (Fin 0)] =>
        destruct (numberOr_cases v 0) as [[q E] | [E | E]]; rewrite E
    end; apply flute_clamp; eauto.
  - intros Hu. unfold computeFluteWidthPx. cbv zeta. rewrite Hu.
    match goal with
    | |- context [numberOr ?v (Fin 1)] =>
        destruct (numberOr_cases v 1) as [[q E] | [E | E]]; rewrite E
    end; cbn [nmax nle]; [|reflexivity | reflexivity].
    apply Qle_bool_iff. apply Q.le_max_l.
Qed.

(** The exported parameters on a canvas of width 0. *)
Lemma flute_width_bounds_witness :
  (exists f, computeFluteWidthPx reededParams (Fin 0) = Fin f
             /\ 10 <= f <= 22) /\
  nle (Fin 1)
      (computeFluteWidthPx
         (mkFluteParams (Some "PX"%string) None None None) NaN) = true.
Proof.
  split.
  - apply (proj1 (flute_width_bounds reededParams (Fin 0)));
      [discriminate | reflexivity].
  - apply (proj2 (flute_width_bounds
                    (mkFluteParams (Some "PX"%string) None None None) NaN)).
    reflexivity.
Defined.

End OverlayMoreFacts.

(* ------------------------------------------------------------------ *)
(** ** The snap-scrolling system *)

Module SnapScrollFacts.

Import SnapScroll.

Lemma glassProgressAt_range (startSection targetSection : Z) (p : Q) :
  0 <= glassProgressAt startSection targetSection p <= 1.
Proof.
  unfold glassProgressAt. cbv zeta. split.
  - apply Q.min_glb; [discriminate | apply Q.le_max_l].
  - apply Q.le_min_l.
Qed.

Lemma navigateToSection_cases (t : Z) (s : ScrollSystem) :
  (Z.max 0 (Z.min t (totalSections s - 1)) = currentSection s /\
   navigateToSection t s = s) \/
  (exists c,
     c = Z.max 0 (Z.min t (totalSections s - 1)) /\
     c <> currentSection s /\
     navigateToSection t s
     = mkScrollSystem c (totalSections s) (wheelAccumulator s) true
         (inputLocked s) (prefersReducedMotion s)
         (Some (currentSection s, c)) (position s) (glassProgress s)).
Proof.
  unfold navigateToSection. cbv zeta.
  destruct (Z.max 0 (Z.min t (totalSections s - 1)) =? currentSection s)%Z
    eqn:E; [left; split; [now apply Z.eqb_eq | reflexivity]|].
  right. eexists. split; [reflexivity|].
  split; [now apply Z.eqb_neq | reflexivity].
Qed.

Lemma navigateToSection_consistent (t : Z) (s : ScrollSystem) :
  consistent s -> consistent (navigateToSection t s).
Proof.
  intros (Hr & Ht & Hg).
  destruct (navigateToSection_cases t s) as [[_ E] | (c & Hc & Hne & E)];
    rewrite E; [exact (conj Hr (conj Ht Hg))|].
  unfold consistent.
  cbn [currentSection totalSections isAnimating tween glassProgress].
  split; [lia|]. split; [eauto | exact Hg].
Qed.

Lemma navigateToSection_keeps (t : Z) (s : ScrollSystem) :
  totalSections (navigateToSection t s) = totalSections s /\
  wheelAccumulator (navigateToSection t s) = wheelAccumulator s /\
  prefersReducedMotion (navigateToSection t s) = prefersReducedMotion s.
Proof.
  destruct (navigateToSection_cases t s) as [[_ E] | (c & Hc & Hne & E)];
    rewrite E; repeat split.
Qed.

Lemma with_wheelAccumulator_consistent (v : Q) (s : ScrollSystem) :
  consistent s -> consistent (with_wheelAccumulator v s).
Proof. intros H. exact H. Qed.

Lemma threshold_le (b : bool) :
  (if b then mouseThreshold else trackpadThreshold) <= 120.
Proof. destruct b; discriminate. Qed.

Lemma step_consistent (e : Event) (s : ScrollSystem) :
  consistent s -> Qabs (wheelAccumulator s) < 120 ->
  consistent (step e s) /\ Qabs (wheelAccumulator (step e s)) < 120
  /\ totalSections (step e s) = totalSections s
  /\ prefersReducedMotion (step e s) = prefersReducedMotion s.
Proof.
  intros Hc Ha. destruct e as [d | | key | d dt | p | | |]; cbn [step].
  - unfold handleWheel. destruct (blocked s); [auto|]. cbv zeta.
    cbn [wheelAccumulator with_wheelAccumulator].
    match goal with
    | |- context [Qle_bool ?t ?a] => destruct (Qle_bool t a) eqn:E
    end.
    + pose proof (navigateToSection_keeps
                    (currentSection
                       (with_wheelAccumulator (wheelAccumulator s + d) s)
                     + (if Qlt_bool 0 (wheelAccumulator s + d)
                        then 1 else -1)
                       * (if Qle_bool skipThreshold
                               (Qabs (wheelAccumulator s + d))
                          then 2 else 1))
                    (with_wheelAccumulator (wheelAccumulator s + d) s))
        as (K1 & _ & K3).
      split; [|split; [reflexivity | split; [exact K1 | exact K3]]].
      apply with_wheelAccumulator_consistent.
      apply navigateToSection_consistent.
      now apply with_wheelAccumulator_consistent.
    + split; [exact Hc|]. split; [|split; reflexivity].
      cbn [wheelAccumulator with_wheelAccumulator].
      apply Qle_bool_false_iff in E.
      eapply Qlt_le_trans; [exact E | apply threshold_le].
  - split; [exact Hc|]. split; [reflexivity | split; reflexivity].
  - unfold handleKeyboard. destruct (blocked s); [auto|].
    repeat match goal with
           | |- context [if ?b then _ else _] => destruct b
           end;
      try (split; [exact Hc | split; [exact Ha | split; reflexivity]]);
      (split; [now apply navigateToSection_consistent|];
       match goal with
       | |- context [navigateToSection ?t s] =>
           destruct (navigateToSection_keeps t s) as (K1 & K2 & K3)
       end;
       rewrite K2; auto).
  - unfold handleTouchEnd. destruct (blocked s); [auto|].
    destruct (Qlt_bool dt 300 && Qlt_bool 50 (Qabs d)); [|auto].
    cbv zeta.
    split; [now apply navigateToSection_consistent|].
    match goal with
    | |- context [navigateToSection ?t s] =>
        destruct (navigateToSection_keeps t s) as (K1 & K2 & K3)
    end.
    rewrite K2; auto.
  - unfold animUpdate. destruct (tween s) as [[st tg]|] eqn:Et; [|auto].
    cbv zeta.
    split; [|split; [exact Ha | split; reflexivity]].
    destruct Hc as (Hr & Ht & Hg). unfold consistent.
    cbn [currentSection totalSections isAnimating tween glassProgress
         position updatePosition].
    split; [exact Hr|].
    split; [|apply glassProgressAt_range].
    destruct (isAnimating s).
    + destruct Ht as [st' Ht]. rewrite Et. rewrite Et in Ht. eauto.
    + destruct Ht as [Ht _]. congruence.
  - unfold animComplete. destruct (tween s) as [[st tg]|] eqn:Et; [|auto].
    split; [|split; [exact Ha | split; reflexivity]].
    destruct Hc as (Hr & Ht & Hg). unfold consistent.
    cbn [currentSection totalSections isAnimating tween glassProgress
         position].
    split; [exact Hr|]. split; [|exact Hg].
    split; [reflexivity|].
    destruct (isAnimating s).
    + destruct Ht as [st' Ht]. rewrite Et in Ht. injection Ht as _ ->.
      reflexivity.
    + destruct Ht as [Ht _]. congruence.
  - split; [exact Hc|]. split; [exact Ha | split; reflexivity].
  - split; [|split; [exact Ha | split; reflexivity]].
    destruct Hc as (Hr & Ht & Hg). unfold consistent.
    cbn [currentSection totalSections isAnimating tween glassProgress
         position updatePosition].
    split; [exact Hr|]. split; [|exact Hg].
    destruct (isAnimating s); [exact Ht|].
    split; [apply Ht | reflexivity].
Qed.

Lemma run_consistent (es : list Event) : forall s,
  consistent s -> Qabs (wheelAccumulator s) < 120 ->
  consistent (run es s) /\ Qabs (wheelAccumulator (run es s)) < 120
  /\ totalSections (run es s) = totalSections s
  /\ prefersReducedMotion (run es s) = prefersReducedMotion s.
Proof.
  induction es as [|e es IH]; intros s Hc Ha; [auto|].
  cbn [run fold_left].
  destruct (step_consistent e s Hc Ha) as (Hc' & Ha' & Ht & Hp).
  destruct (IH (step e s) Hc' Ha') as (Hc2 & Ha2 & Ht2 & Hp2).
  split; [exact Hc2|]. split; [exact Ha2|].
  split; [rewrite <- Ht; exact Ht2 | rewrite <- Hp; exact Hp2].
Qed.

Lemma construct_consistent (panels : nat) (reducedMotion : bool) :
  consistent (construct panels reducedMotion).
Proof.
  unfold consistent, construct.
  cbn [currentSection totalSections isAnimating tween glassProgress position].
  split; [lia|]. split; [|exact I]. split; reflexivity.
Qed.

(** X20.  Whatever wheel, key, touch, resize, timeout and tween events
    reach a [ScrollSystem] built over [panels] panels, in whatever order:
    the current section stays a valid index (0 when there are no panels);
    the wheel accumulator stays below 120 in absolute value; whenever no
    snap animation runs the container rests exactly on the current section;
    and every value handed to [onProgress] lies in [0, 1]. *)
Theorem snap_state_stays_consistent (panels : nat) (es : list Event) :
  let s := run es (construct panels false) in
  (0 <= currentSection s <= Z.max 0 (Z.of_nat panels - 1))%Z /\
  Qabs (wheelAccumulator s) < 120 /\
  (isAnimating s = false ->
   tween s = None /\ position s == inject_Z (currentSection s)) /\
  (forall g, glassProgress s = Some g -> 0 <= g <= 1).
Proof.
  intros s.
  destruct (run_consistent es (construct panels false)
              (construct_consistent panels false))
    as ((Hr & Ht & Hg) & Ha & Htot & _); [reflexivity|].
  fold s in Hr, Ht, Hg, Ha, Htot.
  split; [rewrite Htot in Hr; exact Hr|].
  split; [exact Ha|].
  split.
  - intros Hn. rewrite Hn in Ht. exact Ht.
  - intros g Eg. rewrite Eg in Hg. exact Hg.
Qed.

Lemma input_blocked (e : Event) (s : ScrollSystem) :
  isInput e = true -> blocked s = true -> step e s = s.
Proof.
  intros He Hb. destruct e; try discriminate; cbn [step].
  - unfold handleWheel. now rewrite Hb.
  - unfold handleKeyboard. now rewrite Hb.
  - unfold handleTouchEnd. now rewrite Hb.
Qed.

Lemma step_while_animating (e : Event) (s : ScrollSystem) :
  isAnimating s = true -> e <> AnimComplete ->
  isAnimating (step e s) = true /\
  currentSection (step e s) = currentSection s /\
  tween (step e s) = tween s.
Proof.
  intros Ha Hne.
  assert (Hb : blocked s = true) by (unfold blocked; now rewrite Ha).
  destruct e as [d | | key | d dt | p | | |];
    try (rewrite input_blocked by (reflexivity || exact Hb); auto);
    cbn [step]; auto.
  - unfold animUpdate. destruct (tween s) as [[st tg]|] eqn:Et; auto.
  - congruence.
Qed.

(** X21.  The listeners cannot interrupt or retarget a snap.  While the
    system is animating, locked or in reduced motion, wheel, key and touch
    events leave it exactly as it is; and while a snap animation runs, none
    of the events the system reacts to by itself (input, resize, tween
    update, timeouts), short of the completion of the tween, changes the
    section it leads to.  The public [goToSection] is the exception: it has
    no such guard, and called with a section that clamps to another than the
    current one it makes that the current section and starts an animation,
    also while a snap is running. *)
Theorem running_snap_not_retargeted
    (inputs es : list Event) (s : ScrollSystem) (section : Z) :
  (blocked s = true -> forallb isInput inputs = true ->
   run inputs s = s) /\
  (isAnimating s = true -> Forall (fun e => e <> AnimComplete) es ->
   isAnimating (run es s) = true /\
   currentSection (run es s) = currentSection s /\
   tween (run es s) = tween s) /\
  (Z.max 0 (Z.min section (totalSections s - 1)) <> currentSection s ->
   currentSection (goToSection section s)
   = Z.max 0 (Z.min section (totalSections s - 1)) /\
   isAnimating (goToSection section s) = true).
Proof.
  split; [|split].
  - intros Hb. induction inputs as [|e inputs IH]; intros Hi; [reflexivity|].
    cbn [forallb] in Hi. apply andb_true_iff in Hi. destruct Hi as [He Hi].
    cbn [run fold_left]. rewrite (input_blocked e s He Hb). now apply IH.
  - revert s. induction es as [|e es IH]; intros s Ha Hes; [auto|].
    inversion Hes as [|? ? He Hes']; subst.
    destruct (step_while_animating e s Ha He) as (Ha' & Hc & Ht).
    cbn [run fold_left].
    destruct (IH (step e s) Ha' Hes') as (Ha2 & Hc2 & Ht2).
    split; [exact Ha2|].
    split; [rewrite <- Hc; exact Hc2 | rewrite <- Ht; exact Ht2].
  - intros Hne. unfold goToSection.
    destruct (navigateToSection_cases section s)
      as [[Hc _] | (c & Hc & _ & E)]; [contradiction|].
    rewrite E. cbn [currentSection isAnimating]. split; [exact Hc | reflexivity].
Qed.

(** A system of three panels on its way to the last one: input and its own
    events leave the snap alone, [goToSection(0)] turns it round. *)
Lemma running_snap_not_retargeted_witness :
  let s := step (Key "End") (construct 3 false) in
  run [Wheel 700; Key "Home"; TouchEnd 80 100] s = s /\
  (isAnimating (run [Wheel 700; AnimUpdate 0.5; LockTimeout; Resize] s)
   = true /\
   currentSection (run [Wheel 700; AnimUpdate 0.5; LockTimeout; Resize] s)
   = currentSection s /\
   tween (run [Wheel 700; AnimUpdate 0.5; LockTimeout; Resize] s)
   = tween s) /\
  isAnimating s = true /\
  currentSection s = 2%Z /\
  currentSection (goToSection 0 s) = 0%Z.
Proof.
  intros s. split; [|split].
  - apply (proj1 (running_snap_not_retargeted
                    [Wheel 700; Key "Home"; TouchEnd 80 100] [] s 0));
      reflexivity.
  - apply (proj1 (proj2 (running_snap_not_retargeted
                    [] [Wheel 700; AnimUpdate 0.5; LockTimeout; Resize] s 0)));
      [reflexivity | repeat constructor; discriminate].
  - split; [reflexivity|]. split; [reflexivity|].
    apply (proj2 (proj2 (running_snap_not_retargeted [] [] s 0))).
    discriminate.
Defined.

Lemma Qabs_cases (a : Q) :
  (0 <= a /\ Qabs a == a) \/ (a <= 0 /\ Qabs a == - a).
Proof.
  destruct (Qlt_le_dec a 0) as [H | H].
  - right. split; [lra | apply Qabs_neg; lra].
  - left. split; [exact H | now apply Qabs_pos].
Qed.

Lemma handleWheel_cases (d : Q) (s : ScrollSystem) :
  blocked s = false ->
  (exists th,
     90 <= th <= 120 /\
     (Qabs (wheelAccumulator s + d) < th /\
      handleWheel d s = with_wheelAccumulator (wheelAccumulator s + d) s))
  \/
  (exists th,
     90 <= th <= 120 /\ th <= Qabs (wheelAccumulator s + d) /\
     exists dir k,
       ((k = 2%Z /\ 600 <= Qabs (wheelAccumulator s + d))
        \/ (k = 1%Z /\ Qabs (wheelAccumulator s + d) < 600)) /\
       ((dir = 1%Z /\ 0 < wheelAccumulator s + d)
        \/ (dir = (-1)%Z /\ wheelAccumulator s + d <= 0)) /\
       handleWheel d s
       = with_wheelAccumulator 0
           (navigateToSection (currentSection s + dir * k)
              (with_wheelAccumulator (wheelAccumulator s + d) s))).
Proof.
  intros Hb. unfold handleWheel. rewrite Hb. cbv zeta.
  cbn [wheelAccumulator with_wheelAccumulator currentSection].
  set (a := wheelAccumulator s + d).
  set (th := if Qlt_bool 40 (Qabs d)
             then mouseThreshold else trackpadThreshold).
  assert (Hth : 90 <= th <= 120)
    by (unfold th; destruct (Qlt_bool 40 (Qabs d)); split; discriminate).
  destruct (Qle_bool th (Qabs a)) eqn:E.
  - apply Qle_bool_iff in E. right.
    exists th. split; [exact Hth|]. split; [exact E|].
    exists (if Qlt_bool 0 a then 1%Z else (-1)%Z),
           (if Qle_bool skipThreshold (Qabs a) then 2%Z else 1%Z).
    split; [|split; [|reflexivity]].
    + destruct (Qle_bool skipThreshold (Qabs a)) eqn:Ek.
      * left. split; [reflexivity | now apply Qle_bool_iff in Ek].
      * right. split; [reflexivity | now apply Qle_bool_false_iff in Ek].
    + destruct (Qlt_bool 0 a) eqn:Ed.
      * left. split; [reflexivity | now apply Qlt_bool_iff in Ed].
      * right. split; [reflexivity | now apply Qlt_bool_false_iff in Ed].
  - apply Qle_bool_false_iff in E. left.
    exists th. split; [exact Hth|]. split; [exact E | reflexivity].
Qed.

(** X22.  One wheel event on a system that accepts input, with [a] the
    accumulated delta including the event.  Below 90 the event is only
    accumulated.  From 120 on the accumulator is reset.  The section moves by
    at most two, by at most one when [|a| < 600], only downwards for a
    positive and only upwards for a negative [a], never out of the valid
    range; at 600 or more it skips a section when there is room.  Whenever
    the section changes, the snap animation from the old to the new section
    has started and the accumulator is reset. *)
Theorem wheel_gesture_moves (d : Q) (s : ScrollSystem) :
  blocked s = false ->
  (0 <= currentSection s <= Z.max 0 (totalSections s - 1))%Z ->
  let a := wheelAccumulator s + d in
  let s' := handleWheel d s in
  (Qabs a < 90 -> s' = with_wheelAccumulator a s) /\
  (120 <= Qabs a -> wheelAccumulator s' == 0) /\
  (Z.abs (currentSection s' - currentSection s) <= 2)%Z /\
  (Qabs a < 600 -> (Z.abs (currentSection s' - currentSection s) <= 1)%Z) /\
  ((currentSection s < currentSection s')%Z -> 0 < a) /\
  ((currentSection s' < currentSection s)%Z -> a < 0) /\
  (0 <= currentSection s' <= Z.max 0 (totalSections s - 1))%Z /\
  (600 <= a -> (currentSection s + 2 <= totalSections s - 1)%Z ->
   currentSection s' = (currentSection s + 2)%Z) /\
  (currentSection s' <> currentSection s ->
   isAnimating s' = true /\
   tween s' = Some (currentSection s, currentSection s') /\
   wheelAccumulator s' == 0).
Proof.
  intros Hb Hr a s'.
  destruct (handleWheel_cases d s Hb)
    as [(th & Hth & Hlt & E) | (th & Hth & Hle & dir & k & Hk & Hd & E)];
    subst s'; fold a in E; rewrite E; clear E.
  - fold a in Hlt.
    cbn [currentSection with_wheelAccumulator wheelAccumulator].
    rewrite Z.sub_diag.
    destruct (Qabs_cases a) as [[Hs Habs] | [Hs Habs]];
      set (A := Qabs a) in *; clearbody A; clearbody a;
      (split; [reflexivity|]); (split; [intros; lra|]);
      (split; [cbn; lia|]); (split; [intros; cbn; lia|]);
      (split; [lia|]); (split; [lia|]); (split; [exact Hr|]);
      (split; [intros H; lra | intros H; now elim H]).
  - fold a in Hle, Hk, Hd.
    destruct (Qabs_cases a) as [[Hs Habs] | [Hs Habs]];
      set (A := Qabs a) in *; clearbody A;
      (destruct (navigateToSection_cases
                   (currentSection s + dir * k) (with_wheelAccumulator a s))
         as [[Hc En] | (c & Hc & Hne & En)];
       rewrite En; clear En;
       cbn [currentSection with_wheelAccumulator wheelAccumulator
            isAnimating tween totalSections] in *;
       clearbody a;
       destruct Hk as [[-> Hk] | [-> Hk]];
       destruct Hd as [[-> Hd] | [-> Hd]];
       try lra;
       (split; [intros; lra|]);
       (split; [intros; reflexivity|]);
       (split; [lia|]);
       (split; [intros; first [lia | lra]|]);
       (split; [intros; first [lra | lia]|]);
       (split; [intros; first [lra | lia]|]);
       (split; [lia|]);
       (split; [intros; first [lia | lra]|]);
       intros H; first [now elim H | split; [reflexivity|];
                                     split; reflexivity]).
Qed.

Lemma wheel_gesture_moves_witness :
  let s := construct 3 false in
  let a := wheelAccumulator s + 650 in
  let s' := handleWheel 650 s in
  (Qabs a < 90 -> s' = with_wheelAccumulator a s) /\
  (120 <= Qabs a -> wheelAccumulator s' == 0) /\
  (Z.abs (currentSection s' - currentSection s) <= 2)%Z /\
  (Qabs a < 600 -> (Z.abs (currentSection s' - currentSection s) <= 1)%Z) /\
  ((currentSection s < currentSection s')%Z -> 0 < a) /\
  ((currentSection s' < currentSection s)%Z -> a < 0) /\
  (0 <= currentSection s' <= Z.max 0 (totalSections s - 1))%Z /\
  (600 <= a -> (currentSection s + 2 <= totalSections s - 1)%Z ->
   currentSection s' = (currentSection s + 2)%Z) /\
  (currentSection s' <> currentSection s ->
   isAnimating s' = true /\
   tween s' = Some (currentSection s, currentSection s') /\
   wheelAccumulator s' == 0).
Proof.
  apply (wheel_gesture_moves 650 (construct 3 false));
    [reflexivity | cbn; lia].
Defined.

(** X23.  A tween update at progress [p] in [0, 1] puts the container
    between the start and the target section: at the start for [p = 0] and,
    for [p = 1], where the completion of the tween puts it, so the snap ends
    without a jump.  The value it hands to [onProgress] lies in [0, 1]: it
    is [p] from section 0 to 1 and [1 - p] back, stays 1 between sections 1
    and 2, and is 0 whenever neither end of the snap is section 1. *)
Theorem snap_animation_tracks
    (s : ScrollSystem) (startSection targetSection : Z) (p : Q) :
  tween s = Some (startSection, targetSection) ->
  0 <= p <= 1 ->
  let s' := animUpdate p s in
  Qmin (inject_Z startSection) (inject_Z targetSection) <= position s'
  /\ position s' <= Qmax (inject_Z startSection) (inject_Z targetSection)
  /\ (p == 0 -> position s' == inject_Z startSection)
  /\ (p == 1 -> position s' == position (animComplete s))
  /\ exists g,
      glassProgress s' = Some g /\ 0 <= g <= 1 /\
      (startSection = 0%Z -> targetSection = 1%Z -> g == p) /\
      (startSection = 1%Z -> targetSection = 0%Z -> g == 1 - p) /\
      (startSection = 1%Z -> targetSection = 2%Z -> g == 1) /\
      (startSection = 2%Z -> targetSection = 1%Z -> g == 1) /\
      (startSection <> 1%Z -> targetSection <> 1%Z -> g == 0).
Proof.
  intros Ht Hp s'. subst s'. unfold animUpdate, animComplete. rewrite Ht.
  cbv zeta. cbn [position updatePosition glassProgress].
  set (a := inject_Z startSection). set (b := inject_Z targetSection).
  split; [|split; [|split; [|split]]].
  - destruct (Qlt_le_dec b a) as [H | H].
    + rewrite Q.min_r by lra. nra.
    + rewrite Q.min_l by lra. nra.
  - destruct (Qlt_le_dec b a) as [H | H].
    + rewrite Q.max_l by lra. nra.
    + rewrite Q.max_r by lra. nra.
  - intros H. rewrite H. ring.
  - intros H. rewrite H. ring.
  - eexists. split; [reflexivity|].
    split; [apply glassProgressAt_range|].
    assert (M : forall x, 0 <= x <= 1 -> Qmin 1 (Qmax 0 (Qmax 0 x)) == x).
    { intros x [H0 H1].
      assert (E : Qmax 0 x == x) by (now apply Q.max_r).
      rewrite E, E. now apply Q.min_r. }
    assert (M1 : forall x, 1 <= x -> Qmin 1 (Qmax 0 (Qmax 0 x)) == 1).
    { intros x H1.
      assert (E : Qmax 0 x == x) by (apply Q.max_r; lra).
      rewrite E, E. now apply Q.min_l. }
    split; [|split; [|split; [|split]]].
    + intros -> ->. unfold glassProgressAt. cbn [Z.eqb Pos.eqb].
      rewrite M; [ring | change (inject_Z 0) with 0;
                         change (inject_Z 1) with 1; lra].
    + intros -> ->. unfold glassProgressAt. cbn [Z.eqb Pos.eqb].
      rewrite M; [ring | change (inject_Z 0) with 0;
                         change (inject_Z 1) with 1; lra].
    + intros -> ->. unfold glassProgressAt. cbn [Z.eqb Pos.eqb].
      apply M1. change (inject_Z 2) with 2. change (inject_Z 1) with 1. lra.
    + intros -> ->. unfold glassProgressAt. cbn [Z.eqb Pos.eqb].
      apply M1. change (inject_Z 2) with 2. change (inject_Z 1) with 1. lra.
    + intros Hs He. unfold glassProgressAt.
      apply Z.eqb_neq in Hs, He. rewrite Hs, He. reflexivity.
Qed.

Lemma snap_animation_tracks_witness :
  let s := step (Key "ArrowDown") (construct 3 false) in
  let s' := animUpdate 0.25 s in
  Qmin (inject_Z 0) (inject_Z 1) <= position s'
  /\ position s' <= Qmax (inject_Z 0) (inject_Z 1)
  /\ (0.25 == 0 -> position s' == inject_Z 0)
  /\ (0.25 == 1 -> position s' == position (animComplete s))
  /\ exists g,
      glassProgress s' = Some g /\ 0 <= g <= 1 /\
      (0%Z = 0%Z -> 1%Z = 1%Z -> g == 0.25) /\
      (0%Z = 1%Z -> 1%Z = 0%Z -> g == 1 - 0.25) /\
      (0%Z = 1%Z -> 1%Z = 2%Z -> g == 1) /\
      (0%Z = 2%Z -> 1%Z = 1%Z -> g == 1) /\
      (0%Z <> 1%Z -> 1%Z <> 1%Z -> g == 0).
Proof.
  apply (snap_animation_tracks
           (step (Key "ArrowDown") (construct 3 false)) 0 1 0.25);
    [reflexivity | split; discriminate].
Defined.

End SnapScrollFacts.
